(** * Sandboxed file tools: a shallow embedding and its verified properties

  The development follows the layout of [tools/files]: the string
  primitives of the host language, Node's [path] module (POSIX flavour),
  then one module per library file ([paths.js], [checksum.js],
  [lines.js], [patterns.js], [diff.js], [ignore.js], [filetypes.js],
  [file-search.js]) and the two tools [fs-read.js] and [fs-write.js].

  Strings are sequences of code units; the embedding uses [string], so
  code units range over U+0000..U+00FF. *)

From Stdlib Require Import String Ascii List ZArith Lia Bool Arith Permutation Sorted.
Import ListNotations.
Open Scope list_scope.
Open Scope string_scope.
Open Scope nat_scope.
Set Warnings "-abstract-large-number".

(** ** Host-language string primitives *)

Module JS.

(** [s.split(sep)] for a separator recognised one code unit at a time:
    the result always has at least one element. *)
Fixpoint split_by (sep : ascii -> bool) (s : string) : list string :=
  match s with
  | EmptyString => [EmptyString]
  | String c r =>
      if sep c then EmptyString :: split_by sep r
      else match split_by sep r with
           | h :: t => String c h :: t
           | [] => [String c EmptyString]
           end
  end.

Definition nl : ascii := "010"%char.
Definition dq : string := String "034"%char EmptyString.
Definition is_nl (c : ascii) : bool := Ascii.eqb c nl.

(** [s.split('\n')] *)
Definition split_lines (s : string) : list string := split_by is_nl s.

(** [l.join(sep)] *)
Fixpoint join (sep : string) (l : list string) : string :=
  match l with
  | [] => EmptyString
  | [x] => x
  | x :: t => x ++ sep ++ join sep t
  end.

Definition join_lines (l : list string) : string := join (String nl EmptyString) l.

(** White space as [trim] and the [\s] class see it (code units up to
    U+00FF): TAB, LF, VT, FF, CR, SPACE and NBSP. *)
Definition is_ws (c : ascii) : bool :=
  let n := nat_of_ascii c in
  ((9 <=? n) && (n <=? 13)) || (n =? 32) || (n =? 160).

Fixpoint trimStart (s : string) : string :=
  match s with
  | EmptyString => EmptyString
  | String c r => if is_ws c then trimStart r else s
  end.

Fixpoint trimEnd (s : string) : string :=
  match s with
  | EmptyString => EmptyString
  | String c r =>
      match trimEnd r with
      | EmptyString => if is_ws c then EmptyString else String c EmptyString
      | r' => String c r'
      end
  end.

Definition trim (s : string) : string := trimEnd (trimStart s).

Definition startsWith (s p : string) : bool := String.prefix p s.

Fixpoint endsWith_char (s : string) (c : ascii) : bool :=
  match s with
  | EmptyString => false
  | String a EmptyString => Ascii.eqb a c
  | String _ r => endsWith_char r c
  end.

Definition is_upper (c : ascii) : bool :=
  let n := nat_of_ascii c in
  ((65 <=? n) && (n <=? 90))
  || ((192 <=? n) && (n <=? 222) && negb (n =? 215)).

Definition lower_char (c : ascii) : ascii :=
  if is_upper c then ascii_of_nat (nat_of_ascii c + 32) else c.

Fixpoint toLowerCase (s : string) : string :=
  match s with
  | EmptyString => EmptyString
  | String c r => String (lower_char c) (toLowerCase r)
  end.

Definition is_alpha (c : ascii) : bool :=
  let n := nat_of_ascii c in
  ((65 <=? n) && (n <=? 90)) || ((97 <=? n) && (n <=? 122)).

Definition is_digit (c : ascii) : bool :=
  let n := nat_of_ascii c in (48 <=? n) && (n <=? 57).

(** [l.slice(start, end)] on arrays, with negative indices counted
    from the end and both bounds clamped. *)
Definition slice_index (len i : Z) : Z :=
  if (i <? 0)%Z then Z.max (len + i) 0 else Z.min i len.

Definition slice {A} (l : list A) (s e : Z) : list A :=
  let len := Z.of_nat (List.length l) in
  let s' := slice_index len s in
  let e' := slice_index len e in
  firstn (Z.to_nat (e' - s')) (skipn (Z.to_nat s') l).

(** [l.slice(start)] *)
Definition slice_from {A} (l : list A) (s : Z) : list A :=
  slice l s (Z.of_nat (List.length l)).

(** [s.slice(start, end)] on strings with non-negative bounds. *)
Definition substring (s : string) (b e : nat) : string :=
  String.substring b (e - b) s.

Fixpoint drop (n : nat) (s : string) : string :=
  match n, s with
  | O, _ => s
  | S n', String _ r => drop n' r
  | S _, EmptyString => EmptyString
  end.

Fixpoint take (n : nat) (s : string) : string :=
  match n, s with
  | S n', String c r => String c (take n' r)
  | _, _ => EmptyString
  end.

(** [s.replace(/c/g, r)] for a single code unit [c]. *)
Fixpoint replace_char (c : ascii) (r : string) (s : string) : string :=
  match s with
  | EmptyString => EmptyString
  | String a t =>
      if Ascii.eqb a c then r ++ replace_char c r t
      else String a (replace_char c r t)
  end.

(** [s.replace(/lit/g, r)] for a non-empty literal [lit]: leftmost
    occurrences, not overlapping. *)
Fixpoint replace_lit_aux (fuel : nat) (lit r s : string) : string :=
  match fuel with
  | O => s
  | S fuel' =>
      match s with
      | EmptyString => EmptyString
      | String a t =>
          if String.prefix lit s
          then r ++ replace_lit_aux fuel' lit r (drop (String.length lit) s)
          else String a (replace_lit_aux fuel' lit r t)
      end
  end.

Definition replace_lit (lit r s : string) : string :=
  replace_lit_aux (S (String.length s)) lit r s.

(** [String(n)] for a natural number. *)
Definition digit_char (d : nat) : ascii := ascii_of_nat (48 + d).

Fixpoint nat_to_string_aux (fuel n : nat) (acc : string) : string :=
  match fuel with
  | O => acc
  | S fuel' =>
      let acc' := String (digit_char (n mod 10)) acc in
      if n <? 10 then acc' else nat_to_string_aux fuel' (n / 10) acc'
  end.

Definition nat_to_string (n : nat) : string :=
  nat_to_string_aux (S n) n EmptyString.

Definition Z_to_string (z : Z) : string :=
  if (z <? 0)%Z then "-" ++ nat_to_string (Z.to_nat (- z))
  else nat_to_string (Z.to_nat z).

Fixpoint repeat_char (c : ascii) (n : nat) : string :=
  match n with
  | O => EmptyString
  | S n' => String c (repeat_char c n')
  end.

(** [s.padStart(width, ' ')] *)
Definition padStart (s : string) (width : nat) : string :=
  repeat_char " "%char (width - String.length s) ++ s.

(** The integer a string of decimal digits denotes. *)
Fixpoint parse_digits (acc : Z) (s : string) : Z :=
  match s with
  | EmptyString => acc
  | String c r => parse_digits (10 * acc + Z.of_nat (nat_of_ascii c - 48))%Z r
  end.

(** The number value of a non-negative integer: the nearest double, with
    53 significant bits and a tie going to the even one.  [infinity]
    stands for what lies beyond the largest double; it compares with the
    finite values as [Infinity] does. *)
Definition infinity : Z := (2 ^ 1024)%Z.

Definition to_double (n : Z) : Z :=
  if (n <? 2 ^ 53)%Z then n
  else
    let e := (Z.log2 n - 52)%Z in
    let q := Z.shiftr n e in
    let r := (n - Z.shiftl q e)%Z in
    let half := Z.shiftl 1 (e - 1) in
    let q' :=
      if (r <? half)%Z then q
      else if (half <? r)%Z then (q + 1)%Z
      else if Z.even q then q else (q + 1)%Z in
    Z.min infinity (Z.shiftl q' e).

Fixpoint all_chars (p : ascii -> bool) (s : string) : bool :=
  match s with
  | EmptyString => true
  | String c r => p c && all_chars p r
  end.

End JS.

(** ** Node's [path] module, POSIX flavour *)

Module NodePath.

Definition sep : string := "/".
Definition is_slash (c : ascii) : bool := Ascii.eqb c "/"%char.

(** [normalizeString]: drop empty and [.] segments, resolve [..]
    against the segments kept so far; [acc] is reversed. *)
Fixpoint normalize_segments (allowAboveRoot : bool) (acc segs : list string)
  : list string :=
  match segs with
  | [] => rev acc
  | s :: r =>
      if (String.eqb s "" || String.eqb s ".")%bool
      then normalize_segments allowAboveRoot acc r
      else if String.eqb s ".." then
        match acc with
        | top :: acc' =>
            if String.eqb top ".."
            then normalize_segments allowAboveRoot
                   (if allowAboveRoot then ".." :: acc else acc) r
            else normalize_segments allowAboveRoot acc' r
        | [] =>
            normalize_segments allowAboveRoot
              (if allowAboveRoot then [".."] else []) r
        end
      else normalize_segments allowAboveRoot (s :: acc) r
  end.

Definition normalizeString (p : string) (allowAboveRoot : bool) : string :=
  JS.join "/" (normalize_segments allowAboveRoot [] (JS.split_by is_slash p)).

(** [path.resolve(a, b)] with the process working directory [cwd]:
    arguments are taken right to left until an absolute one is met. *)
Definition resolve_step (st : string * bool) (p : string) : string * bool :=
  let '(resolvedPath, resolvedAbsolute) := st in
  if resolvedAbsolute then st
  else if String.eqb p "" then st
  else (p ++ "/" ++ resolvedPath, JS.startsWith p "/").

Definition resolve (cwd : string) (a b : string) : string :=
  let '(resolvedPath, resolvedAbsolute) :=
    resolve_step (resolve_step (resolve_step ("", false) b) a) cwd in
  let n := normalizeString resolvedPath (negb resolvedAbsolute) in
  if resolvedAbsolute then "/" ++ n
  else if String.eqb n "" then "." else n.

(** [path.normalize(p)] *)
Definition normalize (p : string) : string :=
  if String.eqb p "" then "."
  else
    let isAbsolute := JS.startsWith p "/" in
    let trailingSeparator := JS.endsWith_char p "/" in
    let n := normalizeString p (negb isAbsolute) in
    if String.eqb n "" then
      if isAbsolute then "/" else if trailingSeparator then "./" else "."
    else
      let n := if trailingSeparator then n ++ "/" else n in
      if isAbsolute then "/" ++ n else n.

(** [path.join(a, b)] *)
Definition join (a b : string) : string :=
  if String.eqb a "" then (if String.eqb b "" then "." else normalize b)
  else if String.eqb b "" then normalize a
  else normalize (a ++ "/" ++ b).

(** [path.basename(p)]: the last segment, trailing separators aside. *)
Definition basename (p : string) : string :=
  match filter (fun s => negb (String.eqb s "")) (rev (JS.split_by is_slash p)) with
  | s :: _ => s
  | [] => ""
  end.

(** [path.dirname(p)]: the scan from the end is kept as in the library,
    index 0 left out. *)
Fixpoint dirname_scan (cs : list ascii) (i : nat) (matchedSlash : bool) : option nat :=
  match cs with
  | [] => None
  | c :: r =>
      match i with
      | O => None
      | S i' =>
          if is_slash c then
            if matchedSlash then dirname_scan r i' matchedSlash else Some i
          else dirname_scan r i' false
      end
  end.

Definition dirname (p : string) : string :=
  if String.eqb p "" then "."
  else
    let hasRoot := JS.startsWith p "/" in
    match dirname_scan (rev (list_ascii_of_string p)) (String.length p - 1) true with
    | None => if hasRoot then "/" else "."
    | Some e => if (hasRoot && (e =? 1))%bool then "//" else JS.take e p
    end.

(** [path.extname(p)]: the state of the library's backward scan. *)
Record ext_state := mkExt {
  startDot : Z;
  startPart : Z;
  end_ : Z;
  matchedSlash : bool;
  preDotState : Z;
  stopped : bool
}.

Definition ext_step (st : ext_state) (ic : Z * ascii) : ext_state :=
  let '(i, c) := ic in
  if stopped st then st
  else if is_slash c then
    if negb (matchedSlash st)
    then mkExt (startDot st) (i + 1) (end_ st) (matchedSlash st) (preDotState st) true
    else st
  else
    let st1 :=
      if (end_ st =? -1)%Z
      then mkExt (startDot st) (startPart st) (i + 1) false (preDotState st) false
      else st in
    if Ascii.eqb c "." then
      if (startDot st1 =? -1)%Z
      then mkExt i (startPart st1) (end_ st1) (matchedSlash st1) (preDotState st1) false
      else if negb (preDotState st1 =? 1)%Z
      then mkExt (startDot st1) (startPart st1) (end_ st1) (matchedSlash st1) 1 false
      else st1
    else if negb (startDot st1 =? -1)%Z
    then mkExt (startDot st1) (startPart st1) (end_ st1) (matchedSlash st1) (-1) false
    else st1.

Fixpoint indexed_from (i : Z) (cs : list ascii) : list (Z * ascii) :=
  match cs with
  | [] => []
  | c :: r => (i, c) :: indexed_from (i + 1) r
  end.

Definition extname (p : string) : string :=
  let st :=
    fold_left ext_step (rev (indexed_from 0 (list_ascii_of_string p)))
      (mkExt (-1) 0 (-1) true 0 false) in
  if ((startDot st =? -1) || (end_ st =? -1) || (preDotState st =? 0)
      || ((preDotState st =? 1) && (startDot st =? end_ st - 1)
          && (startDot st =? startPart st + 1)))%Z%bool
  then ""
  else JS.substring p (Z.to_nat (startDot st)) (Z.to_nat (end_ st)).

End NodePath.

(** ** paths.js *)

Module Paths.

Definition is_separator (c : ascii) : bool :=
  (Ascii.eqb c "/" || Ascii.eqb c "\")%char%bool.

Definition hasEscapeAttempt (pathStr : string) : bool :=
  existsb (String.eqb "..") (JS.split_by is_separator pathStr).

Definition has_drive_prefix (pathStr : string) : bool :=
  match pathStr with
  | String a (String b (String c _)) =>
      JS.is_alpha a && Ascii.eqb b ":" && is_separator c
  | _ => false
  end.

Definition isAbsolutePath (pathStr : string) : bool :=
  if JS.startsWith pathStr "/" then true
  else if has_drive_prefix pathStr then true
  else false.

Record resolved_path := mkResolved {
  absolutePath : string;
  relativePath : string;
  virtualPath : string
}.

Inductive resolve_result :=
| Ok (resolved : resolved_path)
| Error (error : string).

Fixpoint strip_leading_slashes (s : string) : string :=
  match s with
  | String c r => if NodePath.is_slash c then strip_leading_slashes r else s
  | EmptyString => EmptyString
  end.

Section WithRoot.
(** [CONFIG.workspace.root] and the working directory of the process. *)
Variable cwd : string.
Variable root : string.

Definition getWorkspaceRoot : string := root.

Definition resolvePath (virtualPath : string) : resolve_result :=
  let trimmed := JS.trim virtualPath in
  let root := getWorkspaceRoot in
  if isAbsolutePath trimmed then
    Error "Absolute paths not allowed. Use relative paths within workspace."
  else if hasEscapeAttempt trimmed then
    Error ("Path cannot contain " ++ JS.dq ++ ".." ++ JS.dq ++ " segments")
  else if (String.eqb trimmed "." || String.eqb trimmed ""
           || String.eqb trimmed "/")%bool then
    Ok (mkResolved root "." ".")
  else
    let normalized :=
      strip_leading_slashes (JS.replace_char "\"%char "/" trimmed) in
    let absolutePath := NodePath.resolve cwd root normalized in
    if (negb (JS.startsWith absolutePath (root ++ NodePath.sep))
        && negb (String.eqb absolutePath root))%bool
    then Error "Path is outside workspace"
    else Ok (mkResolved absolutePath normalized normalized).

Definition toVirtualPath (absolutePath : string) : option string :=
  if String.eqb absolutePath root then Some "."
  else if JS.startsWith absolutePath (root ++ NodePath.sep)
  then Some (JS.drop (String.length root + 1) absolutePath)
  else None.
End WithRoot.

End Paths.

(** ** checksum.js *)

Module Checksum.

Local Open Scope Z_scope.

(** *** SHA-256 on 32-bit words held in [Z], wrap-around written out *)

Definition w32 (x : Z) : Z := x mod 2 ^ 32.
Definition add32 (x y : Z) : Z := w32 (x + y).
Definition rotr (n x : Z) : Z :=
  Z.lor (Z.shiftr x n) (w32 (Z.shiftl x (32 - n))).
Definition not32 (x : Z) : Z := Z.lxor x 4294967295.

Definition Ch (x y z : Z) : Z := Z.lxor (Z.land x y) (Z.land (not32 x) z).
Definition Maj (x y z : Z) : Z :=
  Z.lxor (Z.lxor (Z.land x y) (Z.land x z)) (Z.land y z).
Definition Sigma0 (x : Z) : Z := Z.lxor (Z.lxor (rotr 2 x) (rotr 13 x)) (rotr 22 x).
Definition Sigma1 (x : Z) : Z := Z.lxor (Z.lxor (rotr 6 x) (rotr 11 x)) (rotr 25 x).
Definition sigma0 (x : Z) : Z := Z.lxor (Z.lxor (rotr 7 x) (rotr 18 x)) (Z.shiftr x 3).
Definition sigma1 (x : Z) : Z := Z.lxor (Z.lxor (rotr 17 x) (rotr 19 x)) (Z.shiftr x 10).

(** The round constants and the initial hash value are, as the standard
    defines them, the first 32 bits of the fractional parts of the cube
    roots of the first 64 primes and of the square roots of the first 8
    primes. *)
Definition is_prime (n : nat) : bool :=
  (2 <=? n)%nat
  && forallb (fun d => negb (n mod d =? 0)%nat) (List.seq 2 (n - 2)).

Definition primes (count : nat) : list Z :=
  map Z.of_nat (firstn count (filter is_prime (List.seq 2 400))).

Definition cube_root (n : Z) : Z :=
  fold_left
    (fun r b =>
       let c := r + 2 ^ Z.of_nat b in
       if c * c * c <=? n then c else r)
    (rev (List.seq 0 40)) 0.

Definition K256 : list Z :=
  Eval vm_compute in map (fun p => w32 (cube_root (p * 2 ^ 96))) (primes 64).

Definition H256 : list Z :=
  Eval vm_compute in map (fun p => w32 (Z.sqrt (p * 2 ^ 64))) (primes 8).

(** Padding: a 1 bit, zeros up to 56 mod 64 bytes, then the bit length
    as a 64-bit big-endian integer. *)
Fixpoint be_bytes (n : nat) (x : Z) : list Z :=
  match n with
  | O => []
  | S n' => (Z.shiftr x (8 * Z.of_nat n')) mod 256 :: be_bytes n' x
  end.

Definition pad (msg : list Z) : list Z :=
  let len := Z.of_nat (List.length msg) in
  let zeros := Z.to_nat ((55 - len) mod 64) in
  (msg ++ 128 :: List.repeat 0 zeros ++ be_bytes 8 (8 * len))%list.

Fixpoint words_of_bytes (bs : list Z) : list Z :=
  match bs with
  | a :: b :: c :: d :: r =>
      (Z.shiftl a 24 + Z.shiftl b 16 + Z.shiftl c 8 + d) :: words_of_bytes r
  | _ => []
  end.

Fixpoint chunks {A} (fuel n : nat) (l : list A) : list (list A) :=
  match fuel with
  | O => []
  | S fuel' =>
      match l with
      | [] => []
      | _ => firstn n l :: chunks fuel' n (skipn n l)
      end
  end.

(** The message schedule, most recent word first. *)
Fixpoint schedule (n : nat) (w : list Z) : list Z :=
  match n with
  | O => w
  | S n' =>
      let x :=
        add32 (add32 (sigma1 (nth 1 w 0)) (nth 6 w 0))
              (add32 (sigma0 (nth 14 w 0)) (nth 15 w 0)) in
      schedule n' (x :: w)
  end.

Definition state8 : Type := (Z * Z * Z * Z * Z * Z * Z * Z)%type.

Definition round (st : state8) (kw : Z * Z) : state8 :=
  let '(a, b, c, d, e, f, g, h) := st in
  let '(k, w) := kw in
  let t1 := add32 (add32 (add32 h (Sigma1 e)) (add32 (Ch e f g) k)) w in
  let t2 := add32 (Sigma0 a) (Maj a b c) in
  (add32 t1 t2, a, b, c, add32 d t1, e, f, g).

Definition compress (st : state8) (block : list Z) : state8 :=
  let w := rev (schedule 48 (rev (words_of_bytes block))) in
  let '(a, b, c, d, e, f, g, h) := fold_left round (combine K256 w) st in
  let '(a0, b0, c0, d0, e0, f0, g0, h0) := st in
  (add32 a0 a, add32 b0 b, add32 c0 c, add32 d0 d,
   add32 e0 e, add32 f0 f, add32 g0 g, add32 h0 h).

Definition initial_state : state8 :=
  match H256 with
  | [a; b; c; d; e; f; g; h] => (a, b, c, d, e, f, g, h)
  | _ => (0, 0, 0, 0, 0, 0, 0, 0)
  end.

Definition sha256_words (msg : list Z) : list Z :=
  let p := pad msg in
  let '(a, b, c, d, e, f, g, h) :=
    fold_left compress (chunks (List.length p) 64 p) initial_state in
  [a; b; c; d; e; f; g; h].

(** [digest('hex')]: lower-case hexadecimal, two digits per byte. *)
Definition hex_digit (d : Z) : ascii :=
  if d <? 10 then ascii_of_nat (Z.to_nat (48 + d))
  else ascii_of_nat (Z.to_nat (87 + d)).

Fixpoint hex_of_bytes (bs : list Z) : string :=
  match bs with
  | [] => EmptyString
  | b :: r =>
      String (hex_digit (b / 16 mod 16))
        (String (hex_digit (b mod 16)) (hex_of_bytes r))
  end.

Definition sha256_hex (msg : list Z) : string :=
  hex_of_bytes (flat_map (be_bytes 4) (sha256_words msg)).

(** [update(content, 'utf8')]: the UTF-8 bytes of the code units. *)
Definition utf8_of_char (c : ascii) : list Z :=
  let n := Z.of_nat (nat_of_ascii c) in
  if n <? 128 then [n]
  else [Z.lor 192 (Z.shiftr n 6); Z.lor 128 (Z.land n 63)].

Fixpoint utf8 (s : string) : list Z :=
  match s with
  | EmptyString => []
  | String c r => (utf8_of_char c ++ utf8 r)%list
  end.

Definition generateChecksum (content : string) : string :=
  JS.take 12 (sha256_hex (utf8 content)).

Definition verifyChecksum (content expected : string) : bool :=
  String.eqb (generateChecksum content) expected.

End Checksum.

(** ** lines.js *)

Module Lines.

Local Open Scope Z_scope.

Definition is_digits (s : string) : bool :=
  negb (String.eqb s "") && JS.all_chars JS.is_digit s.

(** The two parts of [s] around its first [-], if it has one. *)
Fixpoint split_dash (s : string) : option (string * string) :=
  match s with
  | EmptyString => None
  | String c r =>
      if Ascii.eqb c "-" then Some (EmptyString, r)
      else match split_dash r with
           | Some (a, b) => Some (String c a, b)
           | None => None
           end
  end.

(** [parseInt(s, 10)] on a string of decimal digits. *)
Definition parseInt (s : string) : Z := JS.to_double (JS.parse_digits 0 s).

Definition parseLineRange (range : string) : option (Z * Z) :=
  let trimmed := JS.trim range in
  if is_digits trimmed then
    let line := parseInt trimmed in
    Some (line, line)
  else
    match split_dash trimmed with
    | Some (m1, m2) =>
        if is_digits m1 && is_digits m2 then
          let start := parseInt m1 in
          let end_ := parseInt m2 in
          if start <=? end_ then Some (start, end_) else None
        else None
    | None => None
    end.

Fixpoint number_lines (width : nat) (n : Z) (lines : list string) : list string :=
  match lines with
  | [] => []
  | line :: r =>
      (JS.padStart (JS.Z_to_string n) width ++ "|" ++ line)%string
        :: number_lines width (n + 1) r
  end.

Definition addLineNumbers (content : string) (startLine : Z) : string :=
  let lines := JS.split_lines content in
  let maxLineNum := startLine + Z.of_nat (List.length lines) - 1 in
  let width := String.length (JS.Z_to_string maxLineNum) in
  JS.join_lines (number_lines width startLine lines).

Record extracted := mkExtracted {
  text : string;
  actualStart : Z;
  actualEnd : Z
}.

Definition extractLines (content : string) (start end_ : Z) : extracted :=
  let lines := JS.split_lines content in
  let actualStart := Z.max 1 start in
  let actualEnd := Z.min (Z.of_nat (List.length lines)) end_ in
  mkExtracted (JS.join_lines (JS.slice lines (actualStart - 1) actualEnd))
              actualStart actualEnd.

Definition getContextLines (content : string) (line contextBefore contextAfter : Z)
  : list string * list string :=
  let lines := JS.split_lines content in
  let lineIndex := line - 1 in
  let beforeStart := Z.max 0 (lineIndex - contextBefore) in
  let afterEnd := Z.min (Z.of_nat (List.length lines)) (lineIndex + 1 + contextAfter) in
  (JS.slice lines beforeStart lineIndex, JS.slice lines (lineIndex + 1) afterEnd).

Definition replaceLines (content : string) (start end_ : Z) (replacement : string)
  : string :=
  let lines := JS.split_lines content in
  let before := JS.slice lines 0 (start - 1) in
  let after := JS.slice_from lines end_ in
  JS.join_lines (before ++ replacement :: after)%list.

(** [lines.splice(index, 0, x)] *)
Definition splice_insert {A} (l : list A) (index : Z) (x : A) : list A :=
  let i := Z.to_nat (JS.slice_index (Z.of_nat (List.length l)) index) in
  (firstn i l ++ x :: skipn i l)%list.

Definition insertBeforeLine (content : string) (line : Z) (insertion : string)
  : string :=
  let lines := JS.split_lines content in
  let insertIndex := Z.max 0 (line - 1) in
  JS.join_lines (splice_insert lines insertIndex insertion).

Definition insertAfterLine (content : string) (line : Z) (insertion : string)
  : string :=
  let lines := JS.split_lines content in
  let insertIndex := Z.min (Z.of_nat (List.length lines)) line in
  JS.join_lines (splice_insert lines insertIndex insertion).

Definition deleteLines (content : string) (start end_ : Z) : string :=
  let lines := JS.split_lines content in
  let before := JS.slice lines 0 (start - 1) in
  let after := JS.slice_from lines end_ in
  JS.join_lines (before ++ after)%list.

End Lines.

(** ** The regular-expression engine of the host

    [new RegExp(source, flags)], [exec] and [test] for sources without
    the [u] flag, in the syntax of the standard with its additions for
    web browsers: literals (a brace or a closing bracket that opens no
    quantifier or class stands for itself), escapes, [.], classes,
    groups, alternation, the quantifiers [*], [+], [?] and [{n,m}]
    (greedy and lazy), the assertions [^], [$], [\b], [\B], look-ahead
    and look-behind, under the flags [g], [i], [m] and [s].

    Not covered: back-references and named groups, and the escapes
    [\c], [\x], [\u] and those that start with a digit.  A source that
    uses one of them has no compiled form here, although the host
    compiles it; the callers below answer it like a malformed source.
    Groups are not numbered: without back-references only the whole
    match can be observed. *)

Module RegExp.

Inductive class_item :=
| CChar (c : ascii)
| CDash
| CRange (lo hi : ascii)
| CSpace (neg : bool)
| CDigit (neg : bool)
| CWord (neg : bool).

Inductive re :=
| Empty
| Chr (c : ascii)
| Any
| Class (neg : bool) (items : list class_item)
| Bol
| Eol
| WordB
| NotWordB
| LookAhead (a : re)
| NotAhead (a : re)
| LookBehind (a : re)
| NotBehind (a : re)
| Seq (a b : re)
| Alt (a b : re)
| Star (greedy : bool) (a : re)
| Maybe (greedy : bool) (a next : re).

Record flags := mkFlags {
  global : bool;
  ignoreCase : bool;
  multiline : bool;
  dotAll : bool
}.

Record regexp := mkRegExp {
  body : re;
  rflags : flags
}.

(** *** Parsing *)

(** An assertion other than a look-ahead takes no quantifier. *)
Inductive item :=
| IAtom (a : re)
| IAssert (a : re)
| IQuant (a : re) (min : nat) (max : option nat) (greedy : bool).

Inductive group_kind :=
| GTop | GGroup | GLookAhead | GNotAhead | GLookBehind | GNotBehind.

Record frame := mkFrame {
  fkind : group_kind;
  falts : list re;
  fcur : list item
}.

Inductive mode :=
| MNormal
| MEscape
| MGroupOpen
| MGroupQ
| MGroupLt
| MClassOpen
| MClass (neg : bool) (items : list class_item)
| MClassEscape (neg : bool) (items : list class_item)
| MBraceMin (seen : list ascii) (acc : option nat)
| MBraceMax (seen : list ascii) (min : nat) (acc : option nat).

Record pstate := mkPState {
  stack : list frame;
  pmode : mode
}.

Fixpoint repeat_seq (n : nat) (a rest : re) : re :=
  match n with
  | O => rest
  | S n' => Seq a (repeat_seq n' a rest)
  end.

(** Up to [n] further iterations, each of which has to advance. *)
Fixpoint repeat_opt (n : nat) (greedy : bool) (a : re) : re :=
  match n with
  | O => Empty
  | S n' => Maybe greedy a (repeat_opt n' greedy a)
  end.

Definition re_of_item (i : item) : re :=
  match i with
  | IAtom a => a
  | IAssert a => a
  | IQuant a min None greedy => repeat_seq min a (Star greedy a)
  | IQuant a min (Some max) greedy =>
      repeat_seq min a (repeat_opt (max - min) greedy a)
  end.

(** The items of an alternative are kept most recent first. *)
Definition seq_of (cur : list item) : re :=
  fold_left (fun acc i => Seq (re_of_item i) acc) cur Empty.

Definition close_frame (f : frame) : re :=
  fold_left (fun acc a => Alt a acc) (falts f) (seq_of (fcur f)).

Definition push_item (i : item) (st : pstate) : option pstate :=
  match stack st with
  | f :: fs =>
      Some (mkPState (mkFrame (fkind f) (falts f) (i :: fcur f) :: fs) MNormal)
  | [] => None
  end.

Definition quantify (min : nat) (max : option nat) (st : pstate) : option pstate :=
  match stack st with
  | f :: fs =>
      match fcur f with
      | IAtom a :: cur =>
          Some (mkPState
                  (mkFrame (fkind f) (falts f) (IQuant a min max true :: cur) :: fs)
                  MNormal)
      | _ => None
      end
  | [] => None
  end.

Definition question (st : pstate) : option pstate :=
  match stack st with
  | f :: fs =>
      match fcur f with
      | IAtom a :: cur =>
          Some (mkPState
                  (mkFrame (fkind f) (falts f) (IQuant a 0 (Some 1) true :: cur) :: fs)
                  MNormal)
      | IQuant a min max true :: cur =>
          Some (mkPState
                  (mkFrame (fkind f) (falts f) (IQuant a min max false :: cur) :: fs)
                  MNormal)
      | _ => None
      end
  | [] => None
  end.

Definition set_mode (m : mode) (st : pstate) : pstate := mkPState (stack st) m.

Definition set_kind (k : group_kind) (st : pstate) : option pstate :=
  match stack st with
  | f :: fs => Some (mkPState (mkFrame k (falts f) (fcur f) :: fs) MNormal)
  | [] => None
  end.

Definition syntax_chars : list ascii :=
  [ "."; "*"; "+"; "?"; "^"; "$"; "{"; "}"; "("; ")"; "|"; "["; "]"; "\" ]%char.

Definition is_syntax_char (c : ascii) : bool := existsb (Ascii.eqb c) syntax_chars.

(** The item a closed group stands for. *)
Definition group_item (k : group_kind) (r : re) : item :=
  match k with
  | GLookAhead => IAtom (LookAhead r)
  | GNotAhead => IAtom (NotAhead r)
  | GLookBehind => IAssert (LookBehind r)
  | GNotBehind => IAssert (NotBehind r)
  | _ => IAtom r
  end.

Definition step_normal (st : pstate) (c : ascii) : option pstate :=
  if Ascii.eqb c "\" then Some (set_mode MEscape st)
  else if Ascii.eqb c "(" then
    Some (mkPState (mkFrame GGroup [] [] :: stack st) MGroupOpen)
  else if Ascii.eqb c ")" then
    match stack st with
    | f :: g :: fs =>
        Some (mkPState
                (mkFrame (fkind g) (falts g)
                   (group_item (fkind f) (close_frame f) :: fcur g) :: fs)
                MNormal)
    | _ => None
    end
  else if Ascii.eqb c "|" then
    match stack st with
    | f :: fs =>
        Some (mkPState (mkFrame (fkind f) (seq_of (fcur f) :: falts f) [] :: fs) MNormal)
    | [] => None
    end
  else if Ascii.eqb c "*" then quantify 0 None st
  else if Ascii.eqb c "+" then quantify 1 None st
  else if Ascii.eqb c "?" then question st
  else if Ascii.eqb c "{" then Some (set_mode (MBraceMin ["{"%char] None) st)
  else if Ascii.eqb c "." then push_item (IAtom Any) st
  else if Ascii.eqb c "^" then push_item (IAssert Bol) st
  else if Ascii.eqb c "$" then push_item (IAssert Eol) st
  else if Ascii.eqb c "[" then Some (set_mode MClassOpen st)
  else push_item (IAtom (Chr c)) st.

(** The code units of what looked like a quantifier, as literals. *)
Definition push_chars (cs : list ascii) (st : pstate) : option pstate :=
  fold_left
    (fun acc c =>
       match acc with
       | Some st' => push_item (IAtom (Chr c)) st'
       | None => None
       end)
    cs (Some st).

(** [seen], most recent first, did not become a quantifier: it is read
    as literals, and [c] after it as usual. *)
Definition literal_brace (seen : list ascii) (st : pstate) (c : ascii)
  : option pstate :=
  match push_chars (rev seen) (set_mode MNormal st) with
  | Some st' => step_normal st' c
  | None => None
  end.

Definition backspace : ascii := "008"%char.
Definition tab : ascii := "009"%char.
Definition vtab : ascii := "011"%char.
Definition formfeed : ascii := "012"%char.
Definition cr : ascii := "013"%char.

(** What a backslash and [c] stand for, in a class and outside one: a
    set, a control character, or the character itself.  The escapes
    [\c], [\x], [\u] and those that start with a digit are not
    covered. *)
Definition char_escape (c : ascii) : option class_item :=
  if Ascii.eqb c "s" then Some (CSpace false)
  else if Ascii.eqb c "S" then Some (CSpace true)
  else if Ascii.eqb c "d" then Some (CDigit false)
  else if Ascii.eqb c "D" then Some (CDigit true)
  else if Ascii.eqb c "w" then Some (CWord false)
  else if Ascii.eqb c "W" then Some (CWord true)
  else if Ascii.eqb c "n" then Some (CChar JS.nl)
  else if Ascii.eqb c "t" then Some (CChar tab)
  else if Ascii.eqb c "r" then Some (CChar cr)
  else if Ascii.eqb c "v" then Some (CChar vtab)
  else if Ascii.eqb c "f" then Some (CChar formfeed)
  else if (Ascii.eqb c "c" || Ascii.eqb c "x" || Ascii.eqb c "u"
           || JS.is_digit c)%bool then None
  else Some (CChar c).

(** In a class [\b] is the backspace. *)
Definition class_escape (c : ascii) : option class_item :=
  if Ascii.eqb c "b" then Some (CChar backspace) else char_escape c.

Definition step_escape (st : pstate) (c : ascii) : option pstate :=
  if Ascii.eqb c "b" then push_item (IAssert WordB) st
  else if Ascii.eqb c "B" then push_item (IAssert NotWordB) st
  else match char_escape c with
       | Some (CChar a) => push_item (IAtom (Chr a)) st
       | Some i => push_item (IAtom (Class false [i])) st
       | None => None
       end.

(** The code unit a class atom stands for, when it is one. *)
Definition item_char (i : class_item) : option ascii :=
  match i with
  | CChar c => Some c
  | CDash => Some "-"%char
  | _ => None
  end.

(** Ranges are recognised once the class is complete; [items] is in
    source order here.  An atom, a dash and an atom are a range when
    both atoms are code units, which have to be in order, and the two
    atoms and the dash otherwise. *)
Fixpoint class_ranges (items : list class_item) : option (list class_item) :=
  match items with
  | [] => Some []
  | a :: rest =>
      match rest with
      | CDash :: b :: rest' =>
          match item_char a, item_char b with
          | Some lo, Some hi =>
              if nat_of_ascii lo <=? nat_of_ascii hi
              then option_map (cons (CRange lo hi)) (class_ranges rest')
              else None
          | _, _ =>
              option_map (fun r => a :: CDash :: b :: r) (class_ranges rest')
          end
      | _ => option_map (cons a) (class_ranges rest)
      end
  end.

Definition close_class (neg : bool) (items : list class_item) (st : pstate)
  : option pstate :=
  match class_ranges (rev items) with
  | Some ranges => push_item (IAtom (Class neg ranges)) st
  | None => None
  end.

Definition digit_value (c : ascii) : nat := nat_of_ascii c - 48.

Definition step (st : pstate) (c : ascii) : option pstate :=
  match pmode st with
  | MNormal => step_normal st c
  | MEscape => step_escape st c
  | MGroupOpen =>
      if Ascii.eqb c "?" then Some (set_mode MGroupQ st)
      else step_normal (set_mode MNormal st) c
  | MGroupQ =>
      if Ascii.eqb c ":" then set_kind GGroup st
      else if Ascii.eqb c "=" then set_kind GLookAhead st
      else if Ascii.eqb c "!" then set_kind GNotAhead st
      else if Ascii.eqb c "<" then Some (set_mode MGroupLt st)
      else None
  | MGroupLt =>
      if Ascii.eqb c "=" then set_kind GLookBehind st
      else if Ascii.eqb c "!" then set_kind GNotBehind st
      else None
  | MClassOpen =>
      if Ascii.eqb c "^" then Some (set_mode (MClass true []) st)
      else if Ascii.eqb c "]" then push_item (IAtom (Class false [])) st
      else if Ascii.eqb c "\" then Some (set_mode (MClassEscape false []) st)
      else if Ascii.eqb c "-" then Some (set_mode (MClass false [CDash]) st)
      else Some (set_mode (MClass false [CChar c]) st)
  | MClass neg items =>
      if Ascii.eqb c "]" then close_class neg items st
      else if Ascii.eqb c "\" then Some (set_mode (MClassEscape neg items) st)
      else if Ascii.eqb c "-" then Some (set_mode (MClass neg (CDash :: items)) st)
      else Some (set_mode (MClass neg (CChar c :: items)) st)
  | MClassEscape neg items =>
      match class_escape c with
      | Some i => Some (set_mode (MClass neg (i :: items)) st)
      | None => None
      end
  | MBraceMin seen acc =>
      if JS.is_digit c then
        Some (set_mode
                (MBraceMin (c :: seen)
                   (Some (10 * match acc with Some n => n | None => 0 end
                          + digit_value c))) st)
      else match acc with
           | Some n =>
               if Ascii.eqb c "," then Some (set_mode (MBraceMax (c :: seen) n None) st)
               else if Ascii.eqb c "}" then quantify n (Some n) (set_mode MNormal st)
               else literal_brace seen st c
           | None => literal_brace seen st c
           end
  | MBraceMax seen min acc =>
      if JS.is_digit c then
        Some (set_mode
                (MBraceMax (c :: seen) min
                   (Some (10 * match acc with Some n => n | None => 0 end
                          + digit_value c))) st)
      else if Ascii.eqb c "}" then
        match acc with
        | Some max => if max <? min then None
                      else quantify min (Some max) (set_mode MNormal st)
        | None => quantify min None (set_mode MNormal st)
        end
      else literal_brace seen st c
  end.

Fixpoint run (st : pstate) (src : string) : option pstate :=
  match src with
  | EmptyString => Some st
  | String c r =>
      match step st c with
      | Some st' => run st' r
      | None => None
      end
  end.

Definition initial : pstate := mkPState [mkFrame GTop [] []] MNormal.

(** At the end of the source a brace that was left open is a literal. *)
Definition finish (st : pstate) : option re :=
  let st' :=
    match pmode st with
    | MBraceMin seen _ | MBraceMax seen _ _ =>
        push_chars (rev seen) (set_mode MNormal st)
    | _ => Some st
    end in
  match st' with
  | Some st' =>
      match pmode st', stack st' with
      | MNormal, [f] => Some (close_frame f)
      | _, _ => None
      end
  | None => None
  end.

Definition parse (src : string) : option re :=
  match run initial src with
  | Some st => finish st
  | None => None
  end.

Fixpoint parse_flags (fl : flags) (s : string) : option flags :=
  match s with
  | EmptyString => Some fl
  | String c r =>
      if Ascii.eqb c "g" then
        if global fl then None
        else parse_flags (mkFlags true (ignoreCase fl) (multiline fl) (dotAll fl)) r
      else if Ascii.eqb c "i" then
        if ignoreCase fl then None
        else parse_flags (mkFlags (global fl) true (multiline fl) (dotAll fl)) r
      else if Ascii.eqb c "m" then
        if multiline fl then None
        else parse_flags (mkFlags (global fl) (ignoreCase fl) true (dotAll fl)) r
      else if Ascii.eqb c "s" then
        if dotAll fl then None
        else parse_flags (mkFlags (global fl) (ignoreCase fl) (multiline fl) true) r
      else None
  end.

(** [new RegExp(source, flags)] *)
Definition compile (source fl : string) : option regexp :=
  match parse source, parse_flags (mkFlags false false false false) fl with
  | Some r, Some f => Some (mkRegExp r f)
  | _, _ => None
  end.

(** *** Matching

    A position in the subject: the code units before it, nearest first,
    and those from it on. *)

Record pos := mkPos {
  before : list ascii;
  after : list ascii
}.

Definition index_of (p : pos) : nat := List.length (before p).

Definition is_line_terminator (c : ascii) : bool :=
  (Ascii.eqb c JS.nl || Ascii.eqb c cr)%bool.

Definition is_word_char (c : ascii) : bool :=
  (JS.is_alpha c || JS.is_digit c || Ascii.eqb c "_")%bool.

Definition upper_char (c : ascii) : ascii :=
  let n := nat_of_ascii c in
  if (((97 <=? n) && (n <=? 122))
      || ((224 <=? n) && (n <=? 254) && negb (n =? 247)))%bool
  then ascii_of_nat (n - 32) else c.

Definition char_eq (fl : flags) (a c : ascii) : bool :=
  if ignoreCase fl then Ascii.eqb (upper_char a) (upper_char c)
  else Ascii.eqb a c.

Definition item_matches (i : class_item) (c : ascii) : bool :=
  match i with
  | CChar a => Ascii.eqb a c
  | CDash => Ascii.eqb c "-"
  | CRange lo hi =>
      (nat_of_ascii lo <=? nat_of_ascii c) && (nat_of_ascii c <=? nat_of_ascii hi)
  | CSpace neg => xorb neg (JS.is_ws c)
  | CDigit neg => xorb neg (JS.is_digit c)
  | CWord neg => xorb neg (is_word_char c)
  end.

Definition class_matches (fl : flags) (neg : bool) (items : list class_item)
  (c : ascii) : bool :=
  let hit x := existsb (fun i => item_matches i x) items in
  xorb neg
    (if ignoreCase fl then (hit c || hit (upper_char c) || hit (JS.lower_char c))%bool
     else hit c).

Definition consume (ok : ascii -> bool) (k : pos -> option pos) (p : pos)
  : option pos :=
  match after p with
  | a :: t => if ok a then k (mkPos (a :: before p) t) else None
  | [] => None
  end.

Definition at_bol (fl : flags) (p : pos) : bool :=
  match before p with
  | [] => true
  | a :: _ => multiline fl && is_line_terminator a
  end.

Definition at_eol (fl : flags) (p : pos) : bool :=
  match after p with
  | [] => true
  | a :: _ => multiline fl && is_line_terminator a
  end.

Definition at_word_boundary (p : pos) : bool :=
  let l := match before p with a :: _ => is_word_char a | [] => false end in
  let r := match after p with a :: _ => is_word_char a | [] => false end in
  xorb l r.

(** The position [j] code units back from [p]. *)
Fixpoint rewind (j : nat) (p : pos) : pos :=
  match j with
  | O => p
  | S j' =>
      match before p with
      | a :: b => rewind j' (mkPos b (a :: after p))
      | [] => p
      end
  end.

Definition orelse {A} (x y : option A) : option A :=
  match x with Some _ => x | None => y end.

(** Backtracking matcher in continuation-passing style: [k] is what
    remains to be matched after [r]. *)
Fixpoint mt (fl : flags) (r : re) (k : pos -> option pos) (p : pos) {struct r}
  : option pos :=
  match r with
  | Empty => k p
  | Chr c => consume (fun a => char_eq fl a c) k p
  | Any => consume (fun a => (dotAll fl || negb (is_line_terminator a))%bool) k p
  | Class neg items => consume (class_matches fl neg items) k p
  | Bol => if at_bol fl p then k p else None
  | Eol => if at_eol fl p then k p else None
  | WordB => if at_word_boundary p then k p else None
  | NotWordB => if at_word_boundary p then None else k p
  | LookAhead a =>
      match mt fl a Some p with
      | Some _ => k p
      | None => None
      end
  | NotAhead a =>
      match mt fl a Some p with
      | Some _ => None
      | None => k p
      end
  | LookBehind a =>
      if existsb
           (fun j =>
              match mt fl a
                      (fun q => if index_of q =? index_of p then Some q else None)
                      (rewind j p) with
              | Some _ => true
              | None => false
              end)
           (List.seq 0 (S (index_of p)))
      then k p else None
  | NotBehind a =>
      if existsb
           (fun j =>
              match mt fl a
                      (fun q => if index_of q =? index_of p then Some q else None)
                      (rewind j p) with
              | Some _ => true
              | None => false
              end)
           (List.seq 0 (S (index_of p)))
      then None else k p
  | Seq a b => mt fl a (mt fl b k) p
  | Alt a b => orelse (mt fl a k p) (mt fl b k p)
  | Star greedy a =>
      (fix loop (n : nat) (p : pos) {struct n} : option pos :=
         match n with
         | O => k p
         | S n' =>
             let more :=
               mt fl a
                 (fun q =>
                    if List.length (after q) <? List.length (after p)
                    then loop n' q else None) p in
             if greedy then orelse more (k p) else orelse (k p) more
         end) (S (List.length (after p))) p
  | Maybe greedy a next =>
      let more :=
        mt fl a
          (fun q =>
             if List.length (after q) <? List.length (after p)
             then mt fl next k q else None) p in
      if greedy then orelse more (k p) else orelse (k p) more
  end.

(** The leftmost match starting at or after the position given. *)
Fixpoint search (rx : regexp) (bef aft : list ascii) : option (nat * nat) :=
  match mt (rflags rx) (body rx) Some (mkPos bef aft) with
  | Some q => Some (List.length bef, index_of q)
  | None =>
      match aft with
      | [] => None
      | a :: t => search rx (a :: bef) t
      end
  end.

Definition search_from (rx : regexp) (content : string) (start : nat)
  : option (nat * nat) :=
  let cs := list_ascii_of_string content in
  if List.length cs <? start then None
  else search rx (rev (firstn start cs)) (skipn start cs).

(** [rx.exec(content)] with [rx.lastIndex = lastIndex]: the index and
    the end of the match.  Without [g] the search starts at 0. *)
Definition exec (rx : regexp) (content : string) (lastIndex : nat)
  : option (nat * nat) :=
  search_from rx content (if global (rflags rx) then lastIndex else 0).

(** [rx.test(s)] on a freshly built expression. *)
Definition test (rx : regexp) (s : string) : bool :=
  match exec rx s 0 with Some _ => true | None => false end.

End RegExp.

(** ** Exceptions of the host *)

Inductive exn :=
| SyntaxError
| FsError (code : string).

Inductive outcome (A : Type) :=
| Returned (a : A)
| Thrown (e : exn).

Arguments Returned {A} a.
Arguments Thrown {A} e.

(** ** patterns.js *)

Module Patterns.

Definition bq3 : string := "```".

Definition PRESET_PATTERNS : list (string * (string * string)) :=
  [ ("wikilinks", ("\[\[([^\]|]+)(\|[^\]]+)?\]\]", "g"));
    ("tags", ("(?<=\s|^)#[a-zA-Z][a-zA-Z0-9_/]*", "gm"));
    ("tasks", ("^\s*-\s*\[([ xX])\]\s+(.*)$", "gm"));
    ("tasks_open", ("^\s*-\s*\[ \]\s+(.*)$", "gm"));
    ("tasks_done", ("^\s*-\s*\[[xX]\]\s+(.*)$", "gm"));
    ("headings", ("^(#{1,6})\s+(.+)$", "gm"));
    ("codeblocks", (bq3 ++ "[\s\S]*?" ++ bq3, "g"));
    ("frontmatter", ("^---\n[\s\S]*?\n---", "m")) ].

(** Property names every object inherits: [in] answers true for them. *)
Definition inherited_keys : list string :=
  [ "constructor"; "toString"; "toLocaleString"; "valueOf"; "hasOwnProperty";
    "isPrototypeOf"; "propertyIsEnumerable"; "__proto__"; "__defineGetter__";
    "__defineSetter__"; "__lookupGetter__"; "__lookupSetter__" ].

Fixpoint assoc {A} (k : string) (l : list (string * A)) : option A :=
  match l with
  | [] => None
  | (k', v) :: r => if String.eqb k k' then Some v else assoc k r
  end.

Definition isPresetPattern (pattern : string) : bool :=
  match assoc pattern PRESET_PATTERNS with
  | Some _ => true
  | None => existsb (String.eqb pattern) inherited_keys
  end.

(** An absent source or absent flags give the empty expression. *)
Definition buildPresetPattern (preset : string) : outcome RegExp.regexp :=
  let '(pattern, fl) :=
    match assoc preset PRESET_PATTERNS with
    | Some pf => pf
    | None => ("(?:)", "")
    end in
  match RegExp.compile pattern fl with
  | Some rx => Returned rx
  | None => Thrown SyntaxError
  end.

Fixpoint escapeRegex (str : string) : string :=
  match str with
  | EmptyString => EmptyString
  | String c r =>
      if RegExp.is_syntax_char c
      then String "\" (String c (escapeRegex r))
      else String c (escapeRegex r)
  end.

Definition is_blank (c : ascii) : bool :=
  (Ascii.eqb c " " || Ascii.eqb c RegExp.tab)%bool.

(** [replace(/[ \t]+/g, ' ')] *)
Fixpoint collapse_blanks (s : string) : string :=
  match s with
  | EmptyString => EmptyString
  | String c r =>
      if is_blank c then
        match r with
        | String d _ =>
            if is_blank d then collapse_blanks r
            else String " " (collapse_blanks r)
        | EmptyString => String " " EmptyString
        end
      else String c (collapse_blanks r)
  end.

Definition lf : string := String JS.nl EmptyString.
Definition crlf : string := String RegExp.cr lf.

Definition normalizeWhitespace (str : string) : string :=
  JS.trim
    (JS.replace_lit (" " ++ lf) lf
       (JS.replace_lit (lf ++ " ") lf
          (collapse_blanks (JS.replace_lit crlf lf str)))).

Record options := mkOptions {
  multiline : bool;
  caseInsensitive : bool;
  wholeWord : bool;
  maxMatches : option nat
}.

Definition no_options : options := mkOptions false false false None.

Definition with_maxMatches (o : options) (n : nat) : options :=
  mkOptions (multiline o) (caseInsensitive o) (wholeWord o) (Some n).

Definition pattern_source (pattern mode : string) : option string :=
  if String.eqb mode "literal" then Some (escapeRegex pattern)
  else if String.eqb mode "regex" then Some pattern
  else if String.eqb mode "fuzzy" then
    let normalized := normalizeWhitespace pattern in
    Some (JS.replace_char JS.nl "\s*\n\s*"
            (JS.replace_char " " "\s+" (escapeRegex normalized)))
  else None.

Definition pattern_flags (o : options) : string :=
  "g" ++ (if multiline o then "s" else "")
      ++ (if caseInsensitive o then "i" else "").

(** A [source] left undefined by an unknown mode is the empty
    expression, or the text [undefined] between word boundaries. *)
Definition buildPattern (pattern mode : string) (o : options)
  : outcome RegExp.regexp :=
  let source := pattern_source pattern mode in
  let source :=
    if wholeWord o then
      "\b" ++ match source with Some s => s | None => "undefined" end ++ "\b"
    else match source with Some s => s | None => "(?:)" end in
  match RegExp.compile source (pattern_flags o) with
  | Some rx => Returned rx
  | None => Thrown SyntaxError
  end.

Record match_ := mkMatch {
  index : nat;
  text : string;
  line : nat;
  column : nat
}.

Definition last_length (l : list string) : nat :=
  match rev l with
  | x :: _ => String.length x
  | [] => 0
  end.

Definition located (content : string) (index end_ : nat) : match_ :=
  let beforeMatch := JS.take index content in
  let lines := JS.split_lines beforeMatch in
  mkMatch index (JS.substring content index end_)
          (List.length lines) (last_length lines + 1).

(** The scanning loop shared by [findMatches] and [findPresetMatches]:
    [remaining] is [maxMatches - matches.length]. *)
Fixpoint scan (rx : RegExp.regexp) (content : string) (remaining lastIndex : nat)
  : list match_ :=
  match remaining with
  | O => []
  | S remaining' =>
      match RegExp.exec rx content lastIndex with
      | None => []
      | Some (index, end_) =>
          let lastIndex1 :=
            if RegExp.global (RegExp.rflags rx) then end_ else lastIndex in
          let lastIndex2 :=
            if index =? lastIndex1 then S lastIndex1 else lastIndex1 in
          located content index end_ :: scan rx content remaining' lastIndex2
      end
  end.

(** The same loop over any [exec]: [exec lastIndex] is what
    [regex.exec(content)] answers when [regex.lastIndex] is [lastIndex],
    the index of the match and its end; [global] tells whether the
    expression has the [g] flag, under which [exec] leaves [lastIndex]
    at the end of the match. *)
Fixpoint scan_with (exec : nat -> option (nat * nat)) (global : bool)
  (content : string) (remaining lastIndex : nat) : list match_ :=
  match remaining with
  | O => []
  | S remaining' =>
      match exec lastIndex with
      | None => []
      | Some (index, end_) =>
          let lastIndex1 := if global then end_ else lastIndex in
          let lastIndex2 :=
            if index =? lastIndex1 then S lastIndex1 else lastIndex1 in
          located content index end_
            :: scan_with exec global content remaining' lastIndex2
      end
  end.

Definition default (d : nat) (o : option nat) : nat :=
  match o with Some n => n | None => d end.

Definition findMatches (content pattern mode : string) (o : options)
  : outcome (list match_) :=
  match buildPattern pattern mode o with
  | Thrown e => Thrown e
  | Returned regex =>
      Returned (scan regex content (default 1000 (maxMatches o)) 0)
  end.

Inductive unique_result :=
| NotFound
| Multiple (count : nat) (lines : list nat)
| Unique (m : match_).

Definition findUniqueMatch (content pattern mode : string) (o : options)
  : outcome unique_result :=
  match findMatches content pattern mode (with_maxMatches o 10) with
  | Thrown e => Thrown e
  | Returned matches =>
      Returned
        match matches with
        | [] => NotFound
        | [m] => Unique m
        | _ => Multiple (List.length matches) (map line matches)
        end
  end.

(** [content.indexOf('\n', position)]: the first line feed at or after
    the position, or -1. *)
Fixpoint first_nl (s : string) (i : Z) : Z :=
  match s with
  | EmptyString => (-1)%Z
  | String c r => if JS.is_nl c then i else first_nl r (i + 1)%Z
  end.

Definition indexOf_nl (content : string) (position : Z) : Z :=
  let len := Z.of_nat (String.length content) in
  let start := Z.min (Z.max position 0) len in
  first_nl (JS.drop (Z.to_nat start) content) start.

(** [content.lastIndexOf('\n', position)]: the last line feed at or
    before the position, or -1; a negative position counts as 0. *)
Fixpoint last_nl (s : string) (i found : Z) : Z :=
  match s with
  | EmptyString => found
  | String c r => last_nl r (i + 1)%Z (if JS.is_nl c then i else found)
  end.

Definition lastIndexOf_nl (content : string) (position : Z) : Z :=
  let len := Z.of_nat (String.length content) in
  let start := Z.min (Z.max position 0) (len - 1) in
  last_nl (JS.take (Z.to_nat (start + 1)) content) 0 (-1).

Definition getLineBounds (content : string) (index : Z) : Z * Z :=
  let lineStart := (lastIndexOf_nl content (index - 1) + 1)%Z in
  let lineEnd := indexOf_nl content index in
  let lineEnd :=
    if (lineEnd =? -1)%Z then Z.of_nat (String.length content) else lineEnd in
  (lineStart, lineEnd).

(** [content.slice(0, index)] on strings. *)
Definition slice_to (content : string) (index : Z) : string :=
  JS.take (Z.to_nat (JS.slice_index (Z.of_nat (String.length content)) index)) content.

Definition getLineNumber (content : string) (index : Z) : nat :=
  List.length (JS.split_lines (slice_to content index)).

Definition findPresetMatches (content preset : string) (maxMatches : option nat)
  : outcome (list match_) :=
  match buildPresetPattern preset with
  | Thrown e => Thrown e
  | Returned regex => Returned (scan regex content (default 1000 maxMatches) 0)
  end.

Record replace_result := mkReplace {
  newContent : string;
  count : nat;
  affectedLines : list nat
}.

Fixpoint insert_sorted (n : nat) (l : list nat) : list nat :=
  match l with
  | [] => [n]
  | x :: r => if n <=? x then n :: l else x :: insert_sorted n r
  end.

(** A [Set] of line numbers, listed in increasing order. *)
Definition add_line (n : nat) (l : list nat) : list nat :=
  if existsb (Nat.eqb n) l then l else insert_sorted n l.

Definition splice (content : string) (m : match_) (replacement : string) : string :=
  JS.take (index m) content ++ replacement
    ++ JS.drop (index m + String.length (text m)) content.

Definition replaceAllMatches (content pattern replacement mode : string) (o : options)
  : outcome replace_result :=
  match findMatches content pattern mode (with_maxMatches o 10000) with
  | Thrown e => Thrown e
  | Returned matches =>
      Returned
        match matches with
        | [] => mkReplace content 0 []
        | _ =>
            let '(newContent, affected) :=
              fold_left
                (fun acc m => (splice (fst acc) m replacement, add_line (line m) (snd acc)))
                (rev matches) (content, []) in
            mkReplace newContent (List.length matches) affected
        end
  end.

End Patterns.

(** ** diff.js *)

Module Diff.

Local Open Scope Z_scope.

(** [lines[k]]: [None] is [undefined]. *)
Definition at_ (lines : list string) (k : Z) : option string :=
  if k <? 0 then None else nth_error lines (Z.to_nat k).

Definition same (a b : option string) : bool :=
  match a, b with
  | Some x, Some y => String.eqb x y
  | None, None => true
  | _, _ => false
  end.

Definition len (lines : list string) : Z := Z.of_nat (List.length lines).

(** [oldLines[k]] for [from <= k < to], each behind [prefix]. *)
Definition emit (prefix : string) (lines : list string) (from to : Z) : list string :=
  map (fun k =>
         (prefix ++ match at_ lines (from + Z.of_nat k) with
                    | Some l => l
                    | None => "undefined"
                    end)%string)
      (List.seq 0 (Z.to_nat (to - from))).

(** The first inner loop: step over lines the two sides share. *)
Fixpoint skip_equal (fuel : nat) (oldLines newLines : list string) (i j : Z) : Z * Z :=
  match fuel with
  | O => (i, j)
  | S fuel' =>
      if (i <? len oldLines) && (j <? len newLines)
         && same (at_ oldLines i) (at_ newLines j)
      then skip_equal fuel' oldLines newLines (i + 1) (j + 1)
      else (i, j)
  end.

(** The second inner loop: extend the hunk until three shared lines in
    a row are seen or both sides are exhausted. *)
Fixpoint extend (fuel : nat) (oldLines newLines : list string)
  (oldEnd newEnd contextAfter : Z) : Z * Z * Z :=
  match fuel with
  | O => (oldEnd, newEnd, contextAfter)
  | S fuel' =>
      if (oldEnd <? len oldLines) || (newEnd <? len newLines) then
        if (oldEnd <? len oldLines) && (newEnd <? len newLines)
           && same (at_ oldLines oldEnd) (at_ newLines newEnd)
        then
          let contextAfter := contextAfter + 1 in
          if contextAfter >=? 3 then (oldEnd, newEnd, contextAfter)
          else extend fuel' oldLines newLines (oldEnd + 1) (newEnd + 1) contextAfter
        else
          let oldEnd1 :=
            if (oldEnd <? len oldLines)
               && ((newEnd >=? len newLines)
                   || negb (same (at_ oldLines oldEnd) (at_ newLines newEnd)))
            then oldEnd + 1 else oldEnd in
          let newEnd1 :=
            if (newEnd <? len newLines)
               && ((oldEnd1 >=? len oldLines)
                   || negb (same (at_ oldLines (oldEnd1 - 1)) (at_ newLines newEnd)))
            then newEnd + 1 else newEnd in
          extend fuel' oldLines newLines oldEnd1 newEnd1 0
      else (oldEnd, newEnd, contextAfter)
  end.

Record hunk := mkHunk {
  oldStart : Z;
  oldLength : Z;
  newStart : Z;
  newLength : Z;
  hunkLines : list string
}.

Definition context_after (oldLines : list string) (oldEnd contextAfter : Z)
  : list string :=
  let from := oldEnd - contextAfter in
  emit " " oldLines from (Z.min (from + contextAfter) (len oldLines)).

Fixpoint hunks_loop (fuel : nat) (oldLines newLines : list string) (i j : Z)
  : list hunk :=
  match fuel with
  | O => []
  | S fuel' =>
      if (i <? len oldLines) || (j <? len newLines) then
        let n := List.length oldLines in
        let '(i, j) := skip_equal (S n) oldLines newLines i j in
        if (i >=? len oldLines) && (j >=? len newLines) then []
        else
          let hunkStartOld := Z.max 0 (i - 3) in
          let hunkStartNew := Z.max 0 (j - 3) in
          let '(oldEnd, newEnd, contextAfter) :=
            extend (S (n + List.length newLines)) oldLines newLines i j 0 in
          let hunkLines :=
            (emit " " oldLines hunkStartOld i
             ++ emit "-" oldLines i (oldEnd - contextAfter)
             ++ emit "+" newLines j (newEnd - contextAfter)
             ++ context_after oldLines oldEnd contextAfter)%list in
          let rest := hunks_loop fuel' oldLines newLines oldEnd newEnd in
          match hunkLines with
          | [] => rest
          | _ =>
              mkHunk (hunkStartOld + 1) (oldEnd - hunkStartOld)
                     (hunkStartNew + 1) (newEnd - hunkStartNew) hunkLines :: rest
          end
      else []
  end.

Definition generateHunks (oldContent newContent : string) : list hunk :=
  let oldLines := JS.split_lines oldContent in
  let newLines := JS.split_lines newContent in
  hunks_loop (S (List.length oldLines + List.length newLines)) oldLines newLines 0 0.

Definition render_hunk (h : hunk) : string :=
  ("@@ -" ++ JS.Z_to_string (oldStart h) ++ "," ++ JS.Z_to_string (oldLength h)
   ++ " +" ++ JS.Z_to_string (newStart h) ++ "," ++ JS.Z_to_string (newLength h)
   ++ " @@" ++ Patterns.lf ++ JS.join_lines (hunkLines h))%string.

Definition generateDiff (oldContent newContent filename : string) : string :=
  match generateHunks oldContent newContent with
  | [] => "(no changes)"
  | hunks =>
      ("--- a/" ++ filename ++ Patterns.lf ++ "+++ b/" ++ filename ++ Patterns.lf
       ++ JS.join_lines (map render_hunk hunks))%string
  end.

Definition countDiffLines (diff : string) : nat * nat :=
  let lines := JS.split_lines diff in
  let added :=
    List.length (filter (fun l => JS.startsWith l "+" && negb (JS.startsWith l "+++")) lines) in
  let removed :=
    List.length (filter (fun l => JS.startsWith l "-" && negb (JS.startsWith l "---")) lines) in
  (added, removed).

(** *** Reading a hunk back

    What it means to apply the hunks of a unified diff: lines before a
    hunk are copied, a context line and a removed line must be the next
    line of the old text, an added line goes to the output. *)

Fixpoint apply_lines (hl : list string) (old : list string)
  : option (list string * list string) :=
  match hl with
  | [] => Some ([], old)
  | String tag body :: hl' =>
      if Ascii.eqb tag "+" then
        match apply_lines hl' old with
        | Some (out, rest) => Some (body :: out, rest)
        | None => None
        end
      else
        match old with
        | o :: old' =>
            if String.eqb o body then
              match apply_lines hl' old' with
              | Some (out, rest) =>
                  Some (if Ascii.eqb tag " " then body :: out else out, rest)
              | None => None
              end
            else None
        | [] => None
        end
  | EmptyString :: _ => None
  end.

(** [consumed] counts the old lines already read. *)
Fixpoint apply_hunks (hunks : list hunk) (consumed : Z) (old : list string)
  : option (list string) :=
  match hunks with
  | [] => Some old
  | h :: hs =>
      let skip := oldStart h - 1 - consumed in
      if (skip <? 0) || (len old <? skip) then None
      else
        let kept := firstn (Z.to_nat skip) old in
        match apply_lines (hunkLines h) (skipn (Z.to_nat skip) old) with
        | Some (out, rest) =>
            match apply_hunks hs (len old - len rest + consumed) rest with
            | Some tail => Some (kept ++ out ++ tail)%list
            | None => None
            end
        | None => None
        end
  end.

Definition applyDiff (oldContent newContent : string) : option string :=
  match apply_hunks (generateHunks oldContent newContent) 0
          (JS.split_lines oldContent) with
  | Some lines => Some (JS.join_lines lines)
  | None => None
  end.

End Diff.

(** ** filetypes.js *)

Module FileTypes.

Definition TYPE_MAP : list (string * list string) :=
  [ ("ts", [".ts"; ".tsx"; ".mts"; ".cts"]);
    ("js", [".js"; ".jsx"; ".mjs"; ".cjs"]);
    ("py", [".py"; ".pyw"; ".pyi"]);
    ("rs", [".rs"]);
    ("go", [".go"]);
    ("java", [".java"]);
    ("c", [".c"; ".h"]);
    ("cpp", [".cpp"; ".cc"; ".cxx"; ".hpp"; ".hh"; ".hxx"]);
    ("cs", [".cs"]);
    ("rb", [".rb"]);
    ("php", [".php"]);
    ("swift", [".swift"]);
    ("kt", [".kt"; ".kts"]);
    ("scala", [".scala"]);
    ("r", [".r"; ".R"]);
    ("lua", [".lua"]);
    ("perl", [".pl"; ".pm"]);
    ("sh", [".sh"; ".bash"; ".zsh"]);
    ("md", [".md"; ".markdown"; ".mdx"]);
    ("html", [".html"; ".htm"]);
    ("css", [".css"]);
    ("scss", [".scss"; ".sass"]);
    ("less", [".less"]);
    ("json", [".json"; ".jsonc"]);
    ("yaml", [".yaml"; ".yml"]);
    ("xml", [".xml"]);
    ("toml", [".toml"]);
    ("ini", [".ini"; ".cfg"]);
    ("config", [".config"; ".conf"; ".cfg"; ".ini"; ".env"]);
    ("docker", ["Dockerfile"; ".dockerignore"; "docker-compose.yml"; "docker-compose.yaml"]);
    ("doc", [".md"; ".markdown"; ".txt"; ".rst"; ".adoc"]);
    ("text", [".txt"; ".text"]);
    ("test", [".test.ts"; ".test.js"; ".spec.ts"; ".spec.js"; "_test.go"; "_test.py"]) ].

Definition TEXT_EXTENSIONS : list string :=
  [ ".md"; ".markdown"; ".mdx"; ".txt"; ".text"; ".rst"; ".adoc";
    ".ts"; ".tsx"; ".mts"; ".cts"; ".js"; ".jsx"; ".mjs"; ".cjs";
    ".py"; ".pyw"; ".pyi"; ".rs"; ".go"; ".java";
    ".c"; ".h"; ".cpp"; ".cc"; ".cxx"; ".hpp"; ".hh"; ".hxx";
    ".cs"; ".rb"; ".php"; ".swift"; ".kt"; ".kts"; ".scala";
    ".r"; ".R"; ".lua"; ".pl"; ".pm"; ".sh"; ".bash"; ".zsh";
    ".html"; ".htm"; ".css"; ".scss"; ".sass"; ".less";
    ".json"; ".jsonc"; ".yaml"; ".yml"; ".xml"; ".toml"; ".ini"; ".cfg"; ".env";
    ".gitignore"; ".ignore"; ".editorconfig"; ".sql"; ".graphql"; ".gql" ].

Definition mem (x : string) (l : list string) : bool := existsb (String.eqb x) l.

Definition isTextFile (filepath : string) : bool :=
  let ext := JS.toLowerCase (NodePath.extname filepath) in
  let basename := NodePath.basename filepath in
  if mem ext TEXT_EXTENSIONS then true
  else if mem basename
            ["Makefile"; "Dockerfile"; "Jenkinsfile"; "Vagrantfile"; "LICENSE";
             "README"; "CHANGELOG"]
  then true
  else if (JS.startsWith basename "." && String.eqb ext "")%bool then true
  else false.

Definition getExtensionsForType (type : string) : option (list string) :=
  Patterns.assoc (JS.toLowerCase type) TYPE_MAP.

Definition endsWith (s suffix : string) : bool :=
  let n := String.length s in
  let k := String.length suffix in
  (k <=? n) && String.eqb (JS.drop (n - k) s) suffix.

Fixpoint matchesType (filepath : string) (types : list string) : bool :=
  match types with
  | [] => false
  | type :: rest =>
      match getExtensionsForType type with
      | Some extensions =>
          if existsb (endsWith filepath) extensions then true
          else matchesType filepath rest
      | None =>
          if (endsWith filepath type || endsWith filepath ("." ++ type))%bool then true
          else matchesType filepath rest
      end
  end.

Definition matchesGlob (filepath pattern : string) : outcome bool :=
  let regex :=
    JS.replace_char "?" "."
      (JS.replace_lit "<<<GLOBSTAR>>>" ".*"
         (JS.replace_char "*" "[^/]*"
            (JS.replace_lit "**" "<<<GLOBSTAR>>>"
               (JS.replace_char "." "\." pattern)))) in
  match RegExp.compile ("^" ++ regex ++ "$") "" with
  | Some rx => Returned (RegExp.test rx filepath)
  | None => Thrown SyntaxError
  end.

Fixpoint shouldExclude (filepath : string) (excludePatterns : list string)
  : outcome bool :=
  match excludePatterns with
  | [] => Returned false
  | pattern :: rest =>
      match matchesGlob filepath pattern with
      | Thrown e => Thrown e
      | Returned true => Returned true
      | Returned false => shouldExclude filepath rest
      end
  end.

End FileTypes.

(** ** The file system behind [node:fs/promises]

    A tree of directories and files rooted at [/].  A file may be
    unreadable to the process; an entry is addressed by the segments of
    its absolute path, which the tools always pass normalised (no [.]
    or [..] segment is interpreted here).  [readdir] lists a directory
    in the order its entries are stored in. *)

Module FS.

#[local] Unset Elimination Schemes.
Inductive node :=
| File (readable : bool) (content : string)
| Dir (entries : list (string * node)).
#[local] Set Elimination Schemes.

Definition fs := node.

Definition segments (absPath : string) : list string :=
  filter (fun s => negb (String.eqb s "")) (JS.split_by NodePath.is_slash absPath).

Fixpoint find_entry (name : string) (entries : list (string * node)) : option node :=
  match entries with
  | [] => None
  | (n, x) :: r => if String.eqb n name then Some x else find_entry name r
  end.

Fixpoint set_entry (name : string) (x : node) (entries : list (string * node))
  : list (string * node) :=
  match entries with
  | [] => [(name, x)]
  | (n, y) :: r =>
      if String.eqb n name then (n, x) :: r else (n, y) :: set_entry name x r
  end.

Fixpoint remove_entry (name : string) (entries : list (string * node))
  : list (string * node) :=
  match entries with
  | [] => []
  | (n, y) :: r =>
      if String.eqb n name then r else (n, y) :: remove_entry name r
  end.

Fixpoint lookup_segments (n : node) (segs : list string) : option node :=
  match segs with
  | [] => Some n
  | s :: r =>
      match n with
      | Dir entries =>
          match find_entry s entries with
          | Some c => lookup_segments c r
          | None => None
          end
      | File _ _ => None
      end
  end.

Definition lookup (f : fs) (absPath : string) : option node :=
  lookup_segments f (segments absPath).

(** Rewrite the entry at [segs] with [change], which sees the entry
    found there, if any, and answers an error code, a new entry, or
    [None] to remove it. *)
Fixpoint alter (n : node) (segs : list string)
  (change : option node -> string + option node) : string + node :=
  match segs with
  | [] =>
      match change (Some n) with
      | inl e => inl e
      | inr (Some n') => inr n'
      | inr None => inl "EBUSY"
      end
  | s :: r =>
      match n with
      | File _ _ => inl "ENOTDIR"
      | Dir entries =>
          match r, find_entry s entries with
          | [], found =>
              match change found with
              | inl e => inl e
              | inr (Some x) => inr (Dir (set_entry s x entries))
              | inr None => inr (Dir (remove_entry s entries))
              end
          | _ :: _, Some c =>
              match alter c r change with
              | inl e => inl e
              | inr c' => inr (Dir (set_entry s c' entries))
              end
          | _ :: _, None => inl "ENOENT"
          end
      end
  end.

Inductive stats := IsFile (size : nat) | IsDirectory.

(** *** What a call observes *)

Definition access_of (f : fs) (absPath : string) : outcome unit :=
  match lookup f absPath with
  | Some _ => Returned tt
  | None => Thrown (FsError "ENOENT")
  end.

Definition stat_of (f : fs) (absPath : string) : outcome stats :=
  match lookup f absPath with
  | Some (File _ content) => Returned (IsFile (List.length (Checksum.utf8 content)))
  | Some (Dir _) => Returned IsDirectory
  | None => Thrown (FsError "ENOENT")
  end.

Definition readdir_of (f : fs) (absPath : string) : outcome (list string) :=
  match lookup f absPath with
  | Some (Dir entries) => Returned (map fst entries)
  | Some (File _ _) => Thrown (FsError "ENOTDIR")
  | None => Thrown (FsError "ENOENT")
  end.

Definition readFile_of (f : fs) (absPath : string) : outcome string :=
  match lookup f absPath with
  | Some (File true content) => Returned content
  | Some (File false _) => Thrown (FsError "EACCES")
  | Some (Dir _) => Thrown (FsError "EISDIR")
  | None => Thrown (FsError "ENOENT")
  end.

(** *** Computations over the file system that may raise *)

Definition M (A : Type) : Type := fs -> outcome A * fs.

Definition ret {A} (a : A) : M A := fun f => (Returned a, f).
Definition throw {A} (e : exn) : M A := fun f => (Thrown e, f).
Definition bind {A B} (m : M A) (k : A -> M B) : M B :=
  fun f =>
    match m f with
    | (Returned a, f') => k a f'
    | (Thrown e, f') => (Thrown e, f')
    end.
Definition try_catch {A} (m : M A) (handler : exn -> M A) : M A :=
  fun f =>
    match m f with
    | (Returned a, f') => (Returned a, f')
    | (Thrown e, f') => handler e f'
    end.
Definition observe {A} (o : fs -> outcome A) : M A := fun f => (o f, f).

(** [fs.access(p)], [fs.stat(p)], [fs.readdir(p)], [fs.readFile(p, 'utf8')] *)
Definition access (absPath : string) : M unit := observe (fun f => access_of f absPath).
Definition stat (absPath : string) : M stats := observe (fun f => stat_of f absPath).
Definition readdir (absPath : string) : M (list string) :=
  observe (fun f => readdir_of f absPath).
Definition readFile (absPath : string) : M string :=
  observe (fun f => readFile_of f absPath).

(** [fs.writeFile(p, content, 'utf8')] *)
Definition writeFile (absPath content : string) : M unit :=
  fun f =>
    match alter f (segments absPath)
            (fun found =>
               match found with
               | Some (Dir _) => inl "EISDIR"
               | Some (File r _) => inr (Some (File r content))
               | None => inr (Some (File true content))
               end) with
    | inl e => (Thrown (FsError e), f)
    | inr f' => (Returned tt, f')
    end.

(** [fs.unlink(p)] *)
Definition unlink (absPath : string) : M unit :=
  fun f =>
    match alter f (segments absPath)
            (fun found =>
               match found with
               | Some (Dir _) => inl "EISDIR"
               | Some (File _ _) => inr None
               | None => inl "ENOENT"
               end) with
    | inl e => (Thrown (FsError e), f)
    | inr f' => (Returned tt, f')
    end.

(** [fs.mkdir(p, { recursive: true })] *)
Fixpoint mkdirs (n : node) (segs : list string) : string + node :=
  match segs with
  | [] =>
      match n with
      | Dir _ => inr n
      | File _ _ => inl "EEXIST"
      end
  | s :: r =>
      match n with
      | File _ _ => inl "ENOTDIR"
      | Dir entries =>
          let child :=
            match find_entry s entries with
            | Some c => c
            | None => Dir []
            end in
          match mkdirs child r with
          | inl e => inl e
          | inr c' => inr (Dir (set_entry s c' entries))
          end
      end
  end.

Definition mkdir_recursive (absPath : string) : M unit :=
  fun f =>
    match mkdirs f (segments absPath) with
    | inl e => (Thrown (FsError e), f)
    | inr f' => (Returned tt, f')
    end.

End FS.

Notation "x <- c1 ;; c2" := (FS.bind c1 (fun x => c2))
  (at level 61, c1 at next level, right associativity).
Notation "c1 ;;; c2" := (FS.bind c1 (fun _ => c2))
  (at level 61, right associativity).

(** ** ignore.js *)

Module Ignore.

Definition DEFAULT_IGNORE : list string :=
  [ ".*"; "node_modules"; "Thumbs.db"; "*.swp"; "*.swo"; "*~" ].

Definition parseIgnorePatterns (content : string) : list string :=
  filter (fun line => negb (String.eqb line "") && negb (JS.startsWith line "#"))
    (map JS.trim (JS.split_lines content)).

(** The source text of the expression built for a glob. *)
Definition globToRegexSource (pattern : string) : string :=
  let regex :=
    JS.replace_char "?" "[^/]"
      (JS.replace_lit "<<<GLOBSTAR>>>" ".*"
         (JS.replace_char "*" "[^/]*"
            (JS.replace_lit "**" "<<<GLOBSTAR>>>"
               (JS.replace_char "." "\." pattern)))) in
  if JS.endsWith_char pattern "/"
  then JS.take (String.length regex - 2) regex ++ "(/.*)?$"
  else "(^|/)" ++ regex ++ "(/.*)?$".

Definition globToRegex (pattern : string) : outcome RegExp.regexp :=
  match RegExp.compile (globToRegexSource pattern) "" with
  | Some rx => Returned rx
  | None => Thrown SyntaxError
  end.

Record rule := mkRule {
  pattern : string;
  regex : RegExp.regexp;
  negated : bool
}.

Definition matcher := list rule.

Fixpoint compile_rules (allPatterns : list string) : outcome matcher :=
  match allPatterns with
  | [] => Returned []
  | p :: rest =>
      match globToRegex p with
      | Thrown e => Thrown e
      | Returned rx =>
          match compile_rules rest with
          | Thrown e => Thrown e
          | Returned rules => Returned (mkRule p rx (JS.startsWith p "!") :: rules)
          end
      end
  end.

Definition createIgnoreMatcher (patterns : list string) : outcome matcher :=
  compile_rules (DEFAULT_IGNORE ++ patterns)%list.

Definition isIgnored (regexes : matcher) (relativePath : string) : bool :=
  fold_left
    (fun ignored r =>
       if RegExp.test (regex r) relativePath then negb (negated r) else ignored)
    regexes false.

Section Loading.
Variable f : FS.fs.

Definition load_one (dir filename : string) : list string :=
  match FS.readFile_of f (NodePath.join dir filename) with
  | Returned content => parseIgnorePatterns content
  | Thrown _ => []
  end.

Definition loadIgnorePatterns (dir : string) : list string :=
  (load_one dir ".gitignore" ++ load_one dir ".ignore")%list.

Definition createIgnoreMatcherForDir (dir : string) : outcome matcher :=
  createIgnoreMatcher (loadIgnorePatterns dir).
End Loading.

End Ignore.

(** ** file-search.js *)

Module FileSearch.

Local Open Scope Z_scope.

Definition ALWAYS_EXCLUDE : list string :=
  [ ".git"; "node_modules"; ".svelte-kit"; ".next"; ".nuxt";
    "__pycache__"; "target"; "dist"; ".agent-data" ].

(** The greedy left-to-right scan of [fuzzyMatch]: [i] is the index of
    the head of [target]; the result is the matched indices and what is
    left of the query. *)
Fixpoint scan_indices (query target : list ascii) (i : nat) : list nat * list ascii :=
  match query, target with
  | [], _ => ([], [])
  | _, [] => ([], query)
  | q :: query', t :: target' =>
      if Ascii.eqb t q then
        let '(indices, rest) := scan_indices query' target' (S i) in
        (i :: indices, rest)
      else scan_indices query target' (S i)
  end.

Definition is_boundary (targetLower : list ascii) (idx : nat) : bool :=
  match idx with
  | O => true
  | S p =>
      match nth_error targetLower p with
      | Some c => (Ascii.eqb c "/" || Ascii.eqb c "_" || Ascii.eqb c "-")%bool
      | None => false
      end
  end.

Fixpoint score_indices (targetLower : list ascii) (prev : option nat)
  (indices : list nat) : Z :=
  match indices with
  | [] => 0
  | idx :: rest =>
      (match prev with
       | Some p => if (S p =? idx)%nat then 10 else 0
       | None => 0
       end)
      + (if is_boundary targetLower idx then 5 else 0)
      + score_indices targetLower (Some idx) rest
  end.

Record fuzzy := mkFuzzy {
  fscore : Z;
  findices : list nat
}.

Definition path_depth (p : string) : Z :=
  Z.of_nat (List.length (JS.split_by NodePath.is_slash p)).

Definition fuzzyMatch (query target : string) : option fuzzy :=
  let queryLower := list_ascii_of_string (JS.toLowerCase query) in
  let targetLower := list_ascii_of_string (JS.toLowerCase target) in
  match scan_indices queryLower targetLower 0 with
  | (indices, []) =>
      let score := score_indices targetLower None indices in
      let score := score - path_depth target * 2 in
      Some (mkFuzzy score indices)
  | (_, _ :: _) => None
  end.

Record entry := mkEntry {
  relativePath : string;
  fileName : string;
  isDirectory : bool;
  extension : string
}.

Record scored := mkScored {
  sentry : entry;
  absolutePath : string;
  score : Z;
  matchIndices : list nat
}.

Record search_options := mkSearchOptions {
  maxResults : option nat;
  includeDirectories : option bool;
  respectIgnore : option bool;
  exclude : option (list string);
  maxDepth : option Z
}.

Definition no_search_options : search_options :=
  mkSearchOptions None None None None None.

Definition opt {A} (d : A) (o : option A) : A :=
  match o with Some a => a | None => d end.

(** [scored.sort((a, b) => b.score - a.score)]: stable, best first. *)
Fixpoint insert_scored (x : scored) (l : list scored) : list scored :=
  match l with
  | [] => [x]
  | y :: r => if score y >=? score x then y :: insert_scored x r else x :: l
  end.

Definition sort_scored (l : list scored) : list scored :=
  fold_left (fun acc x => insert_scored x acc) l [].

Definition score_entry (root queryLower : string) (e : entry) : option scored :=
  let absolutePath := NodePath.join root (relativePath e) in
  if String.eqb queryLower "" then
    Some (mkScored e absolutePath (100 - path_depth (relativePath e) * 10) [])
  else
    let nameMatch := fuzzyMatch queryLower (fileName e) in
    let pathMatch := fuzzyMatch queryLower (relativePath e) in
    match nameMatch, pathMatch with
    | None, None => None
    | _, _ =>
        let score :=
          match nameMatch with Some m => fscore m | None => -1000 end * 2
          + match pathMatch with Some m => fscore m | None => 0 end in
        Some (mkScored e absolutePath score
                match nameMatch, pathMatch with
                | Some m, _ => findices m
                | None, Some m => findices m
                | None, None => []
                end)
    end.

Fixpoint filter_map {A B} (g : A -> option B) (l : list A) : list B :=
  match l with
  | [] => []
  | a :: r =>
      match g a with
      | Some b => b :: filter_map g r
      | None => filter_map g r
      end
  end.

Record resolution := mkResolution {
  resolved : bool;
  resolvedPath : option string;
  candidates : list string;
  ambiguous : bool
}.

Section OnFileSystem.
(** The search only reads the file system. *)
Variable f : FS.fs.

Section Walk.
Variable ignoreMatcher : option Ignore.matcher.
Variable excl : list string.
Variable incDirs : bool.

(** [walk(dir, relDir, currentDepth)] with the shared [entries]
    array threaded through and returned even when the walk raises;
    [levels] is [maxDepth + 1 - currentDepth], so that 0 is the guard
    [currentDepth > maxDepth]. *)
Fixpoint walk (levels : nat) (dir relDir : string) (entries : list entry)
  {struct levels} : list entry * option exn :=
  match levels with
  | O => (entries, None)
  | S levels' =>
      match FS.readdir_of f dir with
      | Thrown _ => (entries, None)
      | Returned items =>
          (fix each (items : list string) (entries : list entry)
             : list entry * option exn :=
             match items with
             | [] => (entries, None)
             | item :: rest =>
                 if JS.startsWith item "." then each rest entries
                 else if FileTypes.mem item ALWAYS_EXCLUDE then each rest entries
                 else
                   let itemPath := NodePath.join dir item in
                   let itemRelPath :=
                     if String.eqb relDir "" then item
                     else JS.replace_char "\" "/" (NodePath.join relDir item) in
                   if match ignoreMatcher with
                      | Some m => Ignore.isIgnored m itemRelPath
                      | None => false
                      end
                   then each rest entries
                   else
                     match
                       match excl with
                       | [] => Returned false
                       | _ :: _ => FileTypes.shouldExclude itemRelPath excl
                       end
                     with
                     | Thrown e => (entries, Some e)
                     | Returned true => each rest entries
                     | Returned false =>
                         match FS.stat_of f itemPath with
                         | Thrown _ => each rest entries
                         | Returned FS.IsDirectory =>
                             let entries1 :=
                               if incDirs
                               then (entries ++ [mkEntry itemRelPath item true ""])%list
                               else entries in
                             each rest
                               (fst (walk levels' itemPath itemRelPath entries1))
                         | Returned (FS.IsFile _) =>
                             each rest
                               (entries
                                ++ [mkEntry itemRelPath item false
                                      (JS.toLowerCase
                                         (JS.drop 1 (NodePath.extname item)))])%list
                         end
                     end
             end) items entries
      end
  end.
End Walk.

Definition searchFiles (root query : string) (options : search_options)
  : outcome (list scored) :=
  let maxResults := opt 50%nat (maxResults options) in
  let includeDirectories := opt false (includeDirectories options) in
  let respectIgnore := opt true (respectIgnore options) in
  let exclude := opt [] (exclude options) in
  let maxDepth := opt 10 (maxDepth options) in
  match
    (if respectIgnore then
       match Ignore.createIgnoreMatcherForDir f root with
       | Returned m => Returned (Some m)
       | Thrown e => Thrown e
       end
     else Returned None)
  with
  | Thrown e => Thrown e
  | Returned ignoreMatcher =>
      match walk ignoreMatcher exclude includeDirectories
              (Z.to_nat (maxDepth + 1)) root "" [] with
      | (_, Some e) => Thrown e
      | (entries, None) =>
          let queryLower := JS.trim (JS.toLowerCase query) in
          let scored := filter_map (score_entry root queryLower) entries in
          Returned (firstn maxResults (sort_scored scored))
      end
  end.

Definition with_maxResults (o : search_options) (n : nat) : search_options :=
  mkSearchOptions (Some n) (includeDirectories o) (respectIgnore o)
                  (exclude o) (maxDepth o).

Definition name_matches (fileNameLower : string) (e : scored) : bool :=
  negb (isDirectory (sentry e))
  && String.eqb (JS.toLowerCase (fileName (sentry e))) fileNameLower.

Definition tryAutoResolve (root relativePath : string) (options : search_options)
  : outcome resolution :=
  let fileName := NodePath.basename relativePath in
  if String.eqb fileName "" then Returned (mkResolution false None [] false)
  else
    match searchFiles root fileName (with_maxResults options 10) with
    | Thrown e => Thrown e
    | Returned results =>
        let fileNameLower := JS.toLowerCase fileName in
        let matches := filter (name_matches fileNameLower) results in
        Returned
          match matches with
          | [] => mkResolution false None [] false
          | [m] =>
              mkResolution true (Some (FileSearch.relativePath (sentry m)))
                           [FileSearch.relativePath (sentry m)] false
          | _ =>
              mkResolution false None
                (map (fun m => FileSearch.relativePath (sentry m)) matches) true
          end
    end.
End OnFileSystem.

End FileSearch.

(** ** The result envelope shared by the two tools *)

Inductive error_code :=
| INVALID_PATH | NOT_FOUND | AMBIGUOUS | NOT_TEXT | IO_ERROR | INVALID_RANGE
| OUT_OF_RANGE | PATTERN_NOT_FOUND | MULTIPLE_MATCHES | ALREADY_EXISTS
| MISSING_ACTION | MISSING_CONTENT | CHECKSUM_MISMATCH | INVALID_ACTION
| INVALID_OPERATION | INVALID_TYPE | NO_TARGET.

Record error := mkError {
  code : error_code;
  message : string
}.

(** A string argument counts as given when it is present and not empty. *)
Definition truthy (o : option string) : bool :=
  match o with
  | Some s => negb (String.eqb s "")
  | None => false
  end.

(** [e.message] of an error raised by [fs.readFile(absPath)], as Node
    words it: the code, what it means, the system call that failed and,
    for [open], the path. *)
Definition exn_message (absPath : string) (e : exn) : string :=
  match e with
  | SyntaxError => "Invalid regular expression"
  | FsError "EISDIR" => "EISDIR: illegal operation on a directory, read"
  | FsError "EACCES" => "EACCES: permission denied, open '" ++ absPath ++ "'"
  | FsError "ENOENT" => "ENOENT: no such file or directory, open '" ++ absPath ++ "'"
  | FsError c => c
  end.

(** ** fs-read.js *)

Module FsRead.

Local Open Scope Z_scope.

Record args := mkArgs {
  path : string;
  pattern : option string;
  preset : option string;
  patternMode : option string;
  find : option string;
  lines : option string;
  depth : option Z;
  context : option Z
}.

Record file_content := mkContent {
  text : string;
  checksum : string;
  totalLines : nat;
  range : option (Z * Z);
  truncated : bool
}.

Record search_context := mkContext {
  before : list string;
  match_ : list string;
  after : list string
}.

Record search_match := mkSearchMatch {
  file : string;
  line : nat;
  mtext : string;
  mcontext : search_context
}.

Inductive entry_kind :=
| KFile (size : option string)
| KDirectory (children : option nat).

Record dir_entry := mkDirEntry {
  epath : string;
  kind : entry_kind
}.

Inductive result :=
| Failure (path : string) (type : option string) (err : error)
    (hint : option string) (candidates : option (list string))
| FileResult (path : string) (content : file_content) (hint : string)
| SearchResult (path : string) (matches : list search_match) (matchCount : nat)
    (hint : string)
| DirectoryResult (path : string) (entries : list dir_entry) (summary : string)
    (truncated : option bool).

(** [result.hint = prefix + (result.hint ?? '')] *)
Definition prefix_hint (prefix : string) (r : result) : result :=
  match r with
  | Failure p t e h c =>
      Failure p t e (Some (prefix ++ match h with Some x => x | None => "" end)) c
  | FileResult p c h => FileResult p c (prefix ++ h)
  | SearchResult p m n h => SearchResult p m n (prefix ++ h)
  | DirectoryResult p e s t => DirectoryResult p e s t
  end.

(** [(x).toFixed(1)] for [x = bytes / unit], a power of two: the nearest
    tenth, the larger one on a tie. *)
Definition toFixed1 (bytes unit : Z) : string :=
  let tenths := (2 * 10 * bytes + unit) / (2 * unit) in
  (JS.Z_to_string (tenths / 10) ++ "." ++ JS.Z_to_string (tenths mod 10))%string.

Definition formatSize (bytes : Z) : string :=
  if bytes <? 1024 then (JS.Z_to_string bytes ++ "B")%string
  else if bytes <? 1024 * 1024 then (toFixed1 bytes 1024 ++ "KB")%string
  else (toFixed1 bytes (1024 * 1024) ++ "MB")%string.

Record list_options := mkListOptions {
  maxFiles : option nat;
  respectIgnore : option bool;
  exclude : option (list string);
  types : option (list string)
}.

Definition no_list_options : list_options := mkListOptions None None None None.

Record search_options := mkSearchOptions {
  so_patternMode : option string;
  so_context : option Z;
  so_depth : option Z;
  so_isPreset : bool;
  so_maxMatches : option nat;
  so_caseInsensitive : bool;
  so_respectIgnore : option bool
}.

Definition numbered (n : Z) (l : string) : string :=
  (JS.Z_to_string n ++ "|" ++ l)%string.

Fixpoint numbered_from (n : Z) (ls : list string) : list string :=
  match ls with
  | [] => []
  | l :: r => numbered n l :: numbered_from (n + 1) r
  end.

(** The entry pushed for one match, with its context lines. *)
Definition match_entry (file : string) (lines : list string) (context : Z)
  (m : Patterns.match_) : search_match :=
  let line := Z.of_nat (Patterns.line m) in
  let beforeStart := Z.max 0 (line - 1 - context) in
  let afterEnd := Z.min (Z.of_nat (List.length lines)) (line + context) in
  mkSearchMatch file (Patterns.line m) (Patterns.text m)
    (mkContext
       (numbered_from (beforeStart + 1) (JS.slice lines beforeStart (line - 1)))
       [numbered line
          match Diff.at_ lines (line - 1) with
          | Some l => l
          | None => "undefined"
          end]
       (numbered_from (line + 1) (JS.slice lines line afterEnd))).

Definition search_hint (searchPattern : string) (n : nat) : string :=
  if (n =? 0)%nat
  then ("No matches found for " ++ JS.dq ++ searchPattern ++ JS.dq)%string
  else ("Found " ++ JS.nat_to_string n ++ " matches")%string.

Section OnFileSystem.
(** Reading never changes the file system. *)
Variable cwd : string.
Variable root : string.
Variable f : FS.fs.

Section ListDirectory.
Variable ignoreMatcher : option Ignore.matcher.
Variable options : list_options.

Definition cap : nat := FileSearch.opt 500%nat (maxFiles options).

(** [walk] of [listDirectory]: the state is [entries] and
    [truncated]; [levels] is [depth + 1 - currentDepth]. *)
Fixpoint list_walk (levels : nat) (dir relDir : string)
  (st : list dir_entry * bool) {struct levels}
  : (list dir_entry * bool) * option exn :=
  let '(entries, truncated) := st in
  match levels with
  | O => ((entries, (cap <=? List.length entries)%nat), None)
  | S levels' =>
      if (cap <=? List.length entries)%nat then ((entries, true), None)
      else
        match FS.readdir_of f dir with
        | Thrown _ => (st, None)
        | Returned items =>
            (fix each (items : list string) (st : list dir_entry * bool)
               : (list dir_entry * bool) * option exn :=
               let '(entries, truncated) := st in
               match items with
               | [] => (st, None)
               | item :: rest =>
                   if (cap <=? List.length entries)%nat
                   then ((entries, true), None)
                   else
                     let itemPath := NodePath.join dir item in
                     let itemRelPath := NodePath.join relDir item in
                     if match ignoreMatcher with
                        | Some m => Ignore.isIgnored m itemRelPath
                        | None => false
                        end
                     then each rest st
                     else
                       match
                         match exclude options with
                         | Some ex => FileTypes.shouldExclude itemRelPath ex
                         | None => Returned false
                         end
                       with
                       | Thrown e => (st, Some e)
                       | Returned true => each rest st
                       | Returned false =>
                           match FS.stat_of f itemPath with
                           | Thrown _ => each rest st
                           | Returned FS.IsDirectory =>
                               let childCount :=
                                 match FS.readdir_of f itemPath with
                                 | Returned l => List.length l
                                 | Thrown _ => 0%nat
                                 end in
                               let st1 :=
                                 ((entries
                                   ++ [mkDirEntry itemRelPath
                                         (KDirectory (Some childCount))])%list,
                                  truncated) in
                               match levels' with
                               | O => each rest st1
                               | S _ =>
                                   each rest
                                     (fst (list_walk levels' itemPath itemRelPath st1))
                               end
                           | Returned (FS.IsFile size) =>
                               if match types options with
                                  | Some (t :: ts) =>
                                      negb (FileTypes.matchesType item (t :: ts))
                                  | _ => false
                                  end
                               then each rest st
                               else
                                 each rest
                                   ((entries
                                     ++ [mkDirEntry itemRelPath
                                           (KFile (Some (formatSize (Z.of_nat size))))])%list,
                                    truncated)
                           end
                       end
               end) items st
        end
  end.
End ListDirectory.

Definition listDirectory (absPath relativePath : string) (depth : Z)
  (options : list_options) : outcome (list dir_entry * bool) :=
  match
    match respectIgnore options with
    | Some false => Returned None
    | _ =>
        match Ignore.createIgnoreMatcherForDir f absPath with
        | Returned m => Returned (Some m)
        | Thrown e => Thrown e
        end
    end
  with
  | Thrown e => Thrown e
  | Returned ignoreMatcher =>
      match list_walk ignoreMatcher options (Z.to_nat depth) absPath
              (if String.eqb relativePath "." then "" else relativePath)
              ([], false) with
      | (_, Some e) => Thrown e
      | (st, None) => Returned st
      end
  end.

Definition readFile (absPath relativePath : string) (lines : option string)
  : result :=
  if negb (FileTypes.isTextFile absPath) then
    Failure relativePath (Some "file") (mkError NOT_TEXT "Cannot read binary files")
            (Some "Only text files can be read.") None
  else
    match FS.readFile_of f absPath with
    | Thrown e =>
        match e with
        | FsError "ENOENT" =>
            Failure relativePath (Some "file")
              (mkError NOT_FOUND ("File does not exist: " ++ relativePath))
              (Some "Use fs_read on parent directory to see available files.") None
        | _ =>
            Failure relativePath (Some "file")
                    (mkError IO_ERROR (exn_message absPath e))
                    None None
        end
    | Returned content =>
        let checksum := Checksum.generateChecksum content in
        let totalLines := List.length (JS.split_lines content) in
        if truthy lines then
          match Lines.parseLineRange (FileSearch.opt "" lines) with
          | None =>
              Failure relativePath (Some "file")
                (mkError INVALID_RANGE
                   ("Invalid line range: " ++ FileSearch.opt "" lines))
                None None
          | Some (start, end_) =>
              let extracted := Lines.extractLines content start end_ in
              let text :=
                Lines.addLineNumbers (Lines.text extracted)
                                     (Lines.actualStart extracted) in
              FileResult relativePath
                (mkContent text checksum totalLines
                   (Some (Lines.actualStart extracted, Lines.actualEnd extracted))
                   false)
                ("Checksum: " ++ checksum ++ " (required for fs_write)")
          end
        else
          let PREVIEW_LINES := 100 in
          if Z.of_nat totalLines >? PREVIEW_LINES then
            let extracted := Lines.extractLines content 1 PREVIEW_LINES in
            let text := Lines.addLineNumbers (Lines.text extracted) 1 in
            FileResult relativePath
              (mkContent text checksum totalLines (Some (1, PREVIEW_LINES)) true)
              ("Large file (" ++ JS.nat_to_string totalLines ++ " lines), showing 1-"
               ++ JS.Z_to_string PREVIEW_LINES ++ ". Use lines="
               ++ JS.dq ++ "101-200" ++ JS.dq ++ " for more. Checksum: " ++ checksum)
          else
            FileResult relativePath
              (mkContent (Lines.addLineNumbers content 1) checksum totalLines
                         None false)
              ("Checksum: " ++ checksum ++ " (required for fs_write)")
    end.

Definition file_matches (content searchPattern : string) (options : search_options)
  (maxMatches : nat) : outcome (list Patterns.match_) :=
  if (so_isPreset options && Patterns.isPresetPattern searchPattern)%bool
  then Patterns.findPresetMatches content searchPattern (Some maxMatches)
  else
    Patterns.findMatches content searchPattern
      (FileSearch.opt "literal" (so_patternMode options))
      (Patterns.mkOptions false (so_caseInsensitive options) false (Some maxMatches)).

Definition searchInSingleFile (absPath relativePath searchPattern : string)
  (options : search_options) : outcome result :=
  let context := FileSearch.opt 3 (so_context options) in
  let maxMatches := FileSearch.opt 100%nat (so_maxMatches options) in
  if negb (FileTypes.isTextFile absPath) then
    Returned
      (Failure relativePath (Some "search")
         (mkError NOT_TEXT "Cannot search in binary files") None None)
  else
    match FS.readFile_of f absPath with
    | Thrown e => Thrown e
    | Returned content =>
        let lines := JS.split_lines content in
        match file_matches content searchPattern options maxMatches with
        | Thrown e => Thrown e
        | Returned fileMatches =>
            let matches := map (match_entry relativePath lines context) fileMatches in
            Returned
              (SearchResult relativePath matches (List.length matches)
                 (search_hint searchPattern (List.length matches)))
        end
    end.

Section SearchInDirectory.
Variable ignoreMatcher : option Ignore.matcher.
Variable searchPattern : string.
Variable options : search_options.

Definition dir_cap : nat := FileSearch.opt 100%nat (so_maxMatches options).

(** [walk] of [searchInDirectory]; [levels] is
    [depth + 1 - currentDepth]. *)
Fixpoint search_walk (levels : nat) (dir relDir : string)
  (matches : list search_match) {struct levels} : list search_match :=
  match levels with
  | O => matches
  | S levels' =>
      if (dir_cap <=? List.length matches)%nat then matches
      else
        match FS.readdir_of f dir with
        | Thrown _ => matches
        | Returned items =>
            (fix each (items : list string) (matches : list search_match)
               : list search_match :=
               match items with
               | [] => matches
               | item :: rest =>
                   if (dir_cap <=? List.length matches)%nat then matches
                   else
                     let itemPath := NodePath.join dir item in
                     let itemRelPath :=
                       if String.eqb relDir "" then item
                       else NodePath.join relDir item in
                     if match ignoreMatcher with
                        | Some m => Ignore.isIgnored m itemRelPath
                        | None => false
                        end
                     then each rest matches
                     else
                       match FS.stat_of f itemPath with
                       | Thrown _ => each rest matches
                       | Returned FS.IsDirectory =>
                           each rest (search_walk levels' itemPath itemRelPath matches)
                       | Returned (FS.IsFile _) =>
                           if FileTypes.isTextFile itemPath then
                             match FS.readFile_of f itemPath with
                             | Thrown _ => each rest matches
                             | Returned content =>
                                 let lines := JS.split_lines content in
                                 match file_matches content searchPattern options
                                         (dir_cap - List.length matches) with
                                 | Thrown _ => each rest matches
                                 | Returned fileMatches =>
                                     each rest
                                       (matches
                                        ++ map (match_entry itemRelPath lines
                                                  (FileSearch.opt 3 (so_context options)))
                                               fileMatches)%list
                                 end
                             end
                           else each rest matches
                       end
               end) items matches
        end
  end.
End SearchInDirectory.

Definition searchInDirectory (absPath relativePath searchPattern : string)
  (options : search_options) : outcome result :=
  let depth := FileSearch.opt 5 (so_depth options) in
  match
    match so_respectIgnore options with
    | Some false => Returned None
    | _ =>
        match Ignore.createIgnoreMatcherForDir f absPath with
        | Returned m => Returned (Some m)
        | Thrown e => Thrown e
        end
    end
  with
  | Thrown e => Thrown e
  | Returned ignoreMatcher =>
      let matches :=
        search_walk ignoreMatcher searchPattern options (Z.to_nat depth) absPath
          (if String.eqb relativePath "." then "" else relativePath) [] in
      Returned
        (SearchResult relativePath matches (List.length matches)
           (search_hint searchPattern (List.length matches)))
  end.

Definition count_kind (files : bool) (entries : list dir_entry) : nat :=
  List.length
    (filter (fun e => match kind e with
                      | KFile _ => files
                      | KDirectory _ => negb files
                      end) entries).

(** The value handed to [JSON.stringify].  The file system of the model
    holds files and directories only, so the closing [INVALID_TYPE]
    answer of the source has no case here. *)
Definition execute (a : args) : outcome result :=
  match Paths.resolvePath cwd root (path a) with
  | Paths.Error msg =>
      Returned (Failure (path a) None (mkError INVALID_PATH msg) None None)
  | Paths.Ok resolved =>
      let absolutePath := Paths.absolutePath resolved in
      let virtualPath := Paths.virtualPath resolved in
      let effectiveDepth :=
        match depth a with
        | Some d => d
        | None =>
            if (truthy (find a) || truthy (pattern a) || truthy (preset a))%bool
            then 5 else 1
        end in
      match FS.stat_of f absolutePath with
      | Thrown _ =>
          match FileSearch.tryAutoResolve f (Paths.getWorkspaceRoot root) virtualPath
                  FileSearch.no_search_options with
          | Thrown e => Thrown e
          | Returned autoResolve =>
              if (FileSearch.resolved autoResolve
                  && truthy (FileSearch.resolvedPath autoResolve))%bool
              then
                let rp := FileSearch.opt "" (FileSearch.resolvedPath autoResolve) in
                let resolvedPath := NodePath.join (Paths.getWorkspaceRoot root) rp in
                Returned
                  (prefix_hint
                     ("Auto-resolved to " ++ JS.dq ++ rp ++ JS.dq ++ ". ")
                     (readFile resolvedPath rp (lines a)))
              else if FileSearch.ambiguous autoResolve then
                Returned
                  (Failure virtualPath None (mkError AMBIGUOUS "Multiple files match")
                     None (Some (FileSearch.candidates autoResolve)))
              else
                Returned
                  (Failure virtualPath (Some "file")
                     (mkError NOT_FOUND ("Path does not exist: " ++ virtualPath))
                     None None)
          end
      | Returned stat =>
          if truthy (find a) then
            match FileSearch.searchFiles f absolutePath (FileSearch.opt "" (find a))
                    (FileSearch.mkSearchOptions (Some 50%nat) (Some true) None None
                       (Some effectiveDepth)) with
            | Thrown e => Thrown e
            | Returned results =>
                Returned
                  (DirectoryResult virtualPath
                     (map (fun r =>
                             mkDirEntry (FileSearch.relativePath (FileSearch.sentry r))
                               (if FileSearch.isDirectory (FileSearch.sentry r)
                                then KDirectory None else KFile None))
                          results)
                     ("Found " ++ JS.nat_to_string (List.length results)
                      ++ " items matching " ++ JS.dq ++ FileSearch.opt "" (find a) ++ JS.dq)
                     None)
            end
          else
            let searchPattern :=
              match pattern a with Some p => Some p | None => preset a end in
            if truthy searchPattern then
              let searchOptions :=
                mkSearchOptions (patternMode a) (context a) (Some effectiveDepth)
                                (truthy (preset a)) None false None in
              match stat with
              | FS.IsFile _ =>
                  searchInSingleFile absolutePath virtualPath
                    (FileSearch.opt "" searchPattern) searchOptions
              | FS.IsDirectory =>
                  searchInDirectory absolutePath virtualPath
                    (FileSearch.opt "" searchPattern) searchOptions
              end
            else
              match stat with
              | FS.IsDirectory =>
                  match listDirectory absolutePath virtualPath effectiveDepth
                          no_list_options with
                  | Thrown e => Thrown e
                  | Returned (entries, truncated) =>
                      Returned
                        (DirectoryResult virtualPath entries
                           (JS.nat_to_string (List.length entries) ++ " items ("
                            ++ JS.nat_to_string (count_kind true entries) ++ " files, "
                            ++ JS.nat_to_string (count_kind false entries)
                            ++ " directories)")
                           (Some truncated))
                  end
              | FS.IsFile _ => Returned (readFile absolutePath virtualPath (lines a))
              end
      end
  end.
End OnFileSystem.

End FsRead.

(** ** fs-write.js *)

Module FsWrite.

Local Open Scope Z_scope.

Record args := mkArgs {
  path : string;
  operation : string;
  action : option string;
  content : option string;
  lines : option string;
  pattern : option string;
  patternMode : option string;
  replaceAll : bool;
  checksum : option string;
  dryRun : bool;
  caseInsensitive : bool
}.

Record payload := mkPayload {
  p_action : string;
  linesAffected : option Z;
  newChecksum : option string;
  diff : option string
}.

Inductive result :=
| Failure (path : string) (operation : option string) (applied : option bool)
    (err : error) (hint : option string)
| Success (path : string) (operation : string) (applied : bool)
    (res : payload) (hint : string).

Definition line_count (s : string) : Z := Z.of_nat (List.length (JS.split_lines s)).

Definition fileExists (absPath : string) : FS.M bool :=
  FS.try_catch (FS.access absPath ;;; FS.ret true) (fun _ => FS.ret false).

Definition dry_run_hint (what : string) : string :=
  "DRY RUN — run with dryRun=false to " ++ what.

Definition createFile (absPath relativePath content : string) (dryRun : bool)
  : FS.M result :=
  exists_ <- fileExists absPath ;;
  if (exists_ : bool) then
    FS.ret (Failure relativePath (Some "create") (Some false)
              (mkError ALREADY_EXISTS ("File already exists: " ++ relativePath))
              (Some ("Use operation=" ++ JS.dq ++ "update" ++ JS.dq
                     ++ " to modify existing files.")))
  else if dryRun then
    let diff := Diff.generateDiff "" content relativePath in
    FS.ret (Success relativePath "create" false
              (mkPayload "would_create" (Some (line_count content)) None (Some diff))
              (dry_run_hint "apply."))
  else
    FS.mkdir_recursive (NodePath.dirname absPath) ;;;
    FS.writeFile absPath content ;;;
    let newChecksum := Checksum.generateChecksum content in
    FS.ret (Success relativePath "create" true
              (mkPayload "created" (Some (line_count content)) (Some newChecksum) None)
              ("File created. New checksum: " ++ newChecksum)).

Definition deleteFile (absPath relativePath : string) (dryRun : bool)
  : FS.M result :=
  exists_ <- fileExists absPath ;;
  if negb exists_ then
    FS.ret (Failure relativePath (Some "delete") (Some false)
              (mkError NOT_FOUND ("File does not exist: " ++ relativePath)) None)
  else if dryRun then
    FS.ret (Success relativePath "delete" false
              (mkPayload "would_delete" None None None)
              (dry_run_hint "delete."))
  else
    FS.unlink absPath ;;;
    FS.ret (Success relativePath "delete" true
              (mkPayload "deleted" None None None) "File deleted.").

Definition fail_update (relativePath : string) (c : error_code) (msg : string)
  (hint : option string) : result :=
  Failure relativePath (Some "update") (Some false) (mkError c msg) hint.

Fixpoint join_numbers (l : list nat) : string :=
  match l with
  | [] => ""
  | [n] => JS.nat_to_string n
  | n :: r => (JS.nat_to_string n ++ ", " ++ join_numbers r)%string
  end.

(** The target an update resolves to: a line range, possibly through a
    single pattern match. *)
Record target := mkTarget {
  targetStart : Z;
  targetEnd : Z;
  patternMatch : option Patterns.match_
}.

(** The last step of [updateFile], once the new content is known. *)
Definition finish_update (absPath relativePath currentContent newContent : string)
  (dryRun : bool) (actionDescription : string) (linesAffected : Z) : FS.M result :=
  let diff := Diff.generateDiff currentContent newContent relativePath in
  if dryRun then
    FS.ret (Success relativePath "update" false
              (mkPayload ("would_" ++ actionDescription) (Some linesAffected) None
                         (Some diff))
              (dry_run_hint "apply."))
  else
    FS.writeFile absPath newContent ;;;
    let newChecksum := Checksum.generateChecksum newContent in
    FS.ret (Success relativePath "update" true
              (mkPayload actionDescription (Some linesAffected) (Some newChecksum)
                         (Some diff))
              (actionDescription ++ " " ++ JS.Z_to_string linesAffected
               ++ " line(s). New checksum: " ++ newChecksum)).

Definition apply_action (absPath relativePath currentContent : string) (input : args)
  (t : target) : FS.M result :=
  let content := FileSearch.opt "" (content input) in
  let action := FileSearch.opt "" (action input) in
  if String.eqb action "replace" then
    let '(newContent, linesAffected) :=
      match patternMatch t with
      | Some m =>
          ((JS.take (Patterns.index m) currentContent ++ content
            ++ JS.drop (Patterns.index m + String.length (Patterns.text m))
                 currentContent)%string,
           Z.max (line_count (Patterns.text m)) (line_count content))
      | None =>
          (Lines.replaceLines currentContent (targetStart t) (targetEnd t) content,
           targetEnd t - targetStart t + 1)
      end in
    finish_update absPath relativePath currentContent newContent (dryRun input)
      "replaced" linesAffected
  else if String.eqb action "insert_before" then
    finish_update absPath relativePath currentContent
      (Lines.insertBeforeLine currentContent (targetStart t) content)
      (dryRun input) "inserted_before" (line_count content)
  else if String.eqb action "insert_after" then
    finish_update absPath relativePath currentContent
      (Lines.insertAfterLine currentContent (targetEnd t) content)
      (dryRun input) "inserted_after" (line_count content)
  else if String.eqb action "delete_lines" then
    finish_update absPath relativePath currentContent
      (Lines.deleteLines currentContent (targetStart t) (targetEnd t))
      (dryRun input) "deleted_lines" (targetEnd t - targetStart t + 1)
  else
    FS.ret (fail_update relativePath INVALID_ACTION ("Unknown action: " ++ action) None).

Definition pattern_options (input : args) : Patterns.options :=
  Patterns.mkOptions false (caseInsensitive input) false None.

Definition updateFile (absPath relativePath : string) (input : args) : FS.M result :=
  exists_ <- fileExists absPath ;;
  if negb exists_ then
    FS.ret (fail_update relativePath NOT_FOUND ("File does not exist: " ++ relativePath)
              (Some ("Use operation=" ++ JS.dq ++ "create" ++ JS.dq
                     ++ " to create new files.")))
  else if negb (FileTypes.isTextFile absPath) then
    FS.ret (fail_update relativePath NOT_TEXT "Cannot modify binary files" None)
  else if negb (truthy (action input)) then
    FS.ret (fail_update relativePath MISSING_ACTION "action is required for update" None)
  else
    currentContent <- FS.readFile absPath ;;
    let currentChecksum := Checksum.generateChecksum currentContent in
    if (truthy (checksum input)
        && negb (String.eqb (FileSearch.opt "" (checksum input)) currentChecksum))%bool
    then
      FS.ret (fail_update relativePath CHECKSUM_MISMATCH
                ("File changed. Current checksum: " ++ currentChecksum)
                (Some "Re-read the file to get current content."))
    else if truthy (lines input) then
      match Lines.parseLineRange (FileSearch.opt "" (lines input)) with
      | None =>
          FS.ret (fail_update relativePath INVALID_RANGE
                    ("Invalid line range: " ++ FileSearch.opt "" (lines input)) None)
      | Some (start, end_) =>
          let n := line_count currentContent in
          if start >? n then
            FS.ret (fail_update relativePath OUT_OF_RANGE
                      ("Line " ++ JS.Z_to_string start ++ " beyond file end ("
                       ++ JS.Z_to_string n ++ " lines)") None)
          else
            apply_action absPath relativePath currentContent input
              (mkTarget start (Z.min end_ n) None)
      end
    else if truthy (pattern input) then
      let pattern := FileSearch.opt "" (pattern input) in
      let mode := FileSearch.opt "literal" (patternMode input) in
      if (replaceAll input && String.eqb (FileSearch.opt "" (action input)) "replace")%bool
      then
        match Patterns.replaceAllMatches currentContent pattern
                (FileSearch.opt "" (content input)) mode (pattern_options input) with
        | Thrown e => FS.throw e
        | Returned r =>
            if (Patterns.count r =? 0)%nat then
              FS.ret (fail_update relativePath PATTERN_NOT_FOUND
                        ("Pattern not found: " ++ JS.dq ++ pattern ++ JS.dq) None)
            else
              let diff :=
                Diff.generateDiff currentContent (Patterns.newContent r) relativePath in
              let affected := Z.of_nat (List.length (Patterns.affectedLines r)) in
              if dryRun input then
                FS.ret (Success relativePath "update" false
                          (mkPayload "would_replace_all" (Some affected) None (Some diff))
                          ("DRY RUN — would replace "
                           ++ JS.nat_to_string (Patterns.count r) ++ " occurrences."))
              else
                FS.writeFile absPath (Patterns.newContent r) ;;;
                let newChecksum := Checksum.generateChecksum (Patterns.newContent r) in
                FS.ret (Success relativePath "update" true
                          (mkPayload "replaced_all" (Some affected) (Some newChecksum)
                                     (Some diff))
                          ("Replaced " ++ JS.nat_to_string (Patterns.count r)
                           ++ " occurrences. New checksum: " ++ newChecksum))
        end
      else
        match Patterns.findUniqueMatch currentContent pattern mode
                (pattern_options input) with
        | Thrown e => FS.throw e
        | Returned Patterns.NotFound =>
            FS.ret (fail_update relativePath PATTERN_NOT_FOUND
                      ("Pattern not found: " ++ JS.dq ++ pattern ++ JS.dq) None)
        | Returned (Patterns.Multiple count lines) =>
            FS.ret (fail_update relativePath MULTIPLE_MATCHES
                      ("Pattern matched " ++ JS.nat_to_string count
                       ++ " times at lines " ++ join_numbers lines)
                      (Some ("Use replaceAll=true or specify lines=" ++ JS.dq ++ "N"
                             ++ JS.dq ++ " to target specific match.")))
        | Returned (Patterns.Unique m) =>
            let line := Z.of_nat (Patterns.line m) in
            apply_action absPath relativePath currentContent input
              (mkTarget line (line + line_count (Patterns.text m) - 1) (Some m))
        end
    else
      FS.ret (fail_update relativePath NO_TARGET
                "Either lines or pattern must be specified" None).

Section WithRoot.
Variable cwd : string.
Variable root : string.

(** The value handed to [JSON.stringify]. *)
Definition execute (a : args) : FS.M result :=
  match Paths.resolvePath cwd root (path a) with
  | Paths.Error msg =>
      FS.ret (Failure (path a) None None (mkError INVALID_PATH msg) None)
  | Paths.Ok resolved =>
      let absolutePath := Paths.absolutePath resolved in
      let virtualPath := Paths.virtualPath resolved in
      if String.eqb (operation a) "create" then
        if negb (truthy (content a)) then
          FS.ret (Failure virtualPath (Some "create") None
                    (mkError MISSING_CONTENT "content is required for create") None)
        else
          createFile absolutePath virtualPath (FileSearch.opt "" (content a)) (dryRun a)
      else if String.eqb (operation a) "delete" then
        deleteFile absolutePath virtualPath (dryRun a)
      else if String.eqb (operation a) "update" then
        updateFile absolutePath virtualPath a
      else
        FS.ret (Failure virtualPath None None
                  (mkError INVALID_OPERATION ("Unknown operation: " ++ operation a))
                  None)
  end.
End WithRoot.

End FsWrite.

(** ** tools/index.js *)

Module Tools.

(** What [readFile] gives its caller: the text, an [Error] of its own,
    or the exception of the tool it calls. *)
Inductive read :=
| Content (text : string)
| Throws (message : string)
| Rethrows (e : exn).

Fixpoint skip_digits (s : string) : string :=
  match s with
  | String c r => if JS.is_digit c then skip_digits r else s
  | EmptyString => EmptyString
  end.

(** [line.replace(/^\s*\d+\|/, '')]: white space, digits and the bar are
    disjoint classes, so the expression matches in one way at most. *)
Definition strip_line_number (line : string) : string :=
  match JS.trimStart line with
  | String c r =>
      if JS.is_digit c then
        match skip_digits r with
        | String b rest => if Ascii.eqb b "|" then rest else line
        | EmptyString => line
        end
      else line
  | EmptyString => line
  end.

Section OnFileSystem.
Variable cwd : string.
Variable root : string.
Variable f : FS.fs.

Definition readFile (path : string) : read :=
  match FsRead.execute cwd root f
          (FsRead.mkArgs path None None None None None None None) with
  | Thrown e => Rethrows e
  | Returned (FsRead.FileResult _ content _) =>
      if negb (String.eqb (FsRead.text content) "") then
        Content
          (JS.join_lines (map strip_line_number (JS.split_lines (FsRead.text content))))
      else Throws ("Could not read file: " ++ path)
  | Returned _ => Throws ("Could not read file: " ++ path)
  end.
End OnFileSystem.

End Tools.

(** * Vocabulary of the properties

    Predicates, reference functions and the concrete file systems and
    requests that the statements below are written with. *)

(** [g] applied to the last element of a list only. *)
Fixpoint map_last {A} (g : A -> A) (l : list A) : list A :=
  match l with
  | [] => []
  | [x] => [g x]
  | x :: t => x :: map_last g t
  end.

(** A lower-case hexadecimal digit. *)
Definition is_hex (c : ascii) : bool :=
  let n := nat_of_ascii c in
  ((48 <=? n) && (n <=? 57)) || ((97 <=? n) && (n <=? 102)).

(** Two texts of five lines that differ in the first line only. *)
Definition diff_old : string := "a
b
c
d
e".

Definition diff_new : string := "x
b
c
d
e".

(** The last rule of a matcher whose expression matches the path. *)
Definition last_match (regexes : Ignore.matcher) (relativePath : string)
  : option Ignore.rule :=
  List.find (fun r => RegExp.test (Ignore.regex r) relativePath) (rev regexes).

(** [createIgnoreMatcher(patterns).isIgnored(relativePath)] *)
Definition ignored_by (patterns : list string) (relativePath : string) : option bool :=
  match Ignore.createIgnoreMatcher patterns with
  | Returned m => Some (Ignore.isIgnored m relativePath)
  | Thrown _ => None
  end.

(** A workspace [/ws] with a directory [docs] and a file that the
    process may not read. *)
Definition boundary_fs : FS.fs :=
  FS.Dir [("ws", FS.Dir [("docs", FS.Dir [("a.md", FS.File true "text")]);
                         ("secret.md", FS.File false "hidden")])].

(** Requests with the optional arguments left out. *)
Definition write_args (path operation : string) (content : option string)
  : FsWrite.args :=
  FsWrite.mkArgs path operation None content None None None false None false false.

Definition read_args (path : string) (pattern : option string) : FsRead.args :=
  FsRead.mkArgs path pattern None None None None None None.

(** What [writeFile] does to the entry it finds. *)
Definition write_change (content : string) (found : option FS.node)
  : string + option FS.node :=
  match found with
  | Some (FS.Dir _) => inl "EISDIR"
  | Some (FS.File r _) => inr (Some (FS.File r content))
  | None => inr (Some (FS.File true content))
  end.

(** A workspace with one file of three lines, and the update of its
    line 0. *)
Definition zero_fs : FS.fs :=
  FS.Dir [("ws", FS.Dir [("x.md", FS.File true "a
b
c")])].

Definition zero_args : FsWrite.args :=
  FsWrite.mkArgs "x.md" "update" (Some "delete_lines") None (Some "0") None None
                 false None false false.

(** The [CHECKSUM_MISMATCH] envelope of [updateFile]. *)
Definition stale_failure (relativePath current : string) : FsWrite.result :=
  FsWrite.fail_update relativePath CHECKSUM_MISMATCH
    ("File changed. Current checksum: " ++ current)
    (Some "Re-read the file to get current content.").

(** A workspace with a text file and a binary file, and updates of line
    1 that carry a checksum the file never had. *)
Definition guard_fs : FS.fs :=
  FS.Dir [("ws", FS.Dir [("x.md", FS.File true "a"); ("x.bin", FS.File true "a")])].

Definition stale_args (action : option string) : FsWrite.args :=
  FsWrite.mkArgs "x.md" "update" action (Some "B") (Some "1") None None
                 false (Some "000000000000") false false.

(** No code unit of [s] is a separator. *)
Definition free_of (sep : ascii -> bool) (s : string) : bool :=
  JS.all_chars (fun c => negb (sep c)) s.

(** The numbered lines a read without a range shows. *)
Definition preview (lines : list string) : list string :=
  if 100 <? List.length lines
  then Lines.number_lines 3 1 (firstn 100 lines)
  else Lines.number_lines
         (String.length (JS.Z_to_string (Z.of_nat (List.length lines)))) 1 lines.

(** The expression that matches the text [cs] and nothing else, as the
    parser builds it and as a tree. *)
Definition lit_items (cs : list ascii) : list RegExp.item :=
  map (fun c => RegExp.IAtom (RegExp.Chr c)) cs.

Definition lit_re (cs : list ascii) : RegExp.re :=
  fold_right (fun c acc => RegExp.Seq (RegExp.Chr c) acc) RegExp.Empty cs.

(** [s] starts with [ps]. *)
Fixpoint prefixb (ps s : list ascii) : bool :=
  match ps, s with
  | [], _ => true
  | p :: ps', c :: s' => Ascii.eqb c p && prefixb ps' s'
  | _ :: _, [] => false
  end.

(** The occurrences of [ps] in a text, leftmost first and not
    overlapping: [i] is the index of the head of [s], and [skip] counts
    the code units of [s] still covered by the occurrence found last.
    The empty pattern occurs once at every index, the end included. *)
Fixpoint occ_idx (ps : list ascii) (skip i : nat) (s : list ascii) : list nat :=
  match s with
  | [] =>
      match skip with
      | O => if prefixb ps [] then [i] else []
      | S _ => []
      end
  | _ :: r =>
      match skip with
      | S k => occ_idx ps k (S i) r
      | O =>
          if prefixb ps s
          then i :: occ_idx ps (List.length ps - 1) (S i) r
          else occ_idx ps 0 (S i) r
      end
  end.

Definition occurrences (pattern content : string) : list nat :=
  occ_idx (list_ascii_of_string pattern) 0 0 (list_ascii_of_string content).

(** The first occurrence of [ps] in [s], whose head has index [i]: its
    index and its end. *)
Fixpoint find_lit (ps : list ascii) (i : nat) (s : list ascii) : option (nat * nat) :=
  if prefixb ps s then Some (i, i + List.length ps)
  else match s with
       | [] => None
       | _ :: t => find_lit ps (S i) t
       end.

(** The occurrences from index [i] of the whole text on. *)
Definition occ_at (ps : list ascii) (i : nat) (cs : list ascii) : list nat :=
  if List.length cs <? i then [] else occ_idx ps 0 i (skipn i cs).

(** Options under which a literal pattern is matched case-sensitively
    and without word boundaries. *)
Definition literal_options (o : Patterns.options) : Prop :=
  Patterns.caseInsensitive o = false /\ Patterns.wholeWord o = false.

(** [q] can be read off [t] from left to right, with gaps. *)
Fixpoint subseq (q t : list ascii) {struct t} : bool :=
  match q, t with
  | [], _ => true
  | _ :: _, [] => false
  | a :: q', c :: t' => (Ascii.eqb c a && subseq q' t') || subseq q t'
  end.

(** A file whose name is [name], case aside. *)
Definition same_name (name : string) (e : FileSearch.entry) : bool :=
  negb (FileSearch.isDirectory e)
  && String.eqb (JS.toLowerCase (FileSearch.fileName e)) (JS.toLowerCase name).



(** A workspace with two files named [config.js], one named [Notes.md]
    and one below [dist]. *)
Definition search_fs : FS.fs :=
  FS.Dir [("ws", FS.Dir [
    ("a", FS.Dir [("config.js", FS.File true "A")]);
    ("b", FS.Dir [("config.js", FS.File true "B"); ("Notes.md", FS.File true "n")]);
    ("dist", FS.Dir [("only.md", FS.File true "o")])])].






(** The five replacements of [globToRegex]. *)
Definition glob_body (pattern : string) : string :=
  JS.replace_char "?" "[^/]"
    (JS.replace_lit "<<<GLOBSTAR>>>" ".*"
       (JS.replace_char "*" "[^/]*"
          (JS.replace_lit "**" "<<<GLOBSTAR>>>"
             (JS.replace_char "." "\." pattern)))).


Definition starts_star (s : string) : bool :=
  match s with
  | String c _ => Ascii.eqb c "*"
  | EmptyString => false
  end.



(** The path of an entry relative to the root of the search. *)
Definition entry_path (relDir item : string) : string :=
  if String.eqb relDir "" then item
  else JS.replace_char "\" "/" (NodePath.join relDir item).

(** The entries the name search passes over: those whose name starts
    with a dot, the names always left out, and the paths the ignore
    rules match. *)
Definition skipped (m : Ignore.matcher) (relPath item : string) : bool :=
  (JS.startsWith item "."
   || FileTypes.mem item FileSearch.ALWAYS_EXCLUDE
   || Ignore.isIgnored m relPath)%bool.

Definition file_entry (relPath item : string) : FileSearch.entry :=
  FileSearch.mkEntry relPath item false
    (JS.toLowerCase (JS.drop 1 (NodePath.extname item))).

(** The files below [dir] that can be reached through at most [levels]
    listings of directories without meeting a skipped entry, in the
    order of the listings. *)
Fixpoint files_within (f : FS.fs) (m : Ignore.matcher) (levels : nat)
  (dir relDir : string) : list FileSearch.entry :=
  match levels with
  | O => []
  | S levels' =>
      match FS.readdir_of f dir with
      | Thrown _ => []
      | Returned items =>
          flat_map
            (fun item =>
               let relPath := entry_path relDir item in
               if skipped m relPath item then []
               else
                 match FS.stat_of f (NodePath.join dir item) with
                 | Returned FS.IsDirectory =>
                     files_within f m levels' (NodePath.join dir item) relPath
                 | Returned (FS.IsFile _) => [file_entry relPath item]
                 | Thrown _ => []
                 end)
            items
      end
  end.

(** The files within reach of the root: at most ten directories deep. *)
Definition within_reach (f : FS.fs) (root : string) (m : Ignore.matcher)
  : list FileSearch.entry :=
  files_within f m 11 root "".


(** The ignore matcher of a directory whose rules compile. *)
Definition matcher_of (f : FS.fs) (dir : string) : Ignore.matcher :=
  match Ignore.createIgnoreMatcherForDir f dir with
  | Returned m => m
  | Thrown _ => []
  end.


(** A workspace with a file of 101 lines, and the part of a read result
    that tells how much is shown. *)
Definition long_fs : FS.fs :=
  FS.Dir [("ws", FS.Dir [("long.md",
                          FS.File true (JS.join_lines (List.repeat "x" 101)))])].

Definition summary (r : FsRead.result) : option (bool * option (Z * Z) * nat * nat) :=
  match r with
  | FsRead.FileResult _ c _ =>
      Some (FsRead.truncated c, FsRead.range c,
            List.length (JS.split_lines (FsRead.text c)), FsRead.totalLines c)
  | _ => None
  end.

(** A text with the occurrences at the indices [js], each [len] code
    units long, replaced from left to right; [base] is the index of the
    head of [s] in the whole text. *)
Fixpoint replace_each (js : list nat) (len : nat) (replacement : string)
  (base : nat) (s : string) : string :=
  match js with
  | [] => s
  | j :: js' =>
      JS.take (j - base) s ++ replacement
      ++ replace_each js' len replacement (j + len) (JS.drop (j - base + len) s)
  end.

(** Indices in increasing order, [len] apart at least, each occurrence
    ending within [bound]. *)
Fixpoint spaced (len base bound : nat) (js : list nat) : Prop :=
  match js with
  | [] => True
  | j :: js' => base <= j /\ j + len <= bound /\ spaced len (j + len) bound js'
  end.

(** One substitution of [replaceAllMatches]. *)
Definition splice_at (c : string) (j len : nat) (replacement : string) : string :=
  JS.take j c ++ replacement ++ JS.drop (j + len) c.

(** The first [n] occurrences as [findMatches] reports them. *)
Definition literal_matches (pattern content : string) (n : nat)
  : list Patterns.match_ :=
  map (fun j => Patterns.located content j (j + String.length pattern))
      (firstn n (occurrences pattern content)).

(** The same update with an empty checksum. *)
Definition empty_checksum_args : FsWrite.args :=
  FsWrite.mkArgs "x.md" "update" (Some "replace") (Some "B") (Some "1") None None
                 false (Some "") false false.




(** ** Vocabulary of the further properties *)

(** A code unit that is not white space. *)
Definition not_ws (c : ascii) : bool := negb (JS.is_ws c).

(** A computation that leaves the file system alone and does not report
    an applied change. *)
Definition unapplied (m : FS.M FsWrite.result) (f : FS.fs) : Prop :=
  exists o, m f = (o, f)
            /\ forall p op res h, o <> Returned (FsWrite.Success p op true res h).

(** A computation whose failures leave the file system alone. *)
Definition fails_cleanly (m : FS.M FsWrite.result) (f : FS.fs) : Prop :=
  forall p op ap e h f',
    m f = (Returned (FsWrite.Failure p op ap e h), f') -> f' = f.

(** The flag of the file a write leaves: the old one, or readable for a
    new file. *)
Definition flag_after_write (found : option FS.node) : bool :=
  match found with
  | Some (FS.File r _) => r
  | _ => true
  end.

(** Every success of the computation names the operation [name]. *)
Definition succeeds_as (name : string) (m : FS.M FsWrite.result) (f : FS.fs) : Prop :=
  forall p op ap res h f',
    m f = (Returned (FsWrite.Success p op ap res h), f') -> op = name.

(** A request that creates a file in a directory that is not there yet. *)
Definition create_args : FsWrite.args :=
  write_args "notes/new.md" "create" (Some "hello").

(** What an applied success of [m] on the file at [absPath] must tell. *)
Definition tells_new_content (absPath relativePath old : string)
  (m : FS.M FsWrite.result) (f : FS.fs) : Prop :=
  forall p op res h f',
    m f = (Returned (FsWrite.Success p op true res h), f') ->
    exists new,
      FS.readFile_of f' absPath = Returned new
      /\ FsWrite.newChecksum res = Some (Checksum.generateChecksum new)
      /\ FsWrite.diff res = Some (Diff.generateDiff old new relativePath).

(** A request that replaces the second line of [x.md]. *)
Definition replace_args : FsWrite.args :=
  FsWrite.mkArgs "x.md" "update" (Some "replace") (Some "B") (Some "2") None None
                 false None false false.

(** A computation none of whose failures is a checksum mismatch. *)
Definition never_mismatch (m : FS.M FsWrite.result) (f : FS.fs) : Prop :=
  forall p op ap e h f',
    m f = (Returned (FsWrite.Failure p op ap e h), f') -> code e <> CHECKSUM_MISMATCH.

(** A request that carries the checksum of the present content and
    names a line beyond the end of the file. *)
Definition fresh_args : FsWrite.args :=
  FsWrite.mkArgs "x.md" "update" (Some "replace") (Some "B") (Some "7") None None
                 false (Some (Checksum.generateChecksum "a
b
c")) false false.

(** [q] is a position of the same text as [p], not before it. *)
Definition follows (p q : RegExp.pos) : Prop :=
  RegExp.index_of p <= RegExp.index_of q
  /\ (rev (RegExp.before q) ++ RegExp.after q
      = rev (RegExp.before p) ++ RegExp.after p)%list.

(** A continuation that never goes back in the text. *)
Definition advancing (k : RegExp.pos -> option RegExp.pos) : Prop :=
  forall p q, k p = Some q -> follows p q.

(** Indices in increasing order, from [base] on. *)
Fixpoint ascending (base : nat) (l : list nat) : Prop :=
  match l with
  | [] => True
  | j :: r => base <= j /\ ascending (S j) r
  end.

(** A match as [findMatches] reports it: the text found at its index,
    within the content. *)
Definition match_within (content : string) (m : Patterns.match_) : Prop :=
  Patterns.index m + String.length (Patterns.text m) <= String.length content
  /\ Patterns.text m
     = JS.substring content (Patterns.index m)
         (Patterns.index m + String.length (Patterns.text m)).

(** A request that replaces the literal [b] in [x.md]. *)
(** What the host promises of [exec] on an expression with the [g]
    flag: a match starts at [lastIndex] or after it and lies within the
    content. *)
Definition honours_lastIndex (content : string) (exec : nat -> option (nat * nat))
  : Prop :=
  forall lastIndex index end_,
    exec lastIndex = Some (index, end_) ->
    lastIndex <= index /\ index <= end_ /\ end_ <= String.length content.

(** The expression [b\d+] with the [g] flag. *)
Definition numbered_b : RegExp.regexp :=
  RegExp.mkRegExp
    (RegExp.Seq (RegExp.Chr "b")
       (RegExp.Seq (RegExp.Class false [RegExp.CDigit false])
          (RegExp.Seq (RegExp.Star true (RegExp.Class false [RegExp.CDigit false]))
             RegExp.Empty)))
    (RegExp.mkFlags true false false false).

Definition occurrence_args : FsWrite.args :=
  FsWrite.mkArgs "x.md" "update" (Some "replace") (Some "B") None (Some "b") None
                 false None false false.

(** [a] is listed before [b] only if its score is not smaller. *)
Definition not_worse (a b : FileSearch.scored) : Prop :=
  (FileSearch.score b <= FileSearch.score a)%Z.

(** An entry the walk may list: not a dot entry, not one of the
    directories always left out, and a directory only on request. *)
Definition listable (incDirs : bool) (e : FileSearch.entry) : Prop :=
  JS.startsWith (FileSearch.fileName e) "." = false
  /\ FileTypes.mem (FileSearch.fileName e) FileSearch.ALWAYS_EXCLUDE = false
  /\ (FileSearch.isDirectory e = true -> incDirs = true).

(** What [execute] promises about the size of an answer. *)
Definition within_bounds (r : FsRead.result) : Prop :=
  match r with
  | FsRead.DirectoryResult _ entries _ _ => List.length entries <= 500
  | FsRead.SearchResult _ matches matchCount _ =>
      matchCount = List.length matches /\ List.length matches <= 100
  | _ => True
  end.

(** The part of [s] after its last line feed, and the part before its
    first one. *)
Definition last_line (s : string) : string := last (JS.split_lines s) "".
Definition first_line (s : string) : string := hd "" (JS.split_lines s).

(** * Properties *)

(** ** Strings *)

Lemma ws_not_separator (c : ascii) :
  JS.is_ws c = true ->
  Paths.is_separator c = false /\ Ascii.eqb "." c = false /\ NodePath.is_slash c = false.
Proof.
  destruct c as [[] [] [] [] [] [] [] []]; vm_compute; intro H;
    try discriminate H; repeat split.
Qed.

Lemma split_by_nonempty sep s : JS.split_by sep s <> [].
Proof.
  destruct s as [|c r]; simpl; [discriminate|].
  destruct (sep c); [discriminate|].
  destruct (JS.split_by sep r); discriminate.
Qed.

Lemma split_by_single_empty sep s : JS.split_by sep s = [""] -> s = "".
Proof.
  destruct s as [|c r]; simpl; [reflexivity|].
  destruct (sep c).
  - intro H. inversion H as [H1]. now apply split_by_nonempty in H1.
  - destruct (JS.split_by sep r); discriminate.
Qed.

Lemma map_last_length {A} (g : A -> A) l : List.length (map_last g l) = List.length l.
Proof.
  induction l as [|x [|y t] IH]; simpl in *; auto.
Qed.

Lemma split_by_sep sep c s :
  sep c = true -> JS.split_by sep (String c s) = "" :: JS.split_by sep s.
Proof. intro H. simpl. now rewrite H. Qed.

Lemma split_by_cons sep c s :
  sep c = false ->
  JS.split_by sep (String c s) =
  match JS.split_by sep s with
  | h :: t => String c h :: t
  | [] => [String c ""]
  end.
Proof. intro H. simpl. now rewrite H. Qed.

Lemma split_by_trimEnd sep s :
  (forall c, sep c = true -> JS.is_ws c = false) ->
  JS.split_by sep (JS.trimEnd s) = map_last JS.trimEnd (JS.split_by sep s).
Proof.
  intros Hsep. induction s as [|c r IH]; [reflexivity|].
  destruct (sep c) eqn:Hc.
  - assert (Et : JS.trimEnd (String c r) = String c (JS.trimEnd r)).
    { simpl. rewrite (Hsep c Hc). now destruct (JS.trimEnd r). }
    rewrite Et, !split_by_sep, IH by assumption.
    destruct (JS.split_by sep r) eqn:Er; [now apply split_by_nonempty in Er|].
    reflexivity.
  - rewrite (split_by_cons sep c r Hc).
    destruct (JS.split_by sep r) as [|h t] eqn:Er; [now apply split_by_nonempty in Er|].
    destruct (JS.trimEnd r) as [|a r'] eqn:Et.
    + (* everything after [c] is trimmed away *)
      assert (E : JS.trimEnd (String c r) = if JS.is_ws c then "" else String c "").
      { simpl. now rewrite Et. }
      rewrite E. destruct t as [|t1 t2].
      * simpl in IH. inversion IH as [Hh]. cbn [map_last JS.trimEnd]. rewrite <- Hh.
        destruct (JS.is_ws c); [reflexivity|]. now rewrite split_by_cons.
      * apply (f_equal (@List.length string)) in IH.
        rewrite map_last_length in IH. discriminate IH.
    + assert (E : JS.trimEnd (String c r) = String c (String a r')).
      { simpl. now rewrite Et. }
      rewrite E, split_by_cons, IH by assumption.
      destruct t as [|t1 t2].
      * cbn [map_last JS.trimEnd].
        destruct (JS.trimEnd h) eqn:Eh; [|reflexivity].
        cbn [map_last] in IH. rewrite Eh in IH.
        apply split_by_single_empty in IH. discriminate IH.
      * reflexivity.
Qed.

Lemma existsb_dotdot_map_last l :
  existsb (String.eqb "..") l = true ->
  existsb (String.eqb "..") (map_last JS.trimEnd l) = true.
Proof.
  induction l as [|x [|y t] IH]; [discriminate| |].
  - cbn [existsb map_last]. rewrite !orb_false_r. intro H.
    apply String.eqb_eq in H. subst x. reflexivity.
  - intro H. change (existsb (String.eqb "..") (x :: y :: t))
      with (String.eqb ".." x || existsb (String.eqb "..") (y :: t))%bool in H.
    change (map_last JS.trimEnd (x :: y :: t)) with (x :: map_last JS.trimEnd (y :: t)).
    cbn [existsb]. apply orb_true_iff in H. apply orb_true_iff.
    destruct H as [H|H]; [now left | right; now apply IH].
Qed.

Lemma hasEscapeAttempt_trimStart s :
  Paths.hasEscapeAttempt s = true -> Paths.hasEscapeAttempt (JS.trimStart s) = true.
Proof.
  unfold Paths.hasEscapeAttempt.
  induction s as [|c r IH]; [trivial|].
  cbn [JS.trimStart]. destruct (JS.is_ws c) eqn:Hw; [|trivial].
  destruct (ws_not_separator c Hw) as (Hs & Hd & _).
  cbn [JS.split_by]. rewrite Hs.
  destruct (JS.split_by Paths.is_separator r) as [|h t] eqn:Er;
    [now apply split_by_nonempty in Er|].
  intro H. apply IH. cbn [existsb] in *.
  apply orb_true_iff in H. apply orb_true_iff. destruct H as [H|H]; [|now right].
  cbn [String.eqb] in H. rewrite Hd in H. discriminate.
Qed.

Lemma hasEscapeAttempt_trim s :
  Paths.hasEscapeAttempt s = true -> Paths.hasEscapeAttempt (JS.trim s) = true.
Proof.
  intro H. apply hasEscapeAttempt_trimStart in H.
  unfold JS.trim, Paths.hasEscapeAttempt in *.
  rewrite split_by_trimEnd.
  - now apply existsb_dotdot_map_last.
  - intros c Hc. destruct (JS.is_ws c) eqn:Hw; [|reflexivity].
    destruct (ws_not_separator c Hw) as (Hs & _). congruence.
Qed.

Lemma trimEnd_keeps_head c r :
  JS.is_ws c = false -> JS.trimEnd (String c r) = String c (JS.trimEnd r).
Proof.
  intro H. simpl. rewrite H. now destruct (JS.trimEnd r).
Qed.

Lemma not_ws_of_separator c : Paths.is_separator c = true -> JS.is_ws c = false.
Proof.
  intro H. destruct (JS.is_ws c) eqn:Hw; [|reflexivity].
  destruct (ws_not_separator c Hw) as (Hs & _). congruence.
Qed.

Lemma not_ws_of_alpha c : JS.is_alpha c = true -> JS.is_ws c = false.
Proof.
  destruct c as [[] [] [] [] [] [] [] []]; vm_compute; intro H;
    try discriminate H; reflexivity.
Qed.

Lemma prefix_empty s : String.prefix "" s = true.
Proof. now destruct s. Qed.

Lemma prefix_single c a r : String.prefix (String c "") (String a r) = Ascii.eqb c a.
Proof.
  cbn [String.prefix]. destruct (Ascii.ascii_dec c a) as [E|E].
  - subst. now rewrite prefix_empty, Ascii.eqb_refl.
  - symmetry. now apply Ascii.eqb_neq.
Qed.

Lemma isAbsolutePath_trim s :
  Paths.isAbsolutePath s = true -> Paths.isAbsolutePath (JS.trim s) = true.
Proof.
  unfold Paths.isAbsolutePath, JS.startsWith, JS.trim.
  destruct s as [|a r]; [discriminate|].
  rewrite prefix_single.
  destruct (Ascii.eqb "/" a) eqn:Ha.
  - apply Ascii.eqb_eq in Ha. subst a. intros _.
    cbn [JS.trimStart]. change (JS.is_ws "/") with false. cbv iota.
    rewrite trimEnd_keeps_head by reflexivity. now rewrite prefix_single.
  - intro H.
    assert (Hd : Paths.has_drive_prefix (String a r) = true).
    { destruct (Paths.has_drive_prefix (String a r)); [reflexivity|discriminate]. }
    clear H. destruct r as [|b [|c t]]; try discriminate Hd.
    cbn [Paths.has_drive_prefix] in Hd.
    apply andb_true_iff in Hd. destruct Hd as [Hd Hc].
    apply andb_true_iff in Hd. destruct Hd as [Hal Hb].
    apply Ascii.eqb_eq in Hb. subst b.
    cbn [JS.trimStart]. rewrite (not_ws_of_alpha a Hal).
    rewrite (trimEnd_keeps_head a) by now apply not_ws_of_alpha.
    rewrite (trimEnd_keeps_head ":") by reflexivity.
    rewrite (trimEnd_keeps_head c) by now apply not_ws_of_separator.
    rewrite prefix_single, Ha.
    cbn [Paths.has_drive_prefix]. now rewrite Hal, Hc, Ascii.eqb_refl.
Qed.

Lemma resolvePath_rejects cwd root raw :
  Paths.hasEscapeAttempt raw = true \/ Paths.isAbsolutePath raw = true ->
  exists msg, Paths.resolvePath cwd root raw = Paths.Error msg.
Proof.
  intros H. unfold Paths.resolvePath.
  destruct (Paths.isAbsolutePath (JS.trim raw)) eqn:Ha; [eauto|].
  destruct H as [H|H].
  - rewrite (hasEscapeAttempt_trim raw H). eauto.
  - apply isAbsolutePath_trim in H. congruence.
Qed.

(** ** Sandbox containment *)

(** C1.  A raw path with a [..] segment, a leading [/] or a drive-letter
    prefix is refused by [resolvePath], and both tools answer it with the
    [INVALID_PATH] envelope; whenever [resolvePath] accepts a path, the
    absolute path it returns is the workspace root itself or starts with
    the root followed by the separator. *)
Theorem resolvePath_containment (cwd root raw : string) :
  (Paths.hasEscapeAttempt raw = true \/ Paths.isAbsolutePath raw = true ->
   (exists msg, Paths.resolvePath cwd root raw = Paths.Error msg)
   /\ (forall f a, FsRead.path a = raw ->
       exists msg,
         FsRead.execute cwd root f a
         = Returned (FsRead.Failure raw None (mkError INVALID_PATH msg) None None))
   /\ (forall f a, FsWrite.path a = raw ->
       exists msg,
         FsWrite.execute cwd root a f
         = (Returned (FsWrite.Failure raw None None (mkError INVALID_PATH msg) None), f)))
  /\ (forall r, Paths.resolvePath cwd root raw = Paths.Ok r ->
      Paths.absolutePath r = root
      \/ JS.startsWith (Paths.absolutePath r) (root ++ NodePath.sep) = true).
Proof.
  split.
  - intro H. destruct (resolvePath_rejects cwd root raw H) as [msg Hmsg].
    split; [eauto|]. split.
    + intros f a Ha. exists msg. unfold FsRead.execute. now rewrite Ha, Hmsg.
    + intros f a Ha. exists msg. unfold FsWrite.execute. now rewrite Ha, Hmsg.
  - intros r. unfold Paths.resolvePath, Paths.getWorkspaceRoot.
    destruct (Paths.isAbsolutePath (JS.trim raw)); [discriminate|].
    destruct (Paths.hasEscapeAttempt (JS.trim raw)); [discriminate|].
    destruct (String.eqb (JS.trim raw) "." || String.eqb (JS.trim raw) ""
              || String.eqb (JS.trim raw) "/")%bool.
    + intro H. inversion H. now left.
    + match goal with
      | |- context [JS.startsWith ?a ?b] => destruct (JS.startsWith a b) eqn:Hp
      end.
      * intro H. inversion H. now right.
      * match goal with
        | |- context [String.eqb ?a ?b] => destruct (String.eqb a b) eqn:He
        end; cbn [negb andb]; [|discriminate].
        intro H. inversion H. left. now apply String.eqb_eq.
Qed.

Lemma resolvePath_containment_witness :
  (exists msg, Paths.resolvePath "/" "/ws" "notes/../../etc/passwd" = Paths.Error msg)
  /\ (Paths.absolutePath (Paths.mkResolved "/ws/notes/a.md" "notes/a.md" "notes/a.md")
      = "/ws"
      \/ JS.startsWith "/ws/notes/a.md" ("/ws" ++ NodePath.sep) = true).
Proof.
  split.
  - apply (proj1 (resolvePath_containment "/" "/ws" "notes/../../etc/passwd")).
    left. reflexivity.
  - apply (proj2 (resolvePath_containment "/" "/ws" " notes/a.md ")
             (Paths.mkResolved "/ws/notes/a.md" "notes/a.md" "notes/a.md")).
    reflexivity.
Defined.

(** ** Checksums *)

Lemma hex_digit_is_hex (x : Z) : is_hex (Checksum.hex_digit (x mod 16)) = true.
Proof.
  assert (H : (0 <= x mod 16 < 16)%Z) by (apply Z.mod_pos_bound; lia).
  assert (E : (x mod 16)%Z = Z.of_nat (Z.to_nat (x mod 16))) by lia.
  assert (B : Z.to_nat (x mod 16) < 16) by lia.
  rewrite E. revert B. generalize (Z.to_nat (x mod 16)). clear. intros n B.
  do 16 (destruct n as [|n]; [reflexivity|]). lia.
Qed.

Lemma sha256_words_length msg : List.length (Checksum.sha256_words msg) = 8.
Proof.
  unfold Checksum.sha256_words.
  now destruct (fold_left Checksum.compress _ _) as [[[[[[[a b] c] d] e] f] g] h].
Qed.

Lemma hex_of_bytes_length bs :
  String.length (Checksum.hex_of_bytes bs) = 2 * List.length bs.
Proof.
  induction bs as [|b r IH]; [reflexivity|].
  cbn [Checksum.hex_of_bytes String.length List.length]. rewrite IH. lia.
Qed.

Lemma hex_of_bytes_is_hex bs : JS.all_chars is_hex (Checksum.hex_of_bytes bs) = true.
Proof.
  induction bs as [|b r IH]; [reflexivity|].
  cbn [Checksum.hex_of_bytes JS.all_chars].
  now rewrite !hex_digit_is_hex, IH.
Qed.

Lemma be_bytes_length n x : List.length (Checksum.be_bytes n x) = n.
Proof. induction n; simpl; congruence. Qed.

Lemma flat_map_be_bytes_length ws :
  List.length (flat_map (Checksum.be_bytes 4) ws) = 4 * List.length ws.
Proof.
  induction ws as [|w r IH]; [reflexivity|].
  cbn [flat_map]. rewrite length_app, be_bytes_length, IH. simpl. lia.
Qed.

Lemma sha256_hex_length msg : String.length (Checksum.sha256_hex msg) = 64.
Proof.
  unfold Checksum.sha256_hex.
  now rewrite hex_of_bytes_length, flat_map_be_bytes_length, sha256_words_length.
Qed.

Lemma take_length n s : n <= String.length s -> String.length (JS.take n s) = n.
Proof.
  revert s. induction n as [|n IH]; intros [|c r] H; simpl in *; try lia.
  now rewrite IH by lia.
Qed.

Lemma take_all_chars p n s : JS.all_chars p s = true -> JS.all_chars p (JS.take n s) = true.
Proof.
  revert s. induction n as [|n IH]; intros [|c r] H; simpl in *; auto.
  apply andb_true_iff in H. destruct H as [Hc Hr]. now rewrite Hc, IH.
Qed.

(** C3.  A checksum verifies against the content it was computed from;
    it is a token of twelve lower-case hexadecimal digits; and it depends
    on the bytes of the content only, so two calls on the same bytes give
    the same token. *)
Theorem checksum_round_trip (content : string) :
  Checksum.verifyChecksum content (Checksum.generateChecksum content) = true
  /\ String.length (Checksum.generateChecksum content) = 12
  /\ JS.all_chars is_hex (Checksum.generateChecksum content) = true
  /\ (forall other,
        Checksum.utf8 other = Checksum.utf8 content ->
        Checksum.generateChecksum other = Checksum.generateChecksum content).
Proof.
  repeat split.
  - unfold Checksum.verifyChecksum. apply String.eqb_refl.
  - unfold Checksum.generateChecksum. apply take_length. rewrite sha256_hex_length. lia.
  - unfold Checksum.generateChecksum, Checksum.sha256_hex.
    apply take_all_chars, hex_of_bytes_is_hex.
  - intros other H. unfold Checksum.generateChecksum. now rewrite H.
Qed.

Lemma checksum_round_trip_witness :
  Checksum.generateChecksum "abc" = "ba7816bf8f01"
  /\ Checksum.verifyChecksum "abc" "ba7816bf8f01" = true.
Proof.
  split; [vm_compute; reflexivity|].
  replace "ba7816bf8f01" with (Checksum.generateChecksum "abc")
    by (vm_compute; reflexivity).
  apply (proj1 (checksum_round_trip "abc")).
Defined.

(** ** Unified diffs *)

(** C5.  On a five-line text whose first line changes, [generateDiff]
    emits one hunk made of context lines only: the third shared line
    ends the hunk before it is stepped over, so the changed line is
    counted as trailing context.  Applying the hunk to the old text gives
    the old text back, not the new one. *)
Theorem generateDiff_drops_change :
  Diff.generateDiff diff_old diff_new "file"
  = "--- a/file
+++ b/file
@@ -1,3 +1,3 @@
 a
 b
 c"
  /\ Diff.applyDiff diff_old diff_new = Some diff_old
  /\ Diff.applyDiff diff_old diff_new <> Some diff_new.
Proof.
  repeat split; try (vm_compute; reflexivity).
  vm_compute. discriminate.
Qed.

(** Where the hunk ends at the end of both texts the change is kept. *)
Example generateDiff_short_text :
  Diff.applyDiff "a
b" "x
b" = Some "x
b".
Proof. vm_compute. reflexivity. Qed.

(** ** Ignore rules *)

(** What the loop of [isIgnored] computes: the last rule whose compiled
    expression matches decides. *)
Lemma isIgnored_last_match regexes relativePath :
  Ignore.isIgnored regexes relativePath
  = match last_match regexes relativePath with
    | Some r => negb (Ignore.negated r)
    | None => false
    end.
Proof.
  unfold Ignore.isIgnored, last_match.
  rewrite <- fold_left_rev_right.
  induction (rev regexes) as [|r l IH]; [reflexivity|].
  cbn [fold_right List.find].
  destruct (RegExp.test (Ignore.regex r) relativePath); [reflexivity|exact IH].
Qed.

(** C7.  With the rules [*.log] and [!keep.log], the path [keep.log] is
    still ignored: the expression of the negated rule is compiled from
    the pattern with its [!] left in, so it matches only a segment
    spelled [!keep.log] and never the path the rule is meant to
    re-include. *)
Theorem negated_rule_keeps_path_ignored :
  Ignore.globToRegexSource "!keep.log" = "(^|/)!keep\.log(/.*)?$"
  /\ ignored_by ["*.log"; "!keep.log"] "keep.log" = Some true
  /\ ignored_by ["*.log"] "keep.log" = Some true
  /\ ignored_by ["*.log"; "!keep.log"] "!keep.log" = Some false.
Proof.
  repeat split; vm_compute; reflexivity.
Qed.

(** ** Exceptions at the tool boundary *)

(** C6.  Errors of the file system cross the boundary of both tools as
    exceptions: deleting a path that is a directory, creating a file
    below a path that is a file, and searching in a file that cannot be
    read all raise, whereas a plain read of the same unreadable file is
    answered with the [IO_ERROR] envelope. *)
Theorem execute_raises :
  fst (FsWrite.execute "/" "/ws" (write_args "docs" "delete" None) boundary_fs)
  = Thrown (FsError "EISDIR")
  /\ fst (FsWrite.execute "/" "/ws"
            (write_args "docs/a.md/b.md" "create" (Some "x")) boundary_fs)
     = Thrown (FsError "EEXIST")
  /\ FsRead.execute "/" "/ws" boundary_fs (read_args "secret.md" (Some "x"))
     = Thrown (FsError "EACCES")
  /\ FsRead.execute "/" "/ws" boundary_fs (read_args "secret.md" None)
     = Returned (FsRead.Failure "secret.md" (Some "file")
                   (mkError IO_ERROR "EACCES: permission denied, open '/ws/secret.md'")
                   None None).
Proof.
  repeat split; vm_compute; reflexivity.
Qed.

(** ** The file system *)

Lemma find_entry_set_entry s x entries :
  FS.find_entry s (FS.set_entry s x entries) = Some x.
Proof.
  induction entries as [|[n y] r IH]; cbn [FS.set_entry FS.find_entry].
  - now rewrite String.eqb_refl.
  - destruct (String.eqb n s) eqn:E; cbn [FS.find_entry]; now rewrite E.
Qed.

Lemma alter_write_existing segs : forall n r c c',
  FS.lookup_segments n segs = Some (FS.File r c) ->
  exists n', FS.alter n segs (write_change c') = inr n'
             /\ FS.lookup_segments n' segs = Some (FS.File r c').
Proof.
  induction segs as [|s rest IH]; intros n r c c' H.
  - cbn in H. inversion H. subst n. cbn. eauto.
  - cbn [FS.lookup_segments] in H. destruct n as [|entries]; [discriminate|].
    destruct (FS.find_entry s entries) as [child|] eqn:Ef; [|discriminate].
    cbn [FS.alter]. rewrite Ef. destruct rest as [|s' rest'].
    + cbn in H. inversion H. subst child. cbn [write_change].
      eexists. split; [reflexivity|].
      cbn [FS.lookup_segments]. now rewrite find_entry_set_entry.
    + destruct (IH child r c c' H) as (child' & Ha & Hl).
      rewrite Ha. eexists. split; [reflexivity|].
      cbn [FS.lookup_segments] in *. now rewrite find_entry_set_entry.
Qed.

Lemma writeFile_existing f absPath r c c' :
  FS.lookup f absPath = Some (FS.File r c) ->
  exists f', FS.writeFile absPath c' f = (Returned tt, f')
             /\ FS.lookup f' absPath = Some (FS.File r c').
Proof.
  intro H. destruct (alter_write_existing _ _ _ _ c' H) as (n' & Ha & Hl).
  exists n'. unfold FS.writeFile. fold (write_change c'). now rewrite Ha.
Qed.

Lemma fileExists_found f absPath n :
  FS.lookup f absPath = Some n -> FsWrite.fileExists absPath f = (Returned true, f).
Proof.
  intro H. unfold FsWrite.fileExists, FS.try_catch, FS.bind, FS.access, FS.observe,
    FS.access_of. now rewrite H.
Qed.

Lemma readFile_found f absPath c :
  FS.lookup f absPath = Some (FS.File true c) ->
  FS.readFile absPath f = (Returned c, f).
Proof.
  intro H. unfold FS.readFile, FS.observe, FS.readFile_of. now rewrite H.
Qed.

(** ** Line ranges *)

Lemma line_count_pos s : (1 <= FsWrite.line_count s)%Z.
Proof.
  unfold FsWrite.line_count, JS.split_lines.
  pose proof (split_by_nonempty JS.is_nl s).
  destruct (JS.split_by JS.is_nl s); [contradiction|]. cbn [List.length]. lia.
Qed.

Lemma slice_all_but_last {A} (l : list A) :
  l <> [] -> JS.slice l 0 (0 - 1) = firstn (List.length l - 1) l.
Proof.
  intro H. unfold JS.slice, JS.slice_index.
  assert (0 < List.length l) by (destruct l; [contradiction|simpl; lia]).
  change (0 <? 0)%Z with false. change (0 - 1 <? 0)%Z with true. cbv iota.
  rewrite Z.min_l by lia. rewrite Z.max_l by lia.
  cbn [Z.to_nat skipn]. f_equal. lia.
Qed.

Lemma slice_from_zero {A} (l : list A) : JS.slice_from l 0 = l.
Proof.
  unfold JS.slice_from, JS.slice, JS.slice_index.
  change (0 <? 0)%Z with false. cbv iota.
  assert (E : (Z.of_nat (List.length l) <? 0)%Z = false) by (apply Z.ltb_ge; lia).
  rewrite E, Z.min_id, Z.min_l by lia.
  cbn [Z.to_nat skipn]. rewrite Z.sub_0_r, Nat2Z.id. apply firstn_all.
Qed.

Lemma deleteLines_zero content :
  Lines.deleteLines content 0 0
  = JS.join_lines
      (firstn (List.length (JS.split_lines content) - 1) (JS.split_lines content)
       ++ JS.split_lines content).
Proof.
  unfold Lines.deleteLines.
  rewrite slice_all_but_last by apply split_by_nonempty.
  now rewrite slice_from_zero.
Qed.

(** C10.  The range [0] parses to the pair (0, 0); an update that names
    it is not refused as out of range; and with [delete_lines] the file
    ends up holding its lines 1..N-1 followed by all of its N lines. *)
Theorem update_line_zero
  (f : FS.fs) (absPath relativePath content : string) (input : FsWrite.args) :
  FS.lookup f absPath = Some (FS.File true content) ->
  FileTypes.isTextFile absPath = true ->
  FsWrite.action input = Some "delete_lines" ->
  FsWrite.lines input = Some "0" ->
  truthy (FsWrite.checksum input) = false
  \/ FsWrite.checksum input = Some (Checksum.generateChecksum content) ->
  FsWrite.dryRun input = false ->
  let lines := JS.split_lines content in
  let doubled := JS.join_lines (firstn (List.length lines - 1) lines ++ lines) in
  Lines.parseLineRange "0" = Some (0, 0)%Z
  /\ exists res hint f',
       FsWrite.updateFile absPath relativePath input f
       = (Returned (FsWrite.Success relativePath "update" true res hint), f')
       /\ FS.readFile_of f' absPath = Returned doubled.
Proof.
  intros Hl Ht Ha Hn Hc Hd lines doubled.
  split; [vm_compute; reflexivity|].
  destruct (writeFile_existing f absPath true content doubled Hl) as (f' & Hw & Hl').
  do 2 eexists. exists f'. split.
  - unfold FsWrite.updateFile.
    unfold FS.bind at 1. rewrite (fileExists_found f absPath _ Hl).
    cbn [negb]. rewrite Ht, Ha, Hn. cbn [negb truthy String.eqb Ascii.eqb Bool.eqb andb].
    unfold FS.bind at 1. rewrite (readFile_found f absPath content Hl).
    assert (Hk : (truthy (FsWrite.checksum input)
                  && negb (String.eqb (FileSearch.opt "" (FsWrite.checksum input))
                             (Checksum.generateChecksum content)))%bool = false).
    { destruct Hc as [Hc|Hc]; rewrite Hc; [reflexivity|].
      cbn [FileSearch.opt]. rewrite String.eqb_refl. apply andb_false_r. }
    rewrite Hk. cbn [FileSearch.opt].
    replace (Lines.parseLineRange "0") with (Some (0, 0)%Z) by (vm_compute; reflexivity).
    assert (E : (0 >? FsWrite.line_count content)%Z = false).
    { pose proof (line_count_pos content). rewrite Z.gtb_ltb. apply Z.ltb_ge. lia. }
    rewrite E.
    unfold FsWrite.apply_action. rewrite Ha. cbn [FileSearch.opt].
    change (String.eqb "delete_lines" "replace") with false.
    change (String.eqb "delete_lines" "insert_before") with false.
    change (String.eqb "delete_lines" "insert_after") with false.
    change (String.eqb "delete_lines" "delete_lines") with true.
    cbv iota. cbn [FsWrite.targetStart FsWrite.targetEnd].
    rewrite Z.min_l by (pose proof (line_count_pos content); lia).
    rewrite deleteLines_zero. fold lines. fold doubled.
    unfold FsWrite.finish_update. rewrite Hd.
    unfold FS.bind. rewrite Hw. unfold FS.ret. reflexivity.
  - unfold FS.readFile_of. now rewrite Hl'.
Qed.

Lemma update_line_zero_witness :
  exists res hint f',
    FsWrite.updateFile "/ws/x.md" "x.md" zero_args zero_fs
    = (Returned (FsWrite.Success "x.md" "update" true res hint), f')
    /\ FS.readFile_of f' "/ws/x.md" = Returned "a
b
a
b
c".
Proof.
  exact (proj2 (update_line_zero zero_fs "/ws/x.md" "x.md" "a
b
c" zero_args eq_refl eq_refl eq_refl eq_refl (or_introl eq_refl) eq_refl)).
Defined.

(** ** The write guard *)

Lemma readFile_of_found f absPath content :
  FS.readFile_of f absPath = Returned content ->
  FS.lookup f absPath = Some (FS.File true content).
Proof.
  unfold FS.readFile_of.
  destruct (FS.lookup f absPath) as [[[|] c|]|]; intro H; inversion H. reflexivity.
Qed.

(** C2, as the code has it.  An update that carries a non-empty checksum
    different from the checksum of the file's current content never
    changes the file system and always fails; the failure is
    [CHECKSUM_MISMATCH] once the earlier guards are passed, that is when
    the file is a text file and the request names an action, and it is
    [NOT_TEXT] or [MISSING_ACTION] otherwise. *)
Theorem update_stale_checksum
  (f : FS.fs) (absPath relativePath content supplied : string)
  (input : FsWrite.args) :
  FS.readFile_of f absPath = Returned content ->
  FsWrite.checksum input = Some supplied ->
  supplied <> "" ->
  supplied <> Checksum.generateChecksum content ->
  FsWrite.updateFile absPath relativePath input f
  = (Returned
       (if negb (FileTypes.isTextFile absPath) then
          FsWrite.fail_update relativePath NOT_TEXT "Cannot modify binary files" None
        else if negb (truthy (FsWrite.action input)) then
          FsWrite.fail_update relativePath MISSING_ACTION
            "action is required for update" None
        else stale_failure relativePath (Checksum.generateChecksum content)),
     f).
Proof.
  intros Hr Hc Hne Hdiff.
  pose proof (readFile_of_found _ _ _ Hr) as Hl.
  unfold FsWrite.updateFile.
  unfold FS.bind at 1. rewrite (fileExists_found f absPath _ Hl). cbn [negb].
  destruct (FileTypes.isTextFile absPath); cbn [negb]; [|reflexivity].
  destruct (truthy (FsWrite.action input)); cbn [negb]; [|reflexivity].
  unfold FS.bind at 1. rewrite (readFile_found f absPath content Hl).
  rewrite Hc. cbn [truthy FileSearch.opt].
  apply String.eqb_neq in Hne, Hdiff. rewrite Hne, Hdiff. reflexivity.
Qed.

Lemma update_stale_checksum_witness :
  FsWrite.updateFile "/ws/x.md" "x.md" (stale_args (Some "replace")) guard_fs
  = (Returned (stale_failure "x.md" "ca978112ca1b"), guard_fs).
Proof.
  apply (update_stale_checksum guard_fs "/ws/x.md" "x.md" "a" "000000000000"
           (stale_args (Some "replace")) eq_refl eq_refl).
  - discriminate.
  - vm_compute. discriminate.
Defined.

(** C2 as stated fails: the guards on the file type and on the action
    come before the checksum is looked at, so a stale checksum is
    answered [MISSING_ACTION] on a request without an action and
    [NOT_TEXT] on a binary file; and an empty checksum counts as none, so
    the edit it comes with is applied. *)
Lemma update_stale_checksum_other_code :
  Checksum.generateChecksum "a" <> "000000000000"
  /\ FS.readFile_of guard_fs "/ws/x.md" = Returned "a"
  /\ fst (FsWrite.updateFile "/ws/x.md" "x.md" (stale_args None) guard_fs)
     = Returned (FsWrite.fail_update "x.md" MISSING_ACTION
                   "action is required for update" None)
  /\ fst (FsWrite.updateFile "/ws/x.md" "x.md" (stale_args None) guard_fs)
     <> Returned (stale_failure "x.md" (Checksum.generateChecksum "a"))
  /\ fst (FsWrite.updateFile "/ws/x.bin" "x.bin" (stale_args (Some "replace")) guard_fs)
     = Returned (FsWrite.fail_update "x.bin" NOT_TEXT "Cannot modify binary files" None)
  /\ FS.readFile_of
       (snd (FsWrite.updateFile "/ws/x.md" "x.md" empty_checksum_args guard_fs))
       "/ws/x.md"
     = Returned "B".
Proof.
  repeat split; try (vm_compute; reflexivity); vm_compute; discriminate.
Qed.

(** ** Lines *)

Lemma split_by_free sep s : Forall (fun l => free_of sep l = true) (JS.split_by sep s).
Proof.
  induction s as [|c r IH]; cbn [JS.split_by].
  - now constructor.
  - destruct (sep c) eqn:Hc.
    + now constructor.
    + destruct (JS.split_by sep r) as [|h t].
      * constructor; [|constructor]. unfold free_of. cbn. now rewrite Hc.
      * inversion IH as [|? ? Hh Ht]; subst. constructor; [|assumption].
        unfold free_of in *. cbn [JS.all_chars]. now rewrite Hc, Hh.
Qed.

Lemma split_by_of_free sep x : free_of sep x = true -> JS.split_by sep x = [x].
Proof.
  unfold free_of. induction x as [|c r IH]; [reflexivity|].
  cbn [JS.all_chars]. intro H. apply andb_true_iff in H. destruct H as [Hc Hr].
  apply negb_true_iff in Hc. rewrite split_by_cons by assumption. now rewrite IH.
Qed.

Lemma split_by_app_sep sep x c rest :
  free_of sep x = true -> sep c = true ->
  JS.split_by sep (x ++ String c rest) = x :: JS.split_by sep rest.
Proof.
  unfold free_of. intros Hx Hc. induction x as [|a r IH].
  - cbn [append]. now rewrite split_by_sep.
  - cbn [JS.all_chars] in Hx. apply andb_true_iff in Hx. destruct Hx as [Ha Hr].
    apply negb_true_iff in Ha. cbn [append].
    rewrite split_by_cons by assumption. now rewrite IH.
Qed.

Lemma split_lines_join_lines l :
  l <> [] -> Forall (fun x => free_of JS.is_nl x = true) l ->
  JS.split_lines (JS.join_lines l) = l.
Proof.
  unfold JS.split_lines, JS.join_lines.
  induction l as [|x [|y t] IH]; intros Hne Hf; [contradiction| |].
  - inversion Hf; subst. now apply split_by_of_free.
  - inversion Hf as [|? ? Hx Hr]; subst.
    change (JS.join (String JS.nl "") (x :: y :: t))
      with (x ++ String JS.nl (JS.join (String JS.nl "") (y :: t))).
    rewrite split_by_app_sep by (assumption || reflexivity).
    rewrite IH; [reflexivity|discriminate|assumption].
Qed.

Lemma Forall_firstn {A} (P : A -> Prop) n l : Forall P l -> Forall P (firstn n l).
Proof.
  intro H. revert n. induction H; intros [|n]; cbn; constructor; auto.
Qed.

Lemma extractLines_preview content :
  100 < List.length (JS.split_lines content) ->
  Lines.text (Lines.extractLines content 1 100)
  = JS.join_lines (firstn 100 (JS.split_lines content)).
Proof.
  intro H. unfold Lines.extractLines. cbn [Lines.text].
  unfold JS.slice, JS.slice_index.
  change (Z.max 1 1 - 1)%Z with 0%Z. change (0 <? 0)%Z with false. cbv iota.
  rewrite (Z.min_r _ 100) by lia. change (100 <? 0)%Z with false. cbv iota.
  rewrite Z.min_l, Z.min_l by lia. reflexivity.
Qed.

Lemma addLineNumbers_of_lines l :
  l <> [] -> Forall (fun x => free_of JS.is_nl x = true) l ->
  Lines.addLineNumbers (JS.join_lines l) 1
  = JS.join_lines
      (Lines.number_lines
         (String.length (JS.Z_to_string (Z.of_nat (List.length l)))) 1 l).
Proof.
  intros Hne Hf. unfold Lines.addLineNumbers.
  rewrite split_lines_join_lines by assumption.
  replace (1 + Z.of_nat (List.length l) - 1)%Z with (Z.of_nat (List.length l)) by lia.
  reflexivity.
Qed.

(** C8.  A read of a text file with no line range answers with the
    numbered lines 1 to 100, [truncated] set and the range (1, 100) when
    the content has more than 100 lines, and with every line numbered,
    [truncated] unset and no range otherwise. *)
Theorem readFile_preview
  (f : FS.fs) (absPath relativePath content : string) (lines : option string) :
  FileTypes.isTextFile absPath = true ->
  FS.readFile_of f absPath = Returned content ->
  truthy lines = false ->
  let all := JS.split_lines content in
  let long := 100 <? List.length all in
  exists hint,
    FsRead.readFile f absPath relativePath lines
    = FsRead.FileResult relativePath
        (FsRead.mkContent (JS.join_lines (preview all))
           (Checksum.generateChecksum content) (List.length all)
           (if long then Some (1, 100)%Z else None) long)
        hint.
Proof.
  intros Ht Hr Hl all long.
  unfold FsRead.readFile. rewrite Ht, Hr, Hl. cbn [negb].
  fold all. unfold preview. fold long.
  assert (E : (Z.of_nat (List.length all) >? 100)%Z = long).
  { unfold long. rewrite Z.gtb_ltb.
    destruct (100 <? List.length all) eqn:El.
    - apply Nat.ltb_lt in El. apply Z.ltb_lt. lia.
    - apply Nat.ltb_ge in El. apply Z.ltb_ge. lia. }
  rewrite E. destruct long eqn:El.
  - apply Nat.ltb_lt in El. eexists.
    rewrite extractLines_preview by exact El. fold all.
    rewrite addLineNumbers_of_lines.
    + rewrite length_firstn, Nat.min_l by lia. reflexivity.
    + destruct all; [cbn in El; lia|discriminate].
    + apply Forall_firstn, split_by_free.
  - eexists. unfold Lines.addLineNumbers. fold all.
    replace (1 + Z.of_nat (List.length all) - 1)%Z
      with (Z.of_nat (List.length all)) by lia.
    reflexivity.
Qed.

Lemma readFile_preview_witness :
  exists hint,
    FsRead.readFile zero_fs "/ws/x.md" "x.md" None
    = FsRead.FileResult "x.md"
        (FsRead.mkContent "1|a
2|b
3|c" (Checksum.generateChecksum "a
b
c") 3 None false) hint.
Proof.
  exact (readFile_preview zero_fs "/ws/x.md" "x.md" "a
b
c" None eq_refl eq_refl eq_refl).
Defined.

(** A file of 101 lines is shown up to line 100. *)
Example readFile_truncates :
  summary (FsRead.readFile long_fs "/ws/long.md" "long.md" None)
  = Some (true, Some (1, 100)%Z, 100, 101).
Proof. vm_compute. reflexivity. Qed.

(** ** Literal patterns *)

Lemma step_normal_literal st c :
  RegExp.is_syntax_char c = false ->
  RegExp.step_normal st c = RegExp.push_item (RegExp.IAtom (RegExp.Chr c)) st.
Proof.
  destruct c as [[] [] [] [] [] [] [] []]; intro H;
    first [discriminate H | reflexivity].
Qed.

Lemma step_escape_syntax st c :
  RegExp.is_syntax_char c = true ->
  RegExp.step_escape st c = RegExp.push_item (RegExp.IAtom (RegExp.Chr c)) st.
Proof.
  destruct c as [[] [] [] [] [] [] [] []]; intro H;
    first [discriminate H | reflexivity].
Qed.

Lemma run_escapeRegex p : forall k alts cur fs,
  RegExp.run (RegExp.mkPState (RegExp.mkFrame k alts cur :: fs) RegExp.MNormal)
             (Patterns.escapeRegex p)
  = Some (RegExp.mkPState
            (RegExp.mkFrame k alts
               (rev (lit_items (list_ascii_of_string p)) ++ cur) :: fs)
            RegExp.MNormal).
Proof.
  induction p as [|c r IH]; intros k alts cur fs; [reflexivity|].
  cbn [Patterns.escapeRegex list_ascii_of_string lit_items map rev].
  fold (lit_items (list_ascii_of_string r)).
  rewrite <- app_assoc. cbn [app].
  destruct (RegExp.is_syntax_char c) eqn:Hc.
  - cbn [RegExp.run]. unfold RegExp.step at 1. cbn [RegExp.pmode].
    change (RegExp.step_normal ?s "\") with (Some (RegExp.set_mode RegExp.MEscape s)).
    unfold RegExp.step at 1. cbn [RegExp.pmode RegExp.set_mode].
    rewrite step_escape_syntax by assumption.
    cbn [RegExp.push_item RegExp.stack RegExp.fkind RegExp.falts RegExp.fcur].
    apply IH.
  - cbn [RegExp.run]. unfold RegExp.step at 1. cbn [RegExp.pmode].
    rewrite step_normal_literal by assumption.
    cbn [RegExp.push_item RegExp.stack RegExp.fkind RegExp.falts RegExp.fcur].
    apply IH.
Qed.

Lemma seq_of_lit_items cs :
  RegExp.seq_of (rev (lit_items cs)) = lit_re cs.
Proof.
  unfold RegExp.seq_of, lit_re, lit_items.
  rewrite <- fold_left_rev_right, rev_involutive.
  induction cs as [|c r IH]; [reflexivity|]. cbn. now rewrite IH.
Qed.

Lemma parse_escapeRegex p :
  RegExp.parse (Patterns.escapeRegex p) = Some (lit_re (list_ascii_of_string p)).
Proof.
  unfold RegExp.parse, RegExp.initial. rewrite run_escapeRegex.
  unfold RegExp.finish. cbn [RegExp.pmode RegExp.stack].
  unfold RegExp.close_frame. cbn [RegExp.falts RegExp.fcur fold_left].
  now rewrite app_nil_r, seq_of_lit_items.
Qed.

Lemma prefixb_length ps s : prefixb ps s = true -> List.length ps <= List.length s.
Proof.
  revert s. induction ps as [|p ps IH]; intros [|c s] H; cbn in *; try lia;
    try discriminate.
  apply andb_true_iff in H. destruct H as [_ H]. apply IH in H. lia.
Qed.

Lemma mt_lit fl ps : forall k bef aft,
  RegExp.ignoreCase fl = false ->
  RegExp.mt fl (lit_re ps) k (RegExp.mkPos bef aft)
  = if prefixb ps aft
    then k (RegExp.mkPos (rev ps ++ bef)%list (skipn (List.length ps) aft))
    else None.
Proof.
  induction ps as [|p ps IH]; intros k bef aft Hi; [reflexivity|].
  cbn [lit_re fold_right RegExp.mt]. fold (lit_re ps).
  unfold RegExp.consume. cbn [RegExp.after RegExp.before].
  destruct aft as [|a t]; [reflexivity|].
  unfold RegExp.char_eq. rewrite Hi. cbn [prefixb].
  destruct (Ascii.eqb a p) eqn:E; [|reflexivity].
  apply Ascii.eqb_eq in E. subst a. rewrite IH by assumption.
  cbn [andb List.length skipn rev]. now rewrite <- app_assoc.
Qed.

Lemma search_lit fl ps : forall aft bef,
  RegExp.ignoreCase fl = false ->
  RegExp.search (RegExp.mkRegExp (lit_re ps) fl) bef aft
  = find_lit ps (List.length bef) aft.
Proof.
  induction aft as [|a t IH]; intros bef Hi.
  - cbn [RegExp.search find_lit RegExp.body RegExp.rflags].
    rewrite mt_lit by assumption.
    destruct (prefixb ps []); [|reflexivity].
    unfold RegExp.index_of. cbn [RegExp.before].
    now rewrite length_app, length_rev, Nat.add_comm.
  - cbn [RegExp.search find_lit RegExp.body RegExp.rflags].
    rewrite mt_lit by assumption.
    destruct (prefixb ps (a :: t)).
    + unfold RegExp.index_of. cbn [RegExp.before].
      now rewrite length_app, length_rev, Nat.add_comm.
    + now rewrite IH.
Qed.

Lemma occ_idx_skip ps : forall skip j r,
  skip <= List.length r ->
  occ_idx ps skip j r = occ_idx ps 0 (j + skip) (skipn skip r).
Proof.
  induction skip as [|k IH]; intros j r H.
  - now rewrite Nat.add_0_r.
  - destruct r as [|c r]; [cbn in H; lia|].
    cbn [occ_idx skipn]. rewrite IH by (cbn in H; lia). f_equal. lia.
Qed.

Lemma occ_idx_unroll ps (cs : list ascii) : forall s pre : list ascii,
  cs = (pre ++ s)%list ->
  occ_idx ps 0 (List.length pre) s
  = match find_lit ps (List.length pre) s with
    | None => []
    | Some (j, e) => j :: occ_at ps (if j =? e then S e else e) cs
    end.
Proof.
  induction s as [|c r IH]; intros pre Hcs.
  - cbn [occ_idx find_lit]. destruct (prefixb ps []) eqn:Hp; [|reflexivity].
    destruct ps; [|discriminate]. cbn [List.length]. rewrite Nat.add_0_r, Nat.eqb_refl.
    unfold occ_at. subst cs. rewrite app_nil_r.
    now rewrite (proj2 (Nat.ltb_lt _ _) (Nat.lt_succ_diag_r _)).
  - cbn [occ_idx find_lit]. destruct (prefixb ps (c :: r)) eqn:Hp.
    + f_equal. pose proof (prefixb_length _ _ Hp) as Hlen. cbn [List.length] in Hlen.
      unfold occ_at.
      assert (Hcl : List.length cs = List.length pre + S (List.length r))
        by (subst cs; now rewrite length_app).
      destruct (List.length ps) as [|n] eqn:Hn.
      * rewrite Nat.add_0_r, Nat.eqb_refl.
        rewrite (proj2 (Nat.ltb_ge _ _)) by lia.
        subst cs. replace (S (List.length pre)) with (List.length pre + 1) by lia.
        rewrite skipn_app, (skipn_all2 pre) by lia.
        replace (List.length pre + 1 - List.length pre) with 1 by lia. reflexivity.
      * replace (List.length pre =? List.length pre + S n) with false
          by (symmetry; apply Nat.eqb_neq; lia).
        rewrite (proj2 (Nat.ltb_ge _ _)) by lia.
        rewrite occ_idx_skip by lia.
        subst cs. rewrite skipn_app, (skipn_all2 pre) by lia.
        replace (List.length pre + S n - List.length pre) with (S n) by lia.
        cbn [app skipn]. replace (S n - 1) with n by lia.
        f_equal. lia.
    + specialize (IH (pre ++ [c])%list). rewrite length_app in IH. cbn [List.length] in IH.
      replace (List.length pre + 1) with (S (List.length pre)) in IH by lia.
      apply IH. subst cs. now rewrite <- app_assoc.
Qed.

Lemma exec_lit fl ps content i :
  RegExp.global fl = true -> RegExp.ignoreCase fl = false ->
  RegExp.exec (RegExp.mkRegExp (lit_re ps) fl) content i
  = if List.length (list_ascii_of_string content) <? i then None
    else find_lit ps i (skipn i (list_ascii_of_string content)).
Proof.
  intros Hg Hi. unfold RegExp.exec, RegExp.search_from. cbn [RegExp.rflags].
  rewrite Hg. destruct (List.length (list_ascii_of_string content) <? i) eqn:E;
    [reflexivity|].
  apply Nat.ltb_ge in E. rewrite search_lit by assumption.
  now rewrite length_rev, length_firstn, Nat.min_l.
Qed.

Lemma find_lit_end ps : forall s i j e,
  find_lit ps i s = Some (j, e) -> e = j + List.length ps.
Proof.
  induction s as [|c r IH]; intros i j e H; cbn [find_lit] in H.
  - destruct (prefixb ps []); inversion H. reflexivity.
  - destruct (prefixb ps (c :: r)); [inversion H; reflexivity|].
    now apply IH in H.
Qed.

Lemma scan_lit fl ps content :
  RegExp.global fl = true -> RegExp.ignoreCase fl = false ->
  forall remaining i,
    Patterns.scan (RegExp.mkRegExp (lit_re ps) fl) content remaining i
    = map (fun j => Patterns.located content j (j + List.length ps))
          (firstn remaining (occ_at ps i (list_ascii_of_string content))).
Proof.
  intros Hg Hi. induction remaining as [|n IH]; intro i; [reflexivity|].
  cbn [Patterns.scan]. rewrite exec_lit by assumption. unfold occ_at at 1.
  destruct (List.length (list_ascii_of_string content) <? i) eqn:E; [reflexivity|].
  apply Nat.ltb_ge in E.
  pose proof (occ_idx_unroll ps (list_ascii_of_string content)
                (skipn i (list_ascii_of_string content))
                (firstn i (list_ascii_of_string content))
                (eq_sym (firstn_skipn _ _))) as U.
  rewrite length_firstn, Nat.min_l in U by assumption. rewrite U.
  destruct (find_lit ps i (skipn i (list_ascii_of_string content))) as [[j e]|] eqn:F;
    [|reflexivity].
  apply find_lit_end in F. subst e.
  cbn [RegExp.rflags]. rewrite Hg. cbn [map firstn].
  now rewrite IH.
Qed.

Lemma length_list_ascii_of_string s :
  List.length (list_ascii_of_string s) = String.length s.
Proof. induction s; cbn; congruence. Qed.

Lemma findMatches_literal content pattern o :
  literal_options o ->
  Patterns.findMatches content pattern "literal" o
  = Returned (literal_matches pattern content
                (Patterns.default 1000 (Patterns.maxMatches o))).
Proof.
  intros [Hc Hw]. unfold Patterns.findMatches, Patterns.buildPattern.
  rewrite Hw. cbn [Patterns.pattern_source String.eqb Ascii.eqb Bool.eqb].
  unfold RegExp.compile. rewrite parse_escapeRegex.
  unfold Patterns.pattern_flags. rewrite Hc.
  assert (Hf : exists fl,
             RegExp.parse_flags (RegExp.mkFlags false false false false)
               ("g" ++ (if Patterns.multiline o then "s" else "") ++ "") = Some fl
             /\ RegExp.global fl = true /\ RegExp.ignoreCase fl = false).
  { destruct (Patterns.multiline o); eexists; repeat split; reflexivity. }
  destruct Hf as (fl & Hf & Hg & Hi). rewrite Hf, scan_lit by assumption.
  unfold literal_matches, occ_at, occurrences.
  now rewrite length_list_ascii_of_string.
Qed.

Lemma literal_options_with_maxMatches o n :
  literal_options o -> literal_options (Patterns.with_maxMatches o n).
Proof. intros [Hc Hw]. split; assumption. Qed.

Lemma findMatches_literal_capped content pattern o n :
  literal_options o ->
  Patterns.findMatches content pattern "literal" (Patterns.with_maxMatches o n)
  = Returned (literal_matches pattern content n).
Proof.
  intro Ho.
  now rewrite (findMatches_literal content pattern _
                 (literal_options_with_maxMatches o n Ho)).
Qed.

Lemma literal_matches_length pattern content n :
  List.length (literal_matches pattern content n)
  = Nat.min n (List.length (occurrences pattern content)).
Proof. unfold literal_matches. rewrite length_map. apply length_firstn. Qed.

Lemma append_assoc (a b c : string) : (a ++ b) ++ c = a ++ (b ++ c).
Proof. induction a as [|x r IH]; cbn; [reflexivity|now rewrite IH]. Qed.

Lemma take_drop n s : JS.take n s ++ JS.drop n s = s.
Proof.
  revert s. induction n as [|n IH]; intros [|c r]; cbn; try reflexivity.
  now rewrite IH.
Qed.

Lemma take_app_le n a b :
  n <= String.length a -> JS.take n (a ++ b) = JS.take n a.
Proof.
  revert a. induction n as [|n IH]; intros [|c r] H; cbn in *; try reflexivity; try lia.
  now rewrite IH by lia.
Qed.

Lemma take_take n m s : n <= m -> JS.take n (JS.take m s) = JS.take n s.
Proof.
  revert m s. induction n as [|n IH]; intros [|m] [|c r] H; cbn; try reflexivity; try lia.
  now rewrite IH by lia.
Qed.

Lemma drop_app_length a b : JS.drop (String.length a) (a ++ b) = b.
Proof. induction a as [|c r IH]; cbn; [now destruct b|exact IH]. Qed.

Lemma take_add n m s : JS.take (n + m) s = JS.take n s ++ JS.take m (JS.drop n s).
Proof.
  revert s. induction n as [|n IH]; intros [|c r]; cbn; try reflexivity.
  - now destruct m.
  - now rewrite IH.
Qed.

Lemma drop_drop n m s : JS.drop m (JS.drop n s) = JS.drop (n + m) s.
Proof.
  revert s. induction n as [|n IH]; intros [|c r]; cbn; try reflexivity.
  - now destruct m.
  - apply IH.
Qed.

Lemma substring_length j len s :
  j + len <= String.length s -> String.length (String.substring j len s) = len.
Proof.
  revert j len. induction s as [|c r IH]; intros j len H; cbn in H.
  - assert (j = 0) by lia. assert (len = 0) by lia. subst. reflexivity.
  - destruct j as [|j]; cbn.
    + destruct len as [|len]; [reflexivity|]. cbn. rewrite IH by lia. reflexivity.
    + apply IH. lia.
Qed.

Lemma spaced_weaken len base base' bound js :
  base' <= base -> spaced len base bound js -> spaced len base' bound js.
Proof.
  destruct js as [|j js]; [trivial|]. cbn. intros H (H1 & H2 & H3).
  repeat split; try assumption. lia.
Qed.

Lemma spaced_firstn len bound n : forall js base,
  spaced len base bound js -> spaced len base bound (firstn n js).
Proof.
  induction n as [|n IH]; intros [|j js] base H; cbn in *; trivial.
  destruct H as (H1 & H2 & H3). repeat split; auto.
Qed.

Lemma occ_idx_spaced ps : forall s skip i,
  spaced (List.length ps) (i + skip) (i + List.length s) (occ_idx ps skip i s).
Proof.
  induction s as [|c r IH]; intros skip i.
  - cbn [occ_idx]. destruct skip; [|exact I].
    destruct (prefixb ps []) eqn:Hp; [|exact I].
    destruct ps; [|discriminate]. cbn. lia.
  - cbn [occ_idx List.length]. destruct skip as [|k].
    + destruct (prefixb ps (c :: r)) eqn:Hp.
      * pose proof (prefixb_length _ _ Hp) as Hl. cbn [List.length] in Hl.
        cbn [spaced]. repeat split; try lia.
        apply spaced_weaken with (base := S i + (List.length ps - 1)); [lia|].
        replace (i + S (List.length r)) with (S i + List.length r) by lia.
        apply IH.
      * apply spaced_weaken with (base := S i + 0); [lia|].
        replace (i + S (List.length r)) with (S i + List.length r) by lia.
        apply IH.
    + replace (i + S k) with (S i + k) by lia.
      replace (i + S (List.length r)) with (S i + List.length r) by lia.
      apply IH.
Qed.

Lemma occurrences_spaced pattern content n :
  spaced (String.length pattern) 0 (String.length content)
         (firstn n (occurrences pattern content)).
Proof.
  apply spaced_firstn. unfold occurrences.
  rewrite <- !length_list_ascii_of_string.
  exact (occ_idx_spaced (list_ascii_of_string pattern)
           (list_ascii_of_string content) 0 0).
Qed.

(** Replacing from the last occurrence to the first gives the text with
    the occurrences replaced from left to right. *)
Lemma splice_back_to_front len replacement c : forall js base,
  spaced len base (String.length c) js -> base <= String.length c ->
  fold_left (fun acc j => splice_at acc j len replacement) (rev js) c
  = JS.take base c ++ replace_each js len replacement base (JS.drop base c).
Proof.
  induction js as [|j js IH]; intros base Hs Hb.
  - cbn. now rewrite take_drop.
  - destruct Hs as (H1 & H2 & H3).
    cbn [rev]. rewrite fold_left_app. cbn [fold_left].
    rewrite (IH (j + len) H3 H2). unfold splice_at.
    rewrite take_app_le by (rewrite take_length; lia).
    rewrite take_take by lia.
    replace (JS.drop (j + len) (JS.take (j + len) c ++ _)) with
      (replace_each js len replacement (j + len) (JS.drop (j + len) c)).
    2:{ rewrite <- (take_length (j + len) c H2) at 3.
        now rewrite drop_app_length. }
    cbn [replace_each]. rewrite drop_drop.
    replace (base + (j - base + len)) with (j + len) by lia.
    replace j with (base + (j - base)) at 1 by lia.
    rewrite take_add, !append_assoc. reflexivity.
Qed.

Lemma spaced_bound len base bound js :
  spaced len base bound js -> Forall (fun j => j + len <= bound) js.
Proof.
  revert base. induction js as [|j js IH]; intros base H; constructor.
  - apply H.
  - destruct H as (_ & _ & H). now apply IH in H.
Qed.

Lemma fold_splice_located content len replacement (g : list nat -> Patterns.match_ -> list nat) :
  forall js acc lines,
    Forall (fun j => j + len <= String.length content) js ->
    fst (fold_left
           (fun st m => (Patterns.splice (fst st) m replacement, g (snd st) m))
           (map (fun j => Patterns.located content j (j + len)) js) (acc, lines))
    = fold_left (fun acc j => splice_at acc j len replacement) js acc.
Proof.
  induction js as [|j js IH]; intros acc lines H; [reflexivity|].
  inversion H as [|? ? Hj Hr]; subst. cbn [map fold_left fst snd].
  rewrite IH by assumption. f_equal.
  unfold Patterns.splice, splice_at, Patterns.located.
  cbn [Patterns.index Patterns.text]. unfold JS.substring.
  replace (j + len - j) with len by lia.
  now rewrite substring_length.
Qed.

(** C4, as the code has it.  When a literal pattern occurs k >= 2 times
    in a content, [findUniqueMatch] answers [multiple] with the count
    min(k, 10), since it looks for at most ten matches, and
    [replaceAllMatches] reports min(k, 10000) substitutions and returns
    the content with that many occurrences replaced, leftmost first; for
    k up to ten both counts are k. *)
Theorem pattern_ambiguity
  (content pattern replacement : string) (o : Patterns.options) :
  literal_options o ->
  let k := List.length (occurrences pattern content) in
  2 <= k ->
  (exists lines,
     Patterns.findUniqueMatch content pattern "literal" o
     = Returned (Patterns.Multiple (Nat.min 10 k) lines)
     /\ List.length lines = Nat.min 10 k)
  /\ (exists r,
        Patterns.replaceAllMatches content pattern replacement "literal" o
        = Returned r
        /\ Patterns.count r = Nat.min 10000 k
        /\ Patterns.newContent r
           = replace_each (firstn 10000 (occurrences pattern content))
               (String.length pattern) replacement 0 content)
  /\ (k <= 10 -> Nat.min 10 k = k /\ Nat.min 10000 k = k).
Proof.
  intros Ho k Hk. split; [|split].
  - pose proof (literal_matches_length pattern content 10) as Hl. fold k in Hl.
    unfold Patterns.findUniqueMatch.
    rewrite findMatches_literal_capped by assumption.
    destruct (literal_matches pattern content 10) as [|m1 [|m2 ms]].
    + cbn [List.length] in Hl. lia.
    + cbn [List.length] in Hl. lia.
    + exists (map Patterns.line (m1 :: m2 :: ms)). rewrite length_map, Hl.
      split; reflexivity.
  - pose proof (literal_matches_length pattern content 10000) as Hl. fold k in Hl.
    unfold Patterns.replaceAllMatches.
    rewrite findMatches_literal_capped by assumption.
    destruct (literal_matches pattern content 10000) as [|m1 ms] eqn:Em.
    + exfalso. cbn [List.length] in Hl.
      destruct (Nat.min_dec 10000 k) as [E|E]; rewrite E in Hl; [|lia].
      apply (f_equal (Nat.leb 1)) in Hl. vm_compute in Hl. discriminate Hl.
    + cbv iota. rewrite <- Em in Hl |- *. clear Em.
      pose proof (occurrences_spaced pattern content 10000) as Hsp.
      pose proof (fold_splice_located content (String.length pattern) replacement
                    (fun l m => Patterns.add_line (Patterns.line m) l)
                    (rev (firstn 10000 (occurrences pattern content))) content []
                    (Forall_rev (spaced_bound _ _ _ _ Hsp))) as Hf.
      rewrite map_rev in Hf. fold (literal_matches pattern content 10000) in Hf.
      rewrite (splice_back_to_front _ _ _ _ 0 Hsp (Nat.le_0_l _)) in Hf.
      cbn [JS.take JS.drop append] in Hf.
      destruct (fold_left _ (rev (literal_matches pattern content 10000)) (content, []))
        as [nc af].
      cbn [fst] in Hf. subst nc.
      eexists. split; [reflexivity|]. cbn [Patterns.count Patterns.newContent].
      split; [exact Hl|reflexivity].
  - intro Hle. split; [apply Nat.min_r; exact Hle|].
    apply Nat.min_r. apply Nat.le_trans with (m := 10); [exact Hle|].
    now apply Nat.leb_le.
Qed.

Lemma pattern_ambiguity_witness :
  (exists lines,
     Patterns.findUniqueMatch "foo bar foo" "foo" "literal" Patterns.no_options
     = Returned (Patterns.Multiple 2 lines)
     /\ List.length lines = 2)
  /\ (exists r,
        Patterns.replaceAllMatches "foo bar foo" "foo" "x" "literal" Patterns.no_options
        = Returned r
        /\ Patterns.count r = 2
        /\ Patterns.newContent r = "x bar x").
Proof.
  destruct (pattern_ambiguity "foo bar foo" "foo" "x" Patterns.no_options
              (conj eq_refl eq_refl) (le_n 2)) as (H1 & (r & Hr & Hc & Hn) & _).
  split; [exact H1|]. exists r. repeat split; [exact Hr|exact Hc|exact Hn].
Defined.

(** C4 as stated fails beyond ten occurrences: eleven occurrences are
    reported as ten. *)
Lemma findUniqueMatch_count_capped :
  List.length (occurrences "a" "aaaaaaaaaaa") = 11
  /\ Patterns.findUniqueMatch "aaaaaaaaaaa" "a" "literal" Patterns.no_options
     = Returned (Patterns.Multiple 10 [1; 1; 1; 1; 1; 1; 1; 1; 1; 1]).
Proof.
  split; vm_compute; reflexivity.
Qed.

(** Occurrences are counted as the scan finds them, not overlapping: in
    [aaa] the pattern [aa] is found once. *)
Example findUniqueMatch_overlapping :
  occurrences "aa" "aaa" = [0]
  /\ Patterns.findUniqueMatch "aaa" "aa" "literal" Patterns.no_options
     = Returned (Patterns.Unique (Patterns.mkMatch 0 "aa" 1 1)).
Proof. split; vm_compute; reflexivity. Qed.

(** ** Name search *)









Lemma subseq_nil_r q : subseq q [] = true -> q = [].
Proof. destruct q; [reflexivity|discriminate]. Qed.

Lemma subseq_tail a q t : subseq (a :: q) t = true -> subseq q t = true.
Proof.
  revert a q. induction t as [|c t IH]; intros a q H; [discriminate|].
  cbn [subseq] in H. apply orb_true_iff in H.
  destruct q as [|b q]; [reflexivity|]. cbn [subseq]. apply orb_true_iff.
  destruct H as [H|H].
  - apply andb_true_iff in H. destruct H as [_ H]. now right.
  - right. now apply IH with (a := a).
Qed.

Lemma scan_indices_complete t : forall q i,
  subseq q t = true -> snd (FileSearch.scan_indices q t i) = [].
Proof.
  induction t as [|c t IH]; intros q i H.
  - apply subseq_nil_r in H. now subst q.
  - destruct q as [|a q]; [reflexivity|].
    cbn [FileSearch.scan_indices]. cbn [subseq] in H.
    destruct (Ascii.eqb c a) eqn:E.
    + assert (Hq : subseq q t = true).
      { apply orb_true_iff in H. destruct H as [H|H]; [easy|].
        now apply subseq_tail in H. }
      specialize (IH q (S i) Hq).
      destruct (FileSearch.scan_indices q t (S i)) as [ix rest]. exact IH.
    + cbn [andb orb] in H. now apply IH.
Qed.








Lemma insert_scored_perm x l : Permutation (FileSearch.insert_scored x l) (x :: l).
Proof.
  induction l as [|y r IH]; [reflexivity|].
  cbn [FileSearch.insert_scored].
  destruct (FileSearch.score y >=? FileSearch.score x)%Z; [|reflexivity].
  rewrite IH. apply perm_swap.
Qed.

Lemma sort_scored_perm l : Permutation (FileSearch.sort_scored l) l.
Proof.
  unfold FileSearch.sort_scored.
  assert (G : forall acc,
             Permutation (fold_left (fun acc x => FileSearch.insert_scored x acc) l acc)
                         (l ++ acc)%list).
  { induction l as [|x r IH]; intro acc; [reflexivity|].
    cbn [fold_left]. rewrite IH, insert_scored_perm.
    cbn [app]. symmetry. apply Permutation_middle. }
  rewrite G. now rewrite app_nil_r.
Qed.


Lemma score_entry_sentry root q e sc :
  FileSearch.score_entry root q e = Some sc -> FileSearch.sentry sc = e.
Proof.
  unfold FileSearch.score_entry.
  destruct (String.eqb q ""); [intro H; now inversion H|].
  destruct (FileSearch.fuzzyMatch q (FileSearch.fileName e)),
           (FileSearch.fuzzyMatch q (FileSearch.relativePath e));
    intro H; inversion H; reflexivity.
Qed.



Lemma length_append a b : String.length (a ++ b) = String.length a + String.length b.
Proof. induction a as [|c a IH]; cbn; [reflexivity|now rewrite IH]. Qed.

Lemma take_app_length a b : JS.take (String.length a) (a ++ b) = a.
Proof. induction a as [|c a IH]; cbn; [now destruct b|now rewrite IH]. Qed.










Lemma glob_body_nil : glob_body "" = "".
Proof. reflexivity. Qed.







(** *** The expression of a plain rule compiles *)











Lemma starts_star_app a b :
  a <> "" -> starts_star (a ++ b) = starts_star a.
Proof. destruct a; [contradiction|reflexivity]. Qed.














Example within_reach_search_fs :
  map FileSearch.relativePath
    (within_reach search_fs "/ws" (matcher_of search_fs "/ws"))
  = ["a/config.js"; "b/config.js"; "b/Notes.md"]
  /\ map FileSearch.relativePath
       (filter (same_name "notes.md")
          (within_reach search_fs "/ws" (matcher_of search_fs "/ws")))
     = ["b/Notes.md"].
Proof. split; vm_compute; reflexivity. Qed.


(** * Further properties of the code *)

(** ** Line edits, line ranges and the reader of the registry *)

(** ** Lines: list view of the line operations *)

Lemma join_lines_split_lines s : JS.join_lines (JS.split_lines s) = s.
Proof.
  unfold JS.join_lines, JS.split_lines.
  induction s as [|c r IH]; [reflexivity|].
  cbn [JS.split_by]. destruct (JS.is_nl c) eqn:Hc.
  - unfold JS.is_nl in Hc. apply Ascii.eqb_eq in Hc. subst c.
    pose proof (split_by_nonempty JS.is_nl r) as Hne.
    destruct (JS.split_by JS.is_nl r) as [|h t] eqn:E; [contradiction|].
    cbn [JS.join append]. now rewrite <- IH.
  - pose proof (split_by_nonempty JS.is_nl r) as Hne.
    destruct (JS.split_by JS.is_nl r) as [|h t] eqn:E; [contradiction|].
    rewrite <- IH. destruct t; reflexivity.
Qed.

Lemma split_lines_free s : Forall (fun l => free_of JS.is_nl l = true) (JS.split_lines s).
Proof. apply split_by_free. Qed.

Lemma join_cons_nonempty sep x l :
  l <> [] -> JS.join sep (x :: l) = x ++ sep ++ JS.join sep l.
Proof. destruct l; [contradiction|reflexivity]. Qed.

Lemma split_by_app sep x c rest :
  sep c = true ->
  JS.split_by sep (x ++ String c rest) = (JS.split_by sep x ++ JS.split_by sep rest)%list.
Proof.
  intro Hc. induction x as [|a r IH].
  - cbn [append]. now rewrite split_by_sep.
  - cbn [append]. cbn [JS.split_by]. destruct (sep a) eqn:Ha.
    + now rewrite IH.
    + rewrite IH. pose proof (split_by_nonempty sep r) as Hne.
      destruct (JS.split_by sep r); [contradiction|reflexivity].
Qed.

Lemma split_lines_join_any l :
  l <> [] -> JS.split_lines (JS.join_lines l) = flat_map JS.split_lines l.
Proof.
  unfold JS.split_lines, JS.join_lines.
  induction l as [|x [|y t] IH]; intro Hne; [contradiction| |].
  - cbn. now rewrite app_nil_r.
  - change (JS.join (String JS.nl "") (x :: y :: t))
      with (x ++ String JS.nl (JS.join (String JS.nl "") (y :: t))).
    rewrite split_by_app by reflexivity.
    rewrite IH by discriminate. reflexivity.
Qed.

Lemma flat_map_split_free l :
  Forall (fun x => free_of JS.is_nl x = true) l -> flat_map JS.split_lines l = l.
Proof.
  induction 1 as [|x l Hx Hl IH]; [reflexivity|].
  cbn [flat_map]. unfold JS.split_lines at 1. rewrite split_by_of_free by assumption.
  now rewrite IH.
Qed.

Lemma slice_mid {A} (l : list A) (a b : Z) :
  (0 <= a)%Z -> (0 <= b)%Z ->
  JS.slice l a b = firstn (Z.to_nat b - Z.to_nat a) (skipn (Z.to_nat a) l).
Proof.
  intros Ha Hb. unfold JS.slice, JS.slice_index.
  assert (Ea : (a <? 0)%Z = false) by (apply Z.ltb_ge; lia).
  assert (Eb : (b <? 0)%Z = false) by (apply Z.ltb_ge; lia).
  rewrite Ea, Eb.
  destruct (Z_le_gt_dec a (Z.of_nat (List.length l))) as [Hal|Hal].
  - rewrite (Z.min_l a) by lia.
    destruct (Z_le_gt_dec b (Z.of_nat (List.length l))) as [Hbl|Hbl].
    + rewrite Z.min_l by lia. f_equal. lia.
    + rewrite Z.min_r by lia.
      rewrite !firstn_all2; [reflexivity| |]; rewrite length_skipn; lia.
  - rewrite (Z.min_r a) by lia. rewrite Nat2Z.id.
    rewrite !skipn_all2 by lia. now rewrite !firstn_nil.
Qed.

Lemma slice_prefix {A} (l : list A) (k : Z) :
  (0 <= k)%Z -> JS.slice l 0 k = firstn (Z.to_nat k) l.
Proof.
  intro Hk. rewrite slice_mid by lia. cbn [Z.to_nat skipn]. f_equal. lia.
Qed.

Lemma slice_from_nonneg {A} (l : list A) (k : Z) :
  (0 <= k)%Z -> JS.slice_from l k = skipn (Z.to_nat k) l.
Proof.
  intro Hk. unfold JS.slice_from. rewrite slice_mid by lia.
  rewrite Nat2Z.id. apply firstn_all2. rewrite length_skipn. lia.
Qed.

Lemma splice_insert_nonneg {A} (l : list A) (i : Z) (x : A) :
  (0 <= i <= Z.of_nat (List.length l))%Z ->
  Lines.splice_insert l i x = (firstn (Z.to_nat i) l ++ x :: skipn (Z.to_nat i) l)%list.
Proof.
  intro Hi. unfold Lines.splice_insert, JS.slice_index.
  assert (E : (i <? 0)%Z = false) by (apply Z.ltb_ge; lia).
  rewrite E, Z.min_l by lia. reflexivity.
Qed.

Lemma Forall_skipn {A} (P : A -> Prop) n l : Forall P l -> Forall P (skipn n l).
Proof.
  intro H. revert n. induction H; intros [|n]; cbn; auto.
Qed.

(** Splitting a text built from a prefix of lines, one piece of text and
    a suffix of lines. *)
Lemma split_lines_around (a b : list string) (x : string) :
  Forall (fun l => free_of JS.is_nl l = true) a ->
  Forall (fun l => free_of JS.is_nl l = true) b ->
  JS.split_lines (JS.join_lines (a ++ x :: b)%list)
  = (a ++ JS.split_lines x ++ b)%list.
Proof.
  intros Ha Hb. rewrite split_lines_join_any by (destruct a; discriminate).
  rewrite flat_map_app. cbn [flat_map].
  now rewrite !flat_map_split_free by assumption.
Qed.

Lemma join_around sep (a mid b : list string) :
  mid <> [] ->
  JS.join sep (a ++ JS.join sep mid :: b)%list = JS.join sep (a ++ mid ++ b)%list.
Proof.
  intro Hm. induction a as [|x a IH].
  - cbn [app]. induction mid as [|y mid IHm]; [contradiction|].
    destruct mid as [|z mid].
    + reflexivity.
    + change (JS.join sep (y :: z :: mid)) with (y ++ sep ++ JS.join sep (z :: mid)).
      rewrite <- app_comm_cons.
      rewrite (join_cons_nonempty sep y ((z :: mid) ++ b)%list) by discriminate.
      rewrite <- IHm by discriminate.
      destruct b as [|b0 b].
      * reflexivity.
      * rewrite !(join_cons_nonempty sep _ (b0 :: b)) by discriminate.
        rewrite !append_assoc. reflexivity.
  - cbn [app]. rewrite !join_cons_nonempty.
    + now rewrite IH.
    + destruct a, mid; try discriminate; contradiction.
    + destruct a; discriminate.
Qed.

Lemma insertBeforeLine_lines content line insertion :
  (1 <= line <= FsWrite.line_count content + 1)%Z ->
  JS.split_lines (Lines.insertBeforeLine content line insertion)
  = (firstn (Z.to_nat (line - 1)) (JS.split_lines content)
     ++ JS.split_lines insertion
     ++ skipn (Z.to_nat (line - 1)) (JS.split_lines content))%list.
Proof.
  unfold FsWrite.line_count. intro H. unfold Lines.insertBeforeLine.
  rewrite Z.max_r by lia. rewrite splice_insert_nonneg by lia.
  apply split_lines_around.
  - apply Forall_firstn, split_lines_free.
  - apply Forall_skipn, split_lines_free.
Qed.

(** X1.  Deleting the lines that [insertBeforeLine] has just put in
    gives the content back, for every insertion text (it may hold
    several lines) and every position from line 1 to one past the last
    line. *)
Theorem deleteLines_undoes_insertBeforeLine (content insertion : string) (line : Z) :
  (1 <= line <= FsWrite.line_count content + 1)%Z ->
  Lines.deleteLines (Lines.insertBeforeLine content line insertion)
    line (line + FsWrite.line_count insertion - 1)
  = content.
Proof.
  intro H. unfold Lines.deleteLines.
  rewrite insertBeforeLine_lines by assumption.
  pose proof (line_count_pos insertion) as Hk.
  unfold FsWrite.line_count in *.
  set (ls := JS.split_lines content) in *.
  set (ins := JS.split_lines insertion) in *.
  set (i := Z.to_nat (line - 1)).
  assert (Hi : i <= List.length ls) by lia.
  rewrite slice_prefix by lia. rewrite slice_from_nonneg by lia.
  fold i.
  replace (Z.to_nat (line + Z.of_nat (List.length ins) - 1))
    with (i + List.length ins) by lia.
  rewrite firstn_app, firstn_firstn, Nat.min_id.
  rewrite length_firstn, Nat.min_l by assumption.
  rewrite Nat.sub_diag. cbn [firstn]. rewrite app_nil_r.
  rewrite skipn_app, length_firstn, Nat.min_l by assumption.
  rewrite (skipn_all2 (firstn i ls)) by (rewrite length_firstn; lia).
  cbn [app]. replace (i + List.length ins - i) with (List.length ins) by lia.
  rewrite skipn_app, skipn_all, Nat.sub_diag. cbn [app skipn].
  rewrite firstn_skipn. apply join_lines_split_lines.
Qed.

Lemma deleteLines_undoes_insertBeforeLine_witness :
  Lines.deleteLines (Lines.insertBeforeLine "a
b" 2 "x
y") 2 (2 + FsWrite.line_count "x
y" - 1) = "a
b".
Proof.
  apply (deleteLines_undoes_insertBeforeLine "a
b" "x
y" 2). vm_compute. split; discriminate.
Defined.

(** X2.  From line 0 on, inserting after a line is inserting before the
    next one. *)
Theorem insertAfterLine_as_insertBeforeLine (content insertion : string) (line : Z) :
  (0 <= line)%Z ->
  Lines.insertAfterLine content line insertion
  = Lines.insertBeforeLine content (line + 1) insertion.
Proof.
  intro H. unfold Lines.insertAfterLine, Lines.insertBeforeLine. f_equal.
  unfold Lines.splice_insert, JS.slice_index.
  set (n := Z.of_nat (List.length (JS.split_lines content))).
  assert (Hn : (0 <= n)%Z) by (unfold n; lia).
  replace (Z.max 0 (line + 1 - 1)) with line by lia.
  assert (E1 : (Z.min n line <? 0)%Z = false) by (apply Z.ltb_ge; lia).
  assert (E2 : (line <? 0)%Z = false) by (apply Z.ltb_ge; lia).
  rewrite E1, E2. replace (Z.min (Z.min n line) n) with (Z.min line n) by lia.
  reflexivity.
Qed.

Lemma insertAfterLine_as_insertBeforeLine_witness :
  Lines.insertAfterLine "a
b" 5 "x" = Lines.insertBeforeLine "a
b" (5 + 1) "x".
Proof.
  apply (insertAfterLine_as_insertBeforeLine "a
b" "x" 5). lia.
Defined.

Lemma replaceLines_lines content s e replacement :
  (1 <= s)%Z -> (0 <= e)%Z ->
  JS.split_lines (Lines.replaceLines content s e replacement)
  = (firstn (Z.to_nat (s - 1)) (JS.split_lines content)
     ++ JS.split_lines replacement
     ++ skipn (Z.to_nat e) (JS.split_lines content))%list.
Proof.
  intros Hs He. unfold Lines.replaceLines.
  rewrite slice_prefix by lia. rewrite slice_from_nonneg by lia.
  apply split_lines_around.
  - apply Forall_firstn, split_lines_free.
  - apply Forall_skipn, split_lines_free.
Qed.

(** X3.  What [replaceLines] has put in place of a range is what
    [extractLines] reads back from the lines the replacement occupies. *)
Theorem extractLines_after_replaceLines (content replacement : string) (s e : Z) :
  (1 <= s <= FsWrite.line_count content + 1)%Z -> (0 <= e)%Z ->
  Lines.extractLines (Lines.replaceLines content s e replacement)
    s (s + FsWrite.line_count replacement - 1)
  = Lines.mkExtracted replacement s (s + FsWrite.line_count replacement - 1).
Proof.
  intros Hs He. unfold Lines.extractLines.
  rewrite replaceLines_lines by lia.
  pose proof (line_count_pos replacement) as Hk.
  unfold FsWrite.line_count in *.
  set (ls := JS.split_lines content) in *.
  set (rs := JS.split_lines replacement) in *.
  set (i := Z.to_nat (s - 1)).
  assert (Hi : i <= List.length ls) by lia.
  assert (Hlen : List.length (firstn i ls ++ rs ++ skipn (Z.to_nat e) ls)%list
                 = i + List.length rs + List.length (skipn (Z.to_nat e) ls)).
  { rewrite !length_app, length_firstn. lia. }
  rewrite Hlen. rewrite Z.max_r by lia. rewrite Z.min_r by lia.
  f_equal. rewrite slice_mid by lia. fold i.
  replace (Z.to_nat (s + Z.of_nat (List.length rs) - 1) - i) with (List.length rs) by lia.
  rewrite skipn_app, length_firstn, Nat.min_l by assumption.
  rewrite (skipn_all2 (firstn i ls)) by (rewrite length_firstn; lia).
  rewrite Nat.sub_diag. cbn [app skipn].
  rewrite firstn_app, firstn_all, Nat.sub_diag. cbn [firstn]. rewrite app_nil_r.
  apply join_lines_split_lines.
Qed.

Lemma extractLines_after_replaceLines_witness :
  Lines.extractLines (Lines.replaceLines "a
b
c" 2 3 "x
y
z") 2 (2 + FsWrite.line_count "x
y
z" - 1)
  = Lines.mkExtracted "x
y
z" 2 (2 + FsWrite.line_count "x
y
z" - 1).
Proof.
  apply (extractLines_after_replaceLines "a
b
c" "x
y
z" 2 3); vm_compute; try split; discriminate.
Defined.

(** X4.  Replacing a range of lines by the text [extractLines] reads
    from that range leaves the content as it is. *)
Theorem replaceLines_by_extractLines (content : string) (s e : Z) :
  (1 <= s <= FsWrite.line_count content)%Z -> (s <= e)%Z ->
  Lines.replaceLines content s e (Lines.text (Lines.extractLines content s e))
  = content.
Proof.
  intros Hs He. unfold Lines.replaceLines, Lines.extractLines. cbn [Lines.text].
  unfold FsWrite.line_count in *.
  set (ls := JS.split_lines content) in *.
  rewrite Z.max_r by lia.
  rewrite slice_prefix by lia. rewrite slice_from_nonneg by lia.
  rewrite (slice_mid ls) by lia.
  set (i := Z.to_nat (s - 1)).
  set (m := Z.to_nat (Z.min (Z.of_nat (List.length ls)) e)).
  assert (Him : i < m) by lia.
  assert (Hm : m <= List.length ls) by lia.
  unfold JS.join_lines. rewrite join_around.
  - replace (skipn (Z.to_nat e) ls) with (skipn m ls).
    + replace (firstn (m - i) (skipn i ls) ++ skipn m ls)%list with (skipn i ls).
      * rewrite firstn_skipn. apply join_lines_split_lines.
      * rewrite <- (firstn_skipn (m - i) (skipn i ls)) at 1.
        rewrite skipn_skipn. do 2 f_equal. lia.
    + destruct (Z_le_gt_dec e (Z.of_nat (List.length ls))).
      * f_equal. lia.
      * rewrite !skipn_all2 by lia. reflexivity.
  - intro E. apply (f_equal (@List.length _)) in E.
    rewrite length_firstn, length_skipn in E. cbn in E. lia.
Qed.

Lemma replaceLines_by_extractLines_witness :
  Lines.replaceLines "a
b
c" 2 7 (Lines.text (Lines.extractLines "a
b
c" 2 7)) = "a
b
c".
Proof.
  apply (replaceLines_by_extractLines "a
b
c" 2 7); vm_compute; try split; discriminate.
Defined.

(** ** Decimal numbers and line ranges *)

Lemma parse_digits_app a s t :
  JS.parse_digits a (s ++ t) = JS.parse_digits (JS.parse_digits a s) t.
Proof. revert a. induction s as [|c r IH]; intro a; cbn; auto. Qed.

Lemma nat_to_string_aux_acc fuel : forall n acc,
  JS.nat_to_string_aux fuel n acc = JS.nat_to_string_aux fuel n "" ++ acc.
Proof.
  induction fuel as [|fuel IH]; intros n acc; [reflexivity|].
  cbn [JS.nat_to_string_aux]. destruct (n <? 10); [reflexivity|].
  rewrite IH. rewrite (IH _ (String _ "")). rewrite append_assoc. reflexivity.
Qed.

Lemma digit_char_value d : d < 10 -> nat_of_ascii (JS.digit_char d) - 48 = d.
Proof.
  intro H. unfold JS.digit_char. rewrite nat_ascii_embedding by lia. lia.
Qed.

Lemma digit_char_is_digit d : d < 10 -> JS.is_digit (JS.digit_char d) = true.
Proof.
  intro H. unfold JS.is_digit, JS.digit_char. rewrite nat_ascii_embedding by lia.
  apply andb_true_iff. split; apply Nat.leb_le; lia.
Qed.

Lemma parse_nat_to_string_aux fuel : forall n,
  n < fuel -> JS.parse_digits 0 (JS.nat_to_string_aux fuel n "") = Z.of_nat n.
Proof.
  induction fuel as [|fuel IH]; intros n Hn; [lia|].
  cbn [JS.nat_to_string_aux].
  pose proof (Nat.mod_upper_bound n 10 ltac:(lia)) as Hm.
  destruct (n <? 10) eqn:E.
  - apply Nat.ltb_lt in E. cbn [JS.parse_digits].
    rewrite digit_char_value by assumption. rewrite Nat.mod_small by assumption. lia.
  - apply Nat.ltb_ge in E. rewrite nat_to_string_aux_acc, parse_digits_app.
    assert (Hd : n / 10 < fuel).
    { pose proof (Nat.div_lt n 10 ltac:(lia) ltac:(lia)). lia. }
    rewrite IH by assumption. cbn [JS.parse_digits].
    rewrite digit_char_value by assumption.
    pose proof (Nat.div_mod_eq n 10). lia.
Qed.

Lemma all_chars_app p s t :
  JS.all_chars p (s ++ t) = (JS.all_chars p s && JS.all_chars p t)%bool.
Proof.
  induction s as [|c r IH]; [reflexivity|]. cbn. rewrite IH. apply andb_assoc.
Qed.

Lemma nat_to_string_aux_digits fuel : forall n,
  JS.all_chars JS.is_digit (JS.nat_to_string_aux fuel n "") = true.
Proof.
  induction fuel as [|fuel IH]; intro n; [reflexivity|].
  cbn [JS.nat_to_string_aux].
  pose proof (Nat.mod_upper_bound n 10 ltac:(lia)) as Hm.
  destruct (n <? 10).
  - cbn [JS.all_chars]. now rewrite digit_char_is_digit.
  - rewrite nat_to_string_aux_acc, all_chars_app, IH. cbn [JS.all_chars].
    now rewrite digit_char_is_digit.
Qed.

Lemma nat_to_string_aux_nonempty fuel n : JS.nat_to_string_aux (S fuel) n "" <> "".
Proof.
  cbn [JS.nat_to_string_aux]. destruct (n <? 10); [discriminate|].
  rewrite nat_to_string_aux_acc. destruct (JS.nat_to_string_aux fuel (n / 10) ""); discriminate.
Qed.

Lemma parse_nat_to_string n : JS.parse_digits 0 (JS.nat_to_string n) = Z.of_nat n.
Proof. apply parse_nat_to_string_aux. lia. Qed.

Lemma nat_to_string_digits n : Lines.is_digits (JS.nat_to_string n) = true.
Proof.
  unfold Lines.is_digits, JS.nat_to_string. rewrite nat_to_string_aux_digits.
  rewrite andb_true_r. apply negb_true_iff. apply String.eqb_neq.
  apply nat_to_string_aux_nonempty.
Qed.

Lemma trimEnd_not_ws s : JS.all_chars not_ws s = true -> JS.trimEnd s = s.
Proof.
  induction s as [|c r IH]; [reflexivity|].
  cbn [JS.all_chars JS.trimEnd]. intro H. apply andb_true_iff in H. destruct H as [Hc Hr].
  rewrite (IH Hr). unfold not_ws in Hc. apply negb_true_iff in Hc. rewrite Hc.
  destruct r; reflexivity.
Qed.

Lemma trim_not_ws s : JS.all_chars not_ws s = true -> JS.trim s = s.
Proof.
  intro H. unfold JS.trim.
  assert (E : JS.trimStart s = s).
  { destruct s as [|c r]; [reflexivity|]. cbn [JS.all_chars] in H.
    apply andb_true_iff in H. destruct H as [Hc _]. unfold not_ws in Hc.
    apply negb_true_iff in Hc. cbn [JS.trimStart]. now rewrite Hc. }
  rewrite E. now apply trimEnd_not_ws.
Qed.

Lemma all_chars_impl (p q : ascii -> bool) s :
  (forall c, p c = true -> q c = true) ->
  JS.all_chars p s = true -> JS.all_chars q s = true.
Proof.
  intro Hpq. induction s as [|c r IH]; [reflexivity|].
  cbn [JS.all_chars]. intro H. apply andb_true_iff in H. destruct H as [Hc Hr].
  now rewrite (Hpq _ Hc), IH.
Qed.

Lemma digit_not_ws c : JS.is_digit c = true -> not_ws c = true.
Proof.
  destruct c as [[] [] [] [] [] [] [] []]; vm_compute; congruence.
Qed.

Lemma digit_not_dash c : JS.is_digit c = true -> Ascii.eqb c "-" = false.
Proof.
  destruct c as [[] [] [] [] [] [] [] []]; vm_compute; congruence.
Qed.

Lemma split_dash_digits a b :
  JS.all_chars JS.is_digit a = true ->
  Lines.split_dash (a ++ String "-" b) = Some (a, b).
Proof.
  induction a as [|c r IH]; intro H; [reflexivity|].
  cbn [JS.all_chars] in H. apply andb_true_iff in H. destruct H as [Hc Hr].
  cbn [append Lines.split_dash]. rewrite (digit_not_dash _ Hc). now rewrite IH.
Qed.

Lemma is_digits_all s : Lines.is_digits s = true -> JS.all_chars JS.is_digit s = true.
Proof. unfold Lines.is_digits. intro H. now apply andb_true_iff in H. Qed.

Lemma parse_digits_nonneg s : forall a, (0 <= a)%Z -> (0 <= JS.parse_digits a s)%Z.
Proof.
  induction s as [|c r IH]; intros a H; [exact H|].
  cbn [JS.parse_digits]. apply IH. lia.
Qed.

Lemma to_double_exact n : (n <= 2 ^ 53)%Z -> JS.to_double n = n.
Proof.
  intro H. unfold JS.to_double.
  destruct (n <? 2 ^ 53)%Z eqn:E; [reflexivity|].
  apply Z.ltb_ge in E. assert (n = 2 ^ 53)%Z by lia. subst n.
  vm_compute. reflexivity.
Qed.

Lemma to_double_nonneg n : (0 <= n)%Z -> (0 <= JS.to_double n)%Z.
Proof.
  intro H. unfold JS.to_double.
  destruct (n <? 2 ^ 53)%Z; [exact H|].
  apply Z.min_glb; [unfold JS.infinity; apply Z.pow_nonneg; lia|].
  apply Z.shiftl_nonneg.
  assert (Hq : (0 <= Z.shiftr n (Z.log2 n - 52))%Z) by now apply Z.shiftr_nonneg.
  repeat match goal with |- context [if ?b then _ else _] => destruct b end; lia.
Qed.

(** X5.  [parseLineRange] reads back the two documented formats, for
    numbers that the host holds exactly (up to 2^53): the decimal
    numeral of [s] gives the range from [s] to [s], and the numerals of
    [s] and [e] joined by a dash give the range from [s] to [e] when
    [s <= e] and no range otherwise. *)
Theorem parseLineRange_decimal (s e : nat) :
  (Z.of_nat s <= 2 ^ 53)%Z -> (Z.of_nat e <= 2 ^ 53)%Z ->
  Lines.parseLineRange (JS.nat_to_string s) = Some (Z.of_nat s, Z.of_nat s)
  /\ Lines.parseLineRange (JS.nat_to_string s ++ "-" ++ JS.nat_to_string e)
     = if s <=? e then Some (Z.of_nat s, Z.of_nat e) else None.
Proof.
  intros Bs Be.
  pose proof (nat_to_string_digits s) as Hs.
  pose proof (nat_to_string_digits e) as He.
  split.
  - unfold Lines.parseLineRange.
    rewrite trim_not_ws
      by (eapply all_chars_impl; [apply digit_not_ws|now apply is_digits_all]).
    rewrite Hs. unfold Lines.parseInt.
    now rewrite parse_nat_to_string, to_double_exact.
  - unfold Lines.parseLineRange.
    assert (Hw : JS.all_chars not_ws (JS.nat_to_string s ++ "-" ++ JS.nat_to_string e) = true).
    { rewrite all_chars_app. apply andb_true_iff. split.
      - eapply all_chars_impl; [apply digit_not_ws|now apply is_digits_all].
      - cbn [append JS.all_chars]. apply andb_true_iff. split; [reflexivity|].
        eapply all_chars_impl; [apply digit_not_ws|now apply is_digits_all]. }
    rewrite trim_not_ws by assumption.
    assert (Hn : Lines.is_digits (JS.nat_to_string s ++ "-" ++ JS.nat_to_string e) = false).
    { unfold Lines.is_digits. rewrite all_chars_app. cbn [append JS.all_chars].
      change (JS.is_digit "-") with false. cbn [andb]. now rewrite !andb_false_r. }
    rewrite Hn. cbn [append]. rewrite split_dash_digits by now apply is_digits_all.
    rewrite Hs, He. cbn [andb]. unfold Lines.parseInt. rewrite !parse_nat_to_string.
    rewrite !to_double_exact by assumption.
    destruct (s <=? e) eqn:E.
    + apply Nat.leb_le in E.
      assert (E' : (Z.of_nat s <=? Z.of_nat e)%Z = true) by (apply Z.leb_le; lia).
      now rewrite E'.
    + apply Nat.leb_gt in E.
      assert (E' : (Z.of_nat s <=? Z.of_nat e)%Z = false) by (apply Z.leb_gt; lia).
      now rewrite E'.
Qed.

Lemma parseLineRange_decimal_witness :
  Lines.parseLineRange (JS.nat_to_string 10) = Some (10, 10)%Z
  /\ Lines.parseLineRange (JS.nat_to_string 10 ++ "-" ++ JS.nat_to_string 15)
     = if 10 <=? 15 then Some (10, 15)%Z else None.
Proof.
  apply (parseLineRange_decimal 10 15); vm_compute; discriminate.
Defined.

Lemma trimStart_spaces k s :
  JS.trimStart (JS.repeat_char " " k ++ s) = JS.trimStart s.
Proof. induction k as [|k IH]; [reflexivity|]. cbn. exact IH. Qed.

Lemma skip_digits_bar d rest :
  JS.all_chars JS.is_digit d = true ->
  Tools.skip_digits (d ++ String "|" rest) = String "|" rest.
Proof.
  induction d as [|c r IH]; intro H; [reflexivity|].
  cbn [JS.all_chars] in H. apply andb_true_iff in H. destruct H as [Hc Hr].
  cbn [append Tools.skip_digits]. rewrite Hc. now apply IH.
Qed.

Lemma Z_to_string_nonneg n : (0 <= n)%Z -> JS.Z_to_string n = JS.nat_to_string (Z.to_nat n).
Proof.
  intro H. unfold JS.Z_to_string.
  assert (E : (n <? 0)%Z = false) by (apply Z.ltb_ge; lia). now rewrite E.
Qed.

Lemma strip_numbered (n : Z) (width : nat) (line : string) :
  (0 <= n)%Z ->
  Tools.strip_line_number
    (JS.padStart (JS.Z_to_string n) width ++ "|" ++ line) = line.
Proof.
  intro Hn. rewrite Z_to_string_nonneg by assumption.
  pose proof (nat_to_string_digits (Z.to_nat n)) as Hd.
  unfold Lines.is_digits in Hd. apply andb_true_iff in Hd. destruct Hd as [Hne Hd].
  apply negb_true_iff, String.eqb_neq in Hne.
  unfold Tools.strip_line_number, JS.padStart.
  rewrite append_assoc, trimStart_spaces.
  destruct (JS.nat_to_string (Z.to_nat n)) as [|c r]; [contradiction|].
  cbn [JS.all_chars] in Hd. apply andb_true_iff in Hd. destruct Hd as [Hc Hr].
  pose proof (digit_not_ws _ Hc) as Hw. unfold not_ws in Hw. apply negb_true_iff in Hw.
  cbn [append JS.trimStart]. rewrite Hw, Hc.
  change (r ++ String "|" line) with (r ++ String "|" line).
  rewrite skip_digits_bar by assumption. reflexivity.
Qed.

Lemma map_strip_number_lines width : forall lines n,
  (0 <= n)%Z ->
  map Tools.strip_line_number (Lines.number_lines width n lines) = lines.
Proof.
  induction lines as [|l r IH]; intros n Hn; [reflexivity|].
  cbn [Lines.number_lines map]. rewrite strip_numbered by assumption.
  rewrite IH by lia. reflexivity.
Qed.

Lemma free_of_app sep s t :
  free_of sep (s ++ t) = (free_of sep s && free_of sep t)%bool.
Proof. unfold free_of. apply all_chars_app. Qed.

Lemma number_lines_free width : forall lines n,
  (0 <= n)%Z ->
  Forall (fun l => free_of JS.is_nl l = true) lines ->
  Forall (fun l => free_of JS.is_nl l = true) (Lines.number_lines width n lines).
Proof.
  induction lines as [|l r IH]; intros n Hn Hf; [constructor|].
  inversion Hf as [|? ? Hl Hr]; subst.
  cbn [Lines.number_lines]. constructor; [|apply IH; [lia|assumption]].
  rewrite free_of_app. apply andb_true_iff. split.
  - unfold JS.padStart. rewrite free_of_app. apply andb_true_iff. split.
    + generalize (width - String.length (JS.Z_to_string n)). intro k.
      induction k as [|k IHk]; [reflexivity|]. unfold free_of in *. cbn. exact IHk.
    + rewrite Z_to_string_nonneg by assumption.
      pose proof (nat_to_string_digits (Z.to_nat n)) as Hd.
      apply is_digits_all in Hd. unfold free_of.
      eapply all_chars_impl; [|exact Hd].
      intro c. destruct c as [[] [] [] [] [] [] [] []]; vm_compute; congruence.
  - cbn [append]. unfold free_of in *. cbn [JS.all_chars]. now rewrite Hl.
Qed.

Lemma number_lines_nonempty width n lines :
  lines <> [] -> Lines.number_lines width n lines <> [].
Proof. destruct lines; [contradiction|discriminate]. Qed.

(** Numbering the lines of a text and stripping the numbers again gives
    the lines of the text. *)
Lemma strip_addLineNumbers content start :
  (0 <= start)%Z ->
  map Tools.strip_line_number (JS.split_lines (Lines.addLineNumbers content start))
  = JS.split_lines content.
Proof.
  intro H. unfold Lines.addLineNumbers.
  rewrite split_lines_join_lines.
  - now apply map_strip_number_lines.
  - apply number_lines_nonempty, split_by_nonempty.
  - apply number_lines_free; [assumption|apply split_lines_free].
Qed.

Lemma append_empty a b : a ++ b = "" -> a = "" /\ b = "".
Proof. destruct a; [cbn; auto|discriminate]. Qed.

Lemma addLineNumbers_nonempty content start : Lines.addLineNumbers content start <> "".
Proof.
  unfold Lines.addLineNumbers. pose proof (split_by_nonempty JS.is_nl content) as Hne.
  unfold JS.split_lines. destruct (JS.split_by JS.is_nl content) as [|h t]; [contradiction|].
  cbn [Lines.number_lines]. unfold JS.join_lines.
  set (x := (JS.padStart _ _ ++ "|" ++ h)%string).
  intro E.
  assert (Hx : x = "").
  { destruct (Lines.number_lines _ _ t).
    - exact E.
    - rewrite join_cons_nonempty in E by discriminate. now apply append_empty in E. }
  unfold x in Hx. apply append_empty in Hx. destruct Hx as [_ Hx]. discriminate.
Qed.

Lemma stat_of_file f absPath r content :
  FS.lookup f absPath = Some (FS.File r content) ->
  FS.stat_of f absPath = Returned (FS.IsFile (List.length (Checksum.utf8 content))).
Proof. intro H. unfold FS.stat_of. now rewrite H. Qed.

Lemma execute_reads_file cwd root f path r content :
  Paths.resolvePath cwd root path = Paths.Ok r ->
  FS.lookup f (Paths.absolutePath r) = Some (FS.File true content) ->
  FsRead.execute cwd root f (FsRead.mkArgs path None None None None None None None)
  = Returned (FsRead.readFile f (Paths.absolutePath r) (Paths.virtualPath r) None).
Proof.
  intros Hres Hlook. unfold FsRead.execute. cbn [FsRead.path]. rewrite Hres.
  rewrite (stat_of_file _ _ _ _ Hlook). reflexivity.
Qed.

(** X6.  The reader behind [@workspace:] references gives back the text
    of a readable text file with its line numbers stripped, cut after
    the first 100 lines: the whole content when the file has at most
    100 lines. *)
Theorem tools_readFile_first_lines (cwd root : string) (f : FS.fs) (path : string)
  (r : Paths.resolved_path) (content : string) :
  Paths.resolvePath cwd root path = Paths.Ok r ->
  FS.lookup f (Paths.absolutePath r) = Some (FS.File true content) ->
  FileTypes.isTextFile (Paths.absolutePath r) = true ->
  Tools.readFile cwd root f path
  = Tools.Content (JS.join_lines (firstn 100 (JS.split_lines content)))
  /\ (List.length (JS.split_lines content) <= 100 ->
      Tools.readFile cwd root f path = Tools.Content content).
Proof.
  intros Hres Hlook Htext.
  assert (Main : Tools.readFile cwd root f path
                 = Tools.Content (JS.join_lines (firstn 100 (JS.split_lines content)))).
  { unfold Tools.readFile. rewrite (execute_reads_file _ _ _ _ _ _ Hres Hlook).
    unfold FsRead.readFile. rewrite Htext. cbn [negb].
    unfold FS.readFile_of. rewrite Hlook. cbn [truthy].
    destruct (Z.of_nat (List.length (JS.split_lines content)) >? 100)%Z eqn:E.
    - cbn [FsRead.text].
      assert (Hlong : 100 < List.length (JS.split_lines content)).
      { rewrite Z.gtb_ltb in E. apply Z.ltb_lt in E. lia. }
      pose proof (addLineNumbers_nonempty
                    (Lines.text (Lines.extractLines content 1 100)) 1) as Hne.
      apply String.eqb_neq in Hne. rewrite Hne. cbn [negb].
      rewrite strip_addLineNumbers by lia.
      rewrite extractLines_preview by assumption.
      rewrite split_lines_join_lines; [reflexivity| |].
      + intro E0. apply (f_equal (@List.length _)) in E0.
        rewrite length_firstn in E0. cbn [List.length] in E0. lia.
      + apply Forall_firstn, split_lines_free.
    - cbn [FsRead.text].
      assert (Hshort : List.length (JS.split_lines content) <= 100).
      { rewrite Z.gtb_ltb in E. apply Z.ltb_ge in E. lia. }
      pose proof (addLineNumbers_nonempty content 1) as Hne.
      apply String.eqb_neq in Hne. rewrite Hne. cbn [negb].
      rewrite strip_addLineNumbers by lia.
      now rewrite firstn_all2 by assumption. }
  split; [exact Main|].
  intro Hshort. rewrite Main. rewrite firstn_all2 by assumption.
  now rewrite join_lines_split_lines.
Qed.

Lemma tools_readFile_first_lines_witness :
  Tools.readFile "/" "/ws" zero_fs "x.md"
  = Tools.Content (JS.join_lines (firstn 100 (JS.split_lines "a
b
c")))
  /\ (List.length (JS.split_lines "a
b
c") <= 100 ->
      Tools.readFile "/" "/ws" zero_fs "x.md" = Tools.Content "a
b
c").
Proof.
  apply (tools_readFile_first_lines "/" "/ws" zero_fs "x.md"
           (Paths.mkResolved "/ws/x.md" "x.md" "x.md") "a
b
c"); vm_compute; reflexivity.
Defined.

(** The reader hands out 100 of the 101 lines of a longer file. *)
Example tools_readFile_truncates :
  match Tools.readFile "/" "/ws" long_fs "long.md" with
  | Tools.Content text => List.length (JS.split_lines text) = 100
  | _ => False
  end.
Proof. vm_compute. reflexivity. Qed.

(** ** What a write leaves behind *)

(** ** Writes that are not applied *)

Lemma fileExists_state absPath f :
  FsWrite.fileExists absPath f
  = (Returned match FS.lookup f absPath with Some _ => true | None => false end, f).
Proof.
  unfold FsWrite.fileExists, FS.try_catch, FS.bind, FS.access, FS.observe, FS.access_of.
  destruct (FS.lookup f absPath); reflexivity.
Qed.

Lemma readFile_state absPath f : FS.readFile absPath f = (FS.readFile_of f absPath, f).
Proof. reflexivity. Qed.

Ltac unapplied_here :=
  eexists; split;
  [unfold FS.ret, FS.throw; reflexivity
  |intros; unfold FsWrite.fail_update; discriminate].

Ltac split_branches :=
  repeat match goal with
         | |- context [match ?x with _ => _ end] => destruct x eqn:?
         end.

Lemma finish_update_dry absPath relativePath current new action n f :
  unapplied (FsWrite.finish_update absPath relativePath current new true action n) f.
Proof. unfold FsWrite.finish_update. unapplied_here. Qed.

Lemma apply_action_dry absPath relativePath current input t f :
  FsWrite.dryRun input = true ->
  unapplied (FsWrite.apply_action absPath relativePath current input t) f.
Proof.
  intro Hd. unfold FsWrite.apply_action. rewrite Hd.
  split_branches; try apply finish_update_dry; unapplied_here.
Qed.

Lemma updateFile_dry absPath relativePath input f :
  FsWrite.dryRun input = true ->
  unapplied (FsWrite.updateFile absPath relativePath input) f.
Proof.
  intro Hd. unfold unapplied, FsWrite.updateFile.
  unfold FS.bind at 1. rewrite fileExists_state.
  destruct (FS.lookup f absPath); cbn [negb]; [|unapplied_here].
  destruct (FileTypes.isTextFile absPath); cbn [negb]; [|unapplied_here].
  destruct (truthy (FsWrite.action input)); cbn [negb]; [|unapplied_here].
  unfold FS.bind at 1. rewrite readFile_state.
  destruct (FS.readFile_of f absPath) as [currentContent|e]; [|unapplied_here].
  rewrite Hd.
  split_branches; try apply (apply_action_dry _ _ _ _ _ _ Hd); unapplied_here.
Qed.

(** X7.  A request with [dryRun] set leaves the file system as it is,
    whatever the operation, and its result is never an applied one. *)
Theorem dry_run_changes_nothing (cwd root : string) (a : FsWrite.args) (f : FS.fs) :
  FsWrite.dryRun a = true ->
  exists o,
    FsWrite.execute cwd root a f = (o, f)
    /\ forall p op res h, o <> Returned (FsWrite.Success p op true res h).
Proof.
  intro Hd. change (unapplied (FsWrite.execute cwd root a) f).
  unfold FsWrite.execute.
  destruct (Paths.resolvePath cwd root (FsWrite.path a)) as [r|msg]; [|unapplied_here].
  destruct (String.eqb (FsWrite.operation a) "create").
  { destruct (truthy (FsWrite.content a)); cbn [negb]; [|unapplied_here].
    unfold unapplied, FsWrite.createFile. unfold FS.bind at 1.
    rewrite fileExists_state. rewrite Hd.
    destruct (FS.lookup f (Paths.absolutePath r)); unapplied_here. }
  destruct (String.eqb (FsWrite.operation a) "delete").
  { unfold unapplied, FsWrite.deleteFile. unfold FS.bind at 1.
    rewrite fileExists_state. rewrite Hd.
    destruct (FS.lookup f (Paths.absolutePath r)); unapplied_here. }
  destruct (String.eqb (FsWrite.operation a) "update").
  { now apply updateFile_dry. }
  unapplied_here.
Qed.

Lemma dry_run_changes_nothing_witness :
  exists o,
    FsWrite.execute "/" "/ws"
      (FsWrite.mkArgs "x.md" "delete" None None None None None false None true false)
      zero_fs = (o, zero_fs)
    /\ forall p op res h, o <> Returned (FsWrite.Success p op true res h).
Proof.
  apply (dry_run_changes_nothing "/" "/ws"
           (FsWrite.mkArgs "x.md" "delete" None None None None None false None true false)
           zero_fs).
  reflexivity.
Defined.

Ltac split_hyp H :=
  repeat match type of H with
         | context [match ?x with _ => _ end] => destruct x eqn:?
         end.

Ltac clean_here :=
  let H := fresh "H" in
  intros ? ? ? ? ? ? H;
  unfold FS.ret, FS.throw, FS.bind, FsWrite.fail_update in H;
  split_hyp H;
  solve [inversion H; reflexivity | discriminate H].

Lemma finish_update_clean absPath relativePath current new dry action n f :
  fails_cleanly (FsWrite.finish_update absPath relativePath current new dry action n) f.
Proof. unfold FsWrite.finish_update. clean_here. Qed.

Lemma apply_action_clean absPath relativePath current input t f :
  fails_cleanly (FsWrite.apply_action absPath relativePath current input t) f.
Proof.
  unfold FsWrite.apply_action.
  split_branches; try apply finish_update_clean; clean_here.
Qed.

Lemma updateFile_clean absPath relativePath input f :
  fails_cleanly (FsWrite.updateFile absPath relativePath input) f.
Proof.
  unfold fails_cleanly, FsWrite.updateFile.
  unfold FS.bind at 1. rewrite fileExists_state.
  destruct (FS.lookup f absPath); cbn [negb]; [|clean_here].
  destruct (FileTypes.isTextFile absPath); cbn [negb]; [|clean_here].
  destruct (truthy (FsWrite.action input)); cbn [negb]; [|clean_here].
  unfold FS.bind at 1. rewrite readFile_state.
  destruct (FS.readFile_of f absPath) as [currentContent|e]; [|clean_here].
  split_branches; try apply apply_action_clean; clean_here.
Qed.

(** X8.  A request that is answered with a failure has left the file
    system as it was. *)
Theorem failure_changes_nothing (cwd root : string) (a : FsWrite.args) (f f' : FS.fs)
  (p : string) (op : option string) (ap : option bool) (e : error) (h : option string) :
  FsWrite.execute cwd root a f = (Returned (FsWrite.Failure p op ap e h), f') ->
  f' = f.
Proof.
  revert p op ap e h f'. change (fails_cleanly (FsWrite.execute cwd root a) f).
  unfold FsWrite.execute.
  destruct (Paths.resolvePath cwd root (FsWrite.path a)) as [r|msg]; [|clean_here].
  destruct (String.eqb (FsWrite.operation a) "create").
  { destruct (truthy (FsWrite.content a)); cbn [negb]; [|clean_here].
    unfold fails_cleanly, FsWrite.createFile. unfold FS.bind at 1.
    rewrite fileExists_state.
    destruct (FS.lookup f (Paths.absolutePath r)); clean_here. }
  destruct (String.eqb (FsWrite.operation a) "delete").
  { unfold fails_cleanly, FsWrite.deleteFile. unfold FS.bind at 1.
    rewrite fileExists_state.
    destruct (FS.lookup f (Paths.absolutePath r)); clean_here. }
  destruct (String.eqb (FsWrite.operation a) "update").
  { apply updateFile_clean. }
  clean_here.
Qed.

Lemma failure_changes_nothing_witness :
  snd (FsWrite.execute "/" "/ws" (stale_args (Some "replace")) guard_fs) = guard_fs.
Proof.
  eapply (failure_changes_nothing "/" "/ws" (stale_args (Some "replace")) guard_fs).
  vm_compute. reflexivity.
Defined.

(** ** What a write leaves in the file system *)

Lemma find_entry_set_entry_other s q x entries :
  String.eqb s q = false ->
  FS.find_entry q (FS.set_entry s x entries) = FS.find_entry q entries.
Proof.
  intro Hsq. induction entries as [|[n y] r IH]; cbn [FS.set_entry FS.find_entry].
  - now rewrite Hsq.
  - destruct (String.eqb n s) eqn:E; cbn [FS.find_entry].
    + apply String.eqb_eq in E. subst n. now rewrite Hsq.
    + now rewrite IH.
Qed.

Lemma alter_write_result segs : forall n n' c,
  FS.alter n segs (write_change c) = inr n' ->
  FS.lookup_segments n' segs
  = Some (FS.File (flag_after_write (FS.lookup_segments n segs)) c).
Proof.
  induction segs as [|s rest IH]; intros n n' c H.
  - cbn in H. destruct n as [r0 c0|entries]; [|discriminate].
    inversion H. reflexivity.
  - cbn [FS.alter] in H. destruct n as [|entries]; [discriminate|].
    cbn [FS.lookup_segments]. destruct rest as [|s' rest'].
    + destruct (FS.find_entry s entries) as [[r0 c0|es]|] eqn:Ef; cbn in H;
        inversion H; subst n'; cbn [FS.lookup_segments];
        now rewrite find_entry_set_entry.
    + destruct (FS.find_entry s entries) as [child|] eqn:Ef; [|discriminate].
      destruct (FS.alter child (s' :: rest') (write_change c)) as [e|child'] eqn:Ea;
        [discriminate|].
      inversion H. subst n'. cbn [FS.lookup_segments].
      rewrite find_entry_set_entry. exact (IH _ _ _ Ea).
Qed.

Lemma writeFile_result absPath c f f' :
  FS.writeFile absPath c f = (Returned tt, f') ->
  FS.lookup f' absPath = Some (FS.File (flag_after_write (FS.lookup f absPath)) c).
Proof.
  unfold FS.writeFile. fold (write_change c).
  destruct (FS.alter f (FS.segments absPath) (write_change c)) as [e|n'] eqn:Ea;
    intro H; inversion H. subst n'. exact (alter_write_result _ _ _ _ Ea).
Qed.

Lemma mkdirs_keeps_files segs : forall n n' p r c,
  FS.mkdirs n segs = inr n' ->
  FS.lookup_segments n' p = Some (FS.File r c) ->
  FS.lookup_segments n p = Some (FS.File r c).
Proof.
  induction segs as [|s rest IH]; intros n n' p r c H Hl.
  - cbn in H. destruct n; inversion H. now subst.
  - cbn [FS.mkdirs] in H. destruct n as [|entries]; [discriminate|].
    destruct (FS.mkdirs match FS.find_entry s entries with
                        | Some c0 => c0
                        | None => FS.Dir []
                        end rest) as [e|c'] eqn:Em; [discriminate|].
    inversion H. subst n'. destruct p as [|q ps]; [discriminate|].
    cbn [FS.lookup_segments] in *.
    destruct (String.eqb s q) eqn:Esq.
    + apply String.eqb_eq in Esq. subst q. rewrite find_entry_set_entry in Hl.
      pose proof (IH _ _ ps r c Em Hl) as Hc.
      destruct (FS.find_entry s entries) as [child|]; [exact Hc|].
      destruct ps; cbn in Hc; discriminate.
    + now rewrite find_entry_set_entry_other in Hl.
Qed.

Lemma mkdir_recursive_keeps_files dir f f' p r c :
  FS.mkdir_recursive dir f = (Returned tt, f') ->
  FS.lookup f' p = Some (FS.File r c) ->
  FS.lookup f p = Some (FS.File r c).
Proof.
  unfold FS.mkdir_recursive, FS.lookup.
  destruct (FS.mkdirs f (FS.segments dir)) as [e|n'] eqn:Em; intro H; inversion H.
  subst n'. eapply mkdirs_keeps_files; eassumption.
Qed.

Lemma readFile_of_file f absPath c :
  FS.lookup f absPath = Some (FS.File true c) -> FS.readFile_of f absPath = Returned c.
Proof. intro H. unfold FS.readFile_of. now rewrite H. Qed.

Ltac success_op_here :=
  let H := fresh "H" in
  intros ? ? ? ? ? ? H;
  unfold FS.ret, FS.throw, FS.bind, FsWrite.fail_update in H;
  split_hyp H;
  solve [inversion H; reflexivity | discriminate H].

Lemma finish_update_op absPath relativePath current new dry action n f :
  succeeds_as "update"
    (FsWrite.finish_update absPath relativePath current new dry action n) f.
Proof. unfold FsWrite.finish_update. success_op_here. Qed.

Lemma apply_action_op absPath relativePath current input t f :
  succeeds_as "update" (FsWrite.apply_action absPath relativePath current input t) f.
Proof.
  unfold FsWrite.apply_action.
  split_branches; try apply finish_update_op; success_op_here.
Qed.

Lemma updateFile_op absPath relativePath input f :
  succeeds_as "update" (FsWrite.updateFile absPath relativePath input) f.
Proof.
  unfold succeeds_as, FsWrite.updateFile.
  unfold FS.bind at 1. rewrite fileExists_state.
  destruct (FS.lookup f absPath); cbn [negb]; [|success_op_here].
  destruct (FileTypes.isTextFile absPath); cbn [negb]; [|success_op_here].
  destruct (truthy (FsWrite.action input)); cbn [negb]; [|success_op_here].
  unfold FS.bind at 1. rewrite readFile_state.
  destruct (FS.readFile_of f absPath) as [currentContent|e]; [|success_op_here].
  split_branches; try apply apply_action_op; success_op_here.
Qed.

(** X9.  After a file has been created, it holds the content of the
    request, the checksum in the answer is the checksum of that content,
    and a read of the same path is answered from the new file. *)
Theorem create_then_read (cwd root : string) (a : FsWrite.args) (f f' : FS.fs)
  (r : Paths.resolved_path) (p hint : string) (res : FsWrite.payload) :
  Paths.resolvePath cwd root (FsWrite.path a) = Paths.Ok r ->
  FsWrite.execute cwd root a f
  = (Returned (FsWrite.Success p "create" true res hint), f') ->
  exists content,
    FsWrite.content a = Some content
    /\ FS.readFile_of f' (Paths.absolutePath r) = Returned content
    /\ FsWrite.newChecksum res = Some (Checksum.generateChecksum content)
    /\ FsRead.execute cwd root f' (read_args (FsWrite.path a) None)
       = Returned (FsRead.readFile f' (Paths.absolutePath r) (Paths.virtualPath r) None).
Proof.
  intros Hres H. unfold FsWrite.execute in H. rewrite Hres in H.
  destruct (String.eqb (FsWrite.operation a) "create").
  - destruct (FsWrite.content a) as [content|] eqn:Ec; [|discriminate H].
    destruct (truthy (Some content)); cbn [negb] in H; [|discriminate H].
    cbn [FileSearch.opt] in H. unfold FsWrite.createFile in H.
    unfold FS.bind at 1 in H. rewrite fileExists_state in H.
    destruct (FS.lookup f (Paths.absolutePath r)) eqn:El; [discriminate H|].
    destruct (FsWrite.dryRun a); [discriminate H|].
    unfold FS.bind in H.
    destruct (FS.mkdir_recursive _ f) as [[[]|e1] f1] eqn:Em; [|discriminate H].
    destruct (FS.writeFile _ content f1) as [[[]|e2] f2] eqn:Ew; [|discriminate H].
    unfold FS.ret in H. inversion H. subst f2.
    pose proof (writeFile_result _ _ _ _ Ew) as Hl.
    assert (Hflag : flag_after_write (FS.lookup f1 (Paths.absolutePath r)) = true).
    { destruct (FS.lookup f1 (Paths.absolutePath r)) as [[r0 c0|es]|] eqn:E1;
        try reflexivity.
      pose proof (mkdir_recursive_keeps_files _ _ _ _ _ _ Em E1) as E0.
      rewrite El in E0. discriminate E0. }
    rewrite Hflag in Hl.
    exists content. repeat split.
    + now apply readFile_of_file.
    + unfold read_args. now apply (execute_reads_file cwd root f' _ r content).
  - destruct (String.eqb (FsWrite.operation a) "delete").
    + unfold FsWrite.deleteFile, FS.bind, FS.ret in H. rewrite fileExists_state in H.
      split_hyp H; discriminate H.
    + destruct (String.eqb (FsWrite.operation a) "update"); [|discriminate H].
      pose proof (updateFile_op _ _ _ _ _ _ _ _ _ _ H). discriminate.
Qed.

Lemma create_then_read_witness :
  exists content,
    FsWrite.content create_args = Some content
    /\ FS.readFile_of (snd (FsWrite.execute "/" "/ws" create_args zero_fs))
         "/ws/notes/new.md" = Returned content
    /\ Some (Checksum.generateChecksum "hello")
       = Some (Checksum.generateChecksum content)
    /\ FsRead.execute "/" "/ws" (snd (FsWrite.execute "/" "/ws" create_args zero_fs))
         (read_args (FsWrite.path create_args) None)
       = Returned (FsRead.readFile (snd (FsWrite.execute "/" "/ws" create_args zero_fs))
                     "/ws/notes/new.md" "notes/new.md" None).
Proof.
  refine (create_then_read "/" "/ws" create_args zero_fs
            (snd (FsWrite.execute "/" "/ws" create_args zero_fs))
            (Paths.mkResolved "/ws/notes/new.md" "notes/new.md" "notes/new.md")
            "notes/new.md" ("File created. New checksum: " ++ Checksum.generateChecksum "hello")
            (FsWrite.mkPayload "created" (Some 1%Z)
               (Some (Checksum.generateChecksum "hello")) None) _ _);
    vm_compute; reflexivity.
Defined.

Lemma writeFile_readable absPath old new f f' :
  FS.lookup f absPath = Some (FS.File true old) ->
  FS.writeFile absPath new f = (Returned tt, f') ->
  FS.readFile_of f' absPath = Returned new.
Proof.
  intros Hl Hw. apply writeFile_result in Hw. rewrite Hl in Hw.
  now apply readFile_of_file.
Qed.

Ltac tells_here Hl :=
  let H := fresh "H" in
  intros ? ? ? ? ? H;
  unfold FS.ret, FS.throw, FS.bind, FsWrite.fail_update in H;
  split_hyp H;
  first
    [discriminate H
    |repeat match goal with u : unit |- _ => destruct u end;
     inversion H; subst;
     eexists; split;
     [eapply writeFile_readable; [exact Hl|eassumption]|split; reflexivity]].

Lemma finish_update_tells absPath relativePath old new dry action n f :
  FS.lookup f absPath = Some (FS.File true old) ->
  tells_new_content absPath relativePath old
    (FsWrite.finish_update absPath relativePath old new dry action n) f.
Proof. intro Hl. unfold FsWrite.finish_update. tells_here Hl. Qed.

Lemma apply_action_tells absPath relativePath old input t f :
  FS.lookup f absPath = Some (FS.File true old) ->
  tells_new_content absPath relativePath old
    (FsWrite.apply_action absPath relativePath old input t) f.
Proof.
  intro Hl. unfold FsWrite.apply_action.
  split_branches; try apply (finish_update_tells _ _ _ _ _ _ _ _ Hl); tells_here Hl.
Qed.

Lemma updateFile_tells absPath relativePath input f :
  forall p op res h f',
    FsWrite.updateFile absPath relativePath input f
    = (Returned (FsWrite.Success p op true res h), f') ->
    exists old new,
      FS.readFile_of f absPath = Returned old
      /\ FS.readFile_of f' absPath = Returned new
      /\ FsWrite.newChecksum res = Some (Checksum.generateChecksum new)
      /\ FsWrite.diff res = Some (Diff.generateDiff old new relativePath).
Proof.
  unfold FsWrite.updateFile.
  unfold FS.bind at 1. rewrite fileExists_state.
  destruct (FS.lookup f absPath) eqn:El0; cbn [negb];
    [|intros; unfold FS.ret, FsWrite.fail_update in *; discriminate].
  destruct (FileTypes.isTextFile absPath); cbn [negb];
    [|intros; unfold FS.ret, FsWrite.fail_update in *; discriminate].
  destruct (truthy (FsWrite.action input)); cbn [negb];
    [|intros; unfold FS.ret, FsWrite.fail_update in *; discriminate].
  unfold FS.bind at 1. rewrite readFile_state.
  destruct (FS.readFile_of f absPath) as [old|e] eqn:Er;
    [|intros; discriminate].
  pose proof (readFile_of_found _ _ _ Er) as Hl.
  assert (T : forall m, tells_new_content absPath relativePath old m f ->
              forall p op res h f',
                m f = (Returned (FsWrite.Success p op true res h), f') ->
                exists old0 new,
                  Returned old = Returned old0
                  /\ FS.readFile_of f' absPath = Returned new
                  /\ FsWrite.newChecksum res = Some (Checksum.generateChecksum new)
                  /\ FsWrite.diff res = Some (Diff.generateDiff old0 new relativePath)).
  { intros m Hm p op res h f' H. destruct (Hm _ _ _ _ _ H) as (new & H1 & H2 & H3).
    exists old, new. auto. }
  apply T. clear T.
  split_branches; try apply (apply_action_tells _ _ _ _ _ _ Hl); tells_here Hl.
Qed.

(** X10.  An applied update leaves a readable file whose content is the
    one the reported checksum and the reported diff were computed
    from. *)
Theorem applied_update_tells_checksum (cwd root : string) (a : FsWrite.args)
  (f f' : FS.fs) (r : Paths.resolved_path) (p hint : string) (res : FsWrite.payload) :
  Paths.resolvePath cwd root (FsWrite.path a) = Paths.Ok r ->
  FsWrite.execute cwd root a f
  = (Returned (FsWrite.Success p "update" true res hint), f') ->
  exists old new,
    FS.readFile_of f (Paths.absolutePath r) = Returned old
    /\ FS.readFile_of f' (Paths.absolutePath r) = Returned new
    /\ FsWrite.newChecksum res = Some (Checksum.generateChecksum new)
    /\ FsWrite.diff res = Some (Diff.generateDiff old new (Paths.virtualPath r)).
Proof.
  intros Hres H. unfold FsWrite.execute in H. rewrite Hres in H.
  destruct (String.eqb (FsWrite.operation a) "create").
  { exfalso. destruct (truthy (FsWrite.content a)); cbn [negb] in H; [|discriminate H].
    unfold FsWrite.createFile, FS.bind, FS.ret in H. rewrite fileExists_state in H.
    split_hyp H; discriminate H. }
  destruct (String.eqb (FsWrite.operation a) "delete").
  { exfalso. unfold FsWrite.deleteFile, FS.bind, FS.ret in H.
    rewrite fileExists_state in H. split_hyp H; discriminate H. }
  destruct (String.eqb (FsWrite.operation a) "update"); [|discriminate H].
  exact (updateFile_tells _ _ _ _ _ _ _ _ _ H).
Qed.

Lemma applied_update_tells_checksum_witness :
  exists old new,
    FS.readFile_of zero_fs "/ws/x.md" = Returned old
    /\ FS.readFile_of (snd (FsWrite.execute "/" "/ws" replace_args zero_fs)) "/ws/x.md"
       = Returned new
    /\ Some (Checksum.generateChecksum "a
B
c") = Some (Checksum.generateChecksum new)
    /\ Some (Diff.generateDiff "a
b
c" "a
B
c" "x.md") = Some (Diff.generateDiff old new "x.md").
Proof.
  refine (applied_update_tells_checksum "/" "/ws" replace_args zero_fs
            (snd (FsWrite.execute "/" "/ws" replace_args zero_fs))
            (Paths.mkResolved "/ws/x.md" "x.md" "x.md") "x.md"
            ("replaced 1 line(s). New checksum: " ++ Checksum.generateChecksum "a
B
c")
            (FsWrite.mkPayload "replaced" (Some 1%Z)
               (Some (Checksum.generateChecksum "a
B
c"))
               (Some (Diff.generateDiff "a
b
c" "a
B
c" "x.md"))) _ _);
    vm_compute; reflexivity.
Defined.

(** ** The checksum handed from a read to a write *)

Lemma searchInSingleFile_no_file f a b c d p cc h :
  FsRead.searchInSingleFile f a b c d <> Returned (FsRead.FileResult p cc h).
Proof.
  unfold FsRead.searchInSingleFile.
  destruct (negb _); [discriminate|].
  destruct (FS.readFile_of _ _); [|discriminate].
  destruct (FsRead.file_matches _ _ _ _); discriminate.
Qed.

Lemma searchInDirectory_no_file f a b c d p cc h :
  FsRead.searchInDirectory f a b c d <> Returned (FsRead.FileResult p cc h).
Proof.
  unfold FsRead.searchInDirectory.
  destruct (match FsRead.so_respectIgnore _ with Some false => _ | _ => _ end); discriminate.
Qed.

Lemma listDirectory_no_file f a b c d p cc h g :
  match FsRead.listDirectory f a b c d with
  | Thrown e => Thrown e
  | Returned (entries, truncated) =>
     Returned (FsRead.DirectoryResult b entries (g entries) (Some truncated))
  end <> Returned (FsRead.FileResult p cc h).
Proof.
  destruct (FsRead.listDirectory _ _ _ _ _) as [[]|]; discriminate.
Qed.

Lemma readFile_result_checksum f absPath relativePath lines p c h :
  FsRead.readFile f absPath relativePath lines = FsRead.FileResult p c h ->
  exists content,
    FS.readFile_of f absPath = Returned content
    /\ FsRead.checksum c = Checksum.generateChecksum content.
Proof.
  unfold FsRead.readFile. intro H.
  destruct (FileTypes.isTextFile absPath); cbn [negb] in H; [|discriminate H].
  destruct (FS.readFile_of f absPath) as [content|e].
  - exists content. split; [reflexivity|].
    split_hyp H; try discriminate H; inversion H; reflexivity.
  - split_hyp H; discriminate H.
Qed.

Lemma execute_file_result cwd root f ra r p c h :
  Paths.resolvePath cwd root (FsRead.path ra) = Paths.Ok r ->
  FsRead.execute cwd root f ra = Returned (FsRead.FileResult p c h) ->
  FS.lookup f (Paths.absolutePath r) = None
  \/ exists content,
       FS.readFile_of f (Paths.absolutePath r) = Returned content
       /\ FsRead.checksum c = Checksum.generateChecksum content.
Proof.
  intros Hres H.
  destruct (FS.stat_of f (Paths.absolutePath r)) as [st|e] eqn:Es.
  - right. unfold FsRead.execute in H. rewrite Hres, Es in H.
    destruct (truthy (FsRead.find ra)).
    { destruct (FileSearch.searchFiles _ _ _ _); discriminate H. }
    destruct (truthy match FsRead.pattern ra with
                     | Some p0 => Some p0
                     | None => FsRead.preset ra
                     end).
    + exfalso. destruct st.
      * exact (searchInSingleFile_no_file _ _ _ _ _ _ _ _ H).
      * exact (searchInDirectory_no_file _ _ _ _ _ _ _ _ H).
    + destruct st.
      * injection H as H1. exact (readFile_result_checksum _ _ _ _ _ _ _ H1).
      * exfalso. revert H. apply listDirectory_no_file.
  - left. unfold FS.stat_of in Es.
    destruct (FS.lookup f (Paths.absolutePath r)) as [[]|]; [discriminate..|reflexivity].
Qed.

Ltac no_mismatch_here :=
  let H := fresh "H" in
  intros ? ? ? ? ? ? H;
  unfold FS.ret, FS.throw, FS.bind, FsWrite.fail_update in H;
  split_hyp H;
  solve [discriminate H | inversion H; cbn [code]; discriminate].

Lemma finish_update_no_mismatch absPath relativePath current new dry action n f :
  never_mismatch (FsWrite.finish_update absPath relativePath current new dry action n) f.
Proof. unfold FsWrite.finish_update. no_mismatch_here. Qed.

Lemma apply_action_no_mismatch absPath relativePath current input t f :
  never_mismatch (FsWrite.apply_action absPath relativePath current input t) f.
Proof.
  unfold FsWrite.apply_action.
  split_branches; try apply finish_update_no_mismatch; no_mismatch_here.
Qed.

(** X11.  The checksum that a read of a file reports is accepted by a
    write to the same path: as long as the file system has not changed
    in between, the write is not refused with [CHECKSUM_MISMATCH]. *)
Theorem fresh_checksum_accepted (cwd root : string) (f f' : FS.fs)
  (ra : FsRead.args) (a : FsWrite.args)
  (p : string) (c : FsRead.file_content) (h : string)
  (p' : string) (op : option string) (ap : option bool) (e : error) (h' : option string) :
  FsWrite.path a = FsRead.path ra ->
  FsRead.execute cwd root f ra = Returned (FsRead.FileResult p c h) ->
  FsWrite.checksum a = Some (FsRead.checksum c) ->
  FsWrite.execute cwd root a f = (Returned (FsWrite.Failure p' op ap e h'), f') ->
  code e <> CHECKSUM_MISMATCH.
Proof.
  intros Hpath Hread Hsum. revert p' op ap e h' f'.
  change (never_mismatch (FsWrite.execute cwd root a) f).
  unfold FsWrite.execute. rewrite Hpath.
  destruct (Paths.resolvePath cwd root (FsRead.path ra)) as [r|msg] eqn:Hres;
    [|no_mismatch_here].
  destruct (String.eqb (FsWrite.operation a) "create").
  { destruct (truthy (FsWrite.content a)); cbn [negb]; [|no_mismatch_here].
    unfold never_mismatch, FsWrite.createFile. unfold FS.bind at 1.
    rewrite fileExists_state.
    destruct (FS.lookup f (Paths.absolutePath r)); no_mismatch_here. }
  destruct (String.eqb (FsWrite.operation a) "delete").
  { unfold never_mismatch, FsWrite.deleteFile. unfold FS.bind at 1.
    rewrite fileExists_state.
    destruct (FS.lookup f (Paths.absolutePath r)); no_mismatch_here. }
  destruct (String.eqb (FsWrite.operation a) "update"); [|no_mismatch_here].
  unfold never_mismatch, FsWrite.updateFile.
  unfold FS.bind at 1. rewrite fileExists_state.
  destruct (execute_file_result _ _ _ _ _ _ _ _ Hres Hread) as [Hnone|(content & Hr & Hc)].
  - rewrite Hnone. cbn [negb]. no_mismatch_here.
  - pose proof (readFile_of_found _ _ _ Hr) as Hl. rewrite Hl. cbn [negb].
    destruct (FileTypes.isTextFile (Paths.absolutePath r)); cbn [negb];
      [|no_mismatch_here].
    destruct (truthy (FsWrite.action a)); cbn [negb]; [|no_mismatch_here].
    unfold FS.bind at 1. rewrite readFile_state, Hr.
    rewrite Hsum, Hc. cbn [FileSearch.opt]. rewrite String.eqb_refl.
    cbn [negb]. rewrite andb_false_r.
    split_branches; try apply apply_action_no_mismatch; no_mismatch_here.
Qed.

Lemma fresh_checksum_accepted_witness :
  code (mkError OUT_OF_RANGE "Line 7 beyond file end (3 lines)") <> CHECKSUM_MISMATCH.
Proof.
  refine (fresh_checksum_accepted "/" "/ws" zero_fs zero_fs
            (read_args "x.md" None) fresh_args
            "x.md"
            (FsRead.mkContent "1|a
2|b
3|c" (Checksum.generateChecksum "a
b
c") 3 None false)
            ("Checksum: " ++ Checksum.generateChecksum "a
b
c" ++ " (required for fs_write)")
            "x.md" (Some "update") (Some false)
            (mkError OUT_OF_RANGE "Line 7 beyond file end (3 lines)") None _ _ _ _);
    vm_compute; reflexivity.
Defined.

(** ** Progress of the pattern scan *)

(** ** The scan of [findMatches] *)

Lemma follows_refl p : follows p p.
Proof. split; [lia|reflexivity]. Qed.

Lemma follows_trans p q r : follows p q -> follows q r -> follows p r.
Proof. intros [H1 H2] [H3 H4]. split; [lia|congruence]. Qed.

Lemma consume_advancing ok k : advancing k -> advancing (RegExp.consume ok k).
Proof.
  intros Hk p q. unfold RegExp.consume.
  destruct p as [bef aft]. cbn [RegExp.after RegExp.before].
  destruct aft as [|a t]; [discriminate|].
  destruct (ok a); [|discriminate]. intro H. apply Hk in H.
  eapply follows_trans; [|exact H]. split.
  - unfold RegExp.index_of. cbn. lia.
  - cbn. now rewrite <- app_assoc.
Qed.

Lemma orelse_some {A} (x y : option A) (v : A) :
  RegExp.orelse x y = Some v -> x = Some v \/ y = Some v.
Proof. destruct x; cbn; auto. Qed.

Lemma mt_advancing fl r : forall k, advancing k -> advancing (RegExp.mt fl r k).
Proof.
  induction r as [| c | | neg items | | | | | a IHa | a IHa | a IHa | a IHa
                  | a IHa b IHb | a IHa b IHb | greedy a IHa
                  | greedy a IHa next IHn]; intros k Hk; cbn [RegExp.mt].
  - exact Hk.
  - now apply consume_advancing.
  - now apply consume_advancing.
  - now apply consume_advancing.
  - intros p q. destruct (RegExp.at_bol fl p); [apply Hk|discriminate].
  - intros p q. destruct (RegExp.at_eol fl p); [apply Hk|discriminate].
  - intros p q. destruct (RegExp.at_word_boundary p); [apply Hk|discriminate].
  - intros p q. destruct (RegExp.at_word_boundary p); [discriminate|apply Hk].
  - intros p q. destruct (RegExp.mt fl a Some p); [apply Hk|discriminate].
  - intros p q. destruct (RegExp.mt fl a Some p); [discriminate|apply Hk].
  - intros p q. destruct (existsb _ _); [apply Hk|discriminate].
  - intros p q. destruct (existsb _ _); [discriminate|apply Hk].
  - apply IHa. now apply IHb.
  - intros p q H. apply orelse_some in H. destruct H as [H|H].
    + exact (IHa k Hk p q H).
    + exact (IHb k Hk p q H).
  - set (loop :=
           fix loop (n : nat) (p : RegExp.pos) {struct n} : option RegExp.pos :=
             match n with
             | O => k p
             | S n' =>
                 let more :=
                   RegExp.mt fl a
                     (fun q =>
                        if List.length (RegExp.after q) <? List.length (RegExp.after p)
                        then loop n' q else None) p in
                 if greedy then RegExp.orelse more (k p) else RegExp.orelse (k p) more
             end).
    assert (Hloop : forall n p q, loop n p = Some q -> follows p q).
    { induction n as [|n IHn]; intros p q H.
      - apply Hk. exact H.
      - assert (Hmore : advancing
                          (fun q0 =>
                             if List.length (RegExp.after q0)
                                <? List.length (RegExp.after p)
                             then loop n q0 else None)).
        { intros p0 q0. destruct (_ <? _); [apply IHn|discriminate]. }
        pose proof (IHa _ Hmore p q) as Ha.
        change (loop (S n) p)
          with (let more :=
                  RegExp.mt fl a
                    (fun q0 =>
                       if List.length (RegExp.after q0) <? List.length (RegExp.after p)
                       then loop n q0 else None) p in
                if greedy then RegExp.orelse more (k p) else RegExp.orelse (k p) more)
          in H.
        cbv zeta in H. destruct greedy; apply orelse_some in H; destruct H as [H|H];
          first [now apply Ha | now apply Hk]. }
    intros p q H. exact (Hloop (S (List.length (RegExp.after p))) p q H).
  - intros p q H.
    assert (Hmore : advancing
                      (fun q0 =>
                         if List.length (RegExp.after q0) <? List.length (RegExp.after p)
                         then RegExp.mt fl next k q0 else None)).
    { intros p0 q0. destruct (_ <? _); [now apply IHn|discriminate]. }
    pose proof (IHa _ Hmore p q) as Ha.
    cbv zeta in H. destruct greedy; apply orelse_some in H; destruct H as [H|H];
      first [now apply Ha | now apply Hk].
Qed.

Lemma follows_bounds p q :
  follows p q ->
  RegExp.index_of p <= RegExp.index_of q
  /\ RegExp.index_of q <= RegExp.index_of p + List.length (RegExp.after p).
Proof.
  intros [H1 H2]. split; [exact H1|].
  apply (f_equal (@List.length _)) in H2.
  rewrite !length_app, !length_rev in H2. unfold RegExp.index_of in *. lia.
Qed.

Lemma mt_some_bounds fl r p q :
  RegExp.mt fl r Some p = Some q ->
  RegExp.index_of p <= RegExp.index_of q
  /\ RegExp.index_of q <= RegExp.index_of p + List.length (RegExp.after p).
Proof.
  intro H. apply follows_bounds.
  refine (mt_advancing fl r Some _ p q H).
  intros p0 q0 E. inversion E. apply follows_refl.
Qed.

Lemma search_bounds rx : forall aft bef i e,
  RegExp.search rx bef aft = Some (i, e) ->
  List.length bef <= i /\ i <= e /\ e <= List.length bef + List.length aft.
Proof.
  induction aft as [|a t IH]; intros bef i e; cbn [RegExp.search].
  - destruct (RegExp.mt _ _ Some _) as [q|] eqn:Em; [|discriminate].
    intro H. inversion H; subst. apply mt_some_bounds in Em.
    unfold RegExp.index_of in *. cbn [RegExp.before RegExp.after List.length] in *. lia.
  - destruct (RegExp.mt _ _ Some _) as [q|] eqn:Em.
    + intro H. inversion H; subst. apply mt_some_bounds in Em.
      unfold RegExp.index_of in *. cbn [RegExp.before RegExp.after List.length] in *. lia.
    + intro H. apply IH in H. cbn [List.length] in *. lia.
Qed.

Lemma search_from_bounds rx content start i e :
  RegExp.search_from rx content start = Some (i, e) ->
  start <= i /\ i <= e /\ e <= String.length content.
Proof.
  unfold RegExp.search_from.
  destruct (_ <? _) eqn:El; [discriminate|]. apply Nat.ltb_ge in El.
  intro H. apply search_bounds in H.
  rewrite length_rev, length_firstn, length_skipn in H.
  rewrite length_list_ascii_of_string in *. lia.
Qed.

Lemma located_within content i e :
  i <= e -> e <= String.length content ->
  match_within content (Patterns.located content i e).
Proof.
  intros H1 H2. unfold match_within, Patterns.located.
  cbn [Patterns.index Patterns.text]. unfold JS.substring.
  rewrite substring_length by lia.
  replace (i + (e - i) - i) with (e - i) by lia. split; [lia|reflexivity].
Qed.

Lemma scan_with_progress content exec :
  honours_lastIndex content exec ->
  forall n last,
    List.length (Patterns.scan_with exec true content n last) <= n
    /\ ascending last (map Patterns.index (Patterns.scan_with exec true content n last))
    /\ Forall (match_within content) (Patterns.scan_with exec true content n last).
Proof.
  intro Hx. induction n as [|n IH]; intro last; cbn [Patterns.scan_with].
  - cbn. repeat split; [lia|constructor].
  - destruct (exec last) as [[i e]|] eqn:Es.
    + apply Hx in Es. destruct Es as (H1 & H2 & H3).
      destruct (IH (if i =? e then S e else e)) as (L & A & W).
      cbn [List.length map ascending]. repeat split.
      * lia.
      * exact H1.
      * cbn [Patterns.located Patterns.index].
        destruct (i =? e) eqn:E.
        -- apply Nat.eqb_eq in E. subst e. exact A.
        -- apply Nat.eqb_neq in E.
           destruct (Patterns.scan_with exec true content n e) as [|m ms]; [exact I|].
           cbn [map ascending] in *. destruct A as [A1 A2]. split; [lia|exact A2].
      * constructor; [now apply located_within|exact W].
    + cbn. repeat split; [lia|constructor].
Qed.

(** X12.  The loop of [findMatches], whose expression always has the
    [g] flag, run with any [exec] that keeps the promise of the host (a
    match starts at [lastIndex] or after it, within the content):
    whatever the pattern and the mode, it reports at most [maxMatches]
    matches (1000 by default), at strictly increasing indices, each one
    the text that stands at its index in the content. *)
Theorem findMatches_loop_progress (content : string)
  (exec : nat -> option (nat * nat)) (maxMatches : option nat) :
  honours_lastIndex content exec ->
  let ms :=
    Patterns.scan_with exec true content (Patterns.default 1000 maxMatches) 0 in
  List.length ms <= Patterns.default 1000 maxMatches
  /\ ascending 0 (map Patterns.index ms)
  /\ Forall (match_within content) ms.
Proof.
  intros Hx ms. exact (scan_with_progress content exec Hx _ 0).
Qed.

(** The loop of [findMatches] over the expressions of the embedding is
    this loop, and their [exec] keeps the promise. *)
Lemma scan_as_scan_with rx content : forall n last,
  Patterns.scan rx content n last
  = Patterns.scan_with (RegExp.exec rx content) (RegExp.global (RegExp.rflags rx))
      content n last.
Proof.
  induction n as [|n IH]; intro last; [reflexivity|].
  cbn [Patterns.scan Patterns.scan_with].
  destruct (RegExp.exec rx content last) as [[i e]|]; [|reflexivity].
  now rewrite IH.
Qed.

Lemma exec_honours_lastIndex rx content :
  RegExp.global (RegExp.rflags rx) = true ->
  honours_lastIndex content (RegExp.exec rx content).
Proof.
  intros Hg last i e. unfold RegExp.exec. rewrite Hg. apply search_from_bounds.
Qed.

Lemma findMatches_loop_progress_witness :
  let ms :=
    Patterns.scan_with (RegExp.exec numbered_b "ab1 b22") true "ab1 b22"
      (Patterns.default 1000 None) 0 in
  List.length ms <= Patterns.default 1000 None
  /\ ascending 0 (map Patterns.index ms)
  /\ Forall (match_within "ab1 b22") ms.
Proof.
  apply (findMatches_loop_progress "ab1 b22" (RegExp.exec numbered_b "ab1 b22") None).
  apply exec_honours_lastIndex. reflexivity.
Defined.

(** The two matches of that scan, as [findMatches] reports them. *)
Example findMatches_numbered_b :
  Patterns.findMatches "ab1 b22" "b\d+" "regex" Patterns.no_options
  = Returned (Patterns.scan_with (RegExp.exec numbered_b "ab1 b22") true "ab1 b22" 1000 0)
  /\ Patterns.scan_with (RegExp.exec numbered_b "ab1 b22") true "ab1 b22" 1000 0
     = [Patterns.mkMatch 1 "b1" 1 2; Patterns.mkMatch 4 "b22" 1 5].
Proof. split; vm_compute; reflexivity. Qed.

Lemma compile_flags source fl rx :
  RegExp.compile source fl = Some rx ->
  RegExp.parse_flags (RegExp.mkFlags false false false false) fl
  = Some (RegExp.rflags rx).
Proof.
  unfold RegExp.compile. destruct (RegExp.parse source); [|discriminate].
  destruct (RegExp.parse_flags _ fl); [|discriminate].
  intro H. inversion H. reflexivity.
Qed.

Lemma buildPattern_global pattern mode o rx :
  Patterns.buildPattern pattern mode o = Returned rx ->
  RegExp.global (RegExp.rflags rx) = true.
Proof.
  unfold Patterns.buildPattern.
  destruct (RegExp.compile _ _) as [rx'|] eqn:Ec; [|discriminate].
  intro H. inversion H. subst rx'. apply compile_flags in Ec.
  unfold Patterns.pattern_flags in Ec.
  destruct (Patterns.multiline o), (Patterns.caseInsensitive o);
    cbn in Ec; inversion Ec; reflexivity.
Qed.

(** With the expressions of the embedding, [findMatches] itself. *)
Lemma findMatches_embedded (content pattern mode : string) (o : Patterns.options)
  (ms : list Patterns.match_) :
  Patterns.findMatches content pattern mode o = Returned ms ->
  List.length ms <= Patterns.default 1000 (Patterns.maxMatches o)
  /\ ascending 0 (map Patterns.index ms)
  /\ Forall (match_within content) ms.
Proof.
  unfold Patterns.findMatches.
  destruct (Patterns.buildPattern pattern mode o) as [rx|e] eqn:Eb; [|discriminate].
  intro H. inversion H. subst ms.
  pose proof (buildPattern_global _ _ _ _ Eb) as Hg.
  rewrite scan_as_scan_with, Hg.
  apply scan_with_progress. now apply exec_honours_lastIndex.
Qed.

(** ** A preset without the [g] flag *)

Lemma scan_not_global rx content :
  RegExp.global (RegExp.rflags rx) = false ->
  forall n last,
    Patterns.scan rx content n last
    = match RegExp.exec rx content 0 with
      | Some (i, e) => List.repeat (Patterns.located content i e) n
      | None => []
      end.
Proof.
  intro Hg. induction n as [|n IH]; intro last; cbn [Patterns.scan].
  - destruct (RegExp.exec rx content 0) as [[i e]|]; reflexivity.
  - assert (Ex : RegExp.exec rx content last = RegExp.exec rx content 0).
    { unfold RegExp.exec. now rewrite Hg. }
    rewrite Ex. destruct (RegExp.exec rx content 0) as [[i e]|] eqn:Es; [|reflexivity].
    cbn [List.repeat]. f_equal. rewrite IH. reflexivity.
Qed.

(** X13.  The preset [frontmatter] is the one preset compiled without the
    [g] flag, so every [exec] of the scan starts at index 0 again: when
    the content has front matter, the same match is reported
    [maxMatches] times (1000 by default). *)
Theorem frontmatter_match_repeated (content : string) (maxMatches : option nat) :
  exists ms,
    Patterns.findPresetMatches content "frontmatter" maxMatches = Returned ms
    /\ (ms = []
        \/ exists m, ms = List.repeat m (Patterns.default 1000 maxMatches)).
Proof.
  unfold Patterns.findPresetMatches.
  assert (E : exists rx, Patterns.buildPresetPattern "frontmatter" = Returned rx
                         /\ RegExp.global (RegExp.rflags rx) = false).
  { eexists. split; [vm_compute; reflexivity|reflexivity]. }
  destruct E as (rx & Eb & Hg). rewrite Eb.
  eexists. split; [reflexivity|].
  rewrite (scan_not_global _ _ Hg).
  destruct (RegExp.exec rx content 0) as [[i e]|]; [right; eauto|now left].
Qed.

(** A note with front matter, searched for at most three matches. *)
Example frontmatter_three_times :
  Patterns.findPresetMatches "---
title: x
---
body" "frontmatter" (Some 3)
  = Returned (List.repeat (Patterns.mkMatch 0 "---
title: x
---" 1 1) 3).
Proof. vm_compute. reflexivity. Qed.

(** ** Replacing the one occurrence of a pattern *)

Lemma firstn_single {A} n (x : A) : 0 < n -> firstn n [x] = [x].
Proof. destruct n; [lia|]. intros _. cbn. now rewrite firstn_nil. Qed.

Lemma literal_matches_single pattern content j n :
  occurrences pattern content = [j] -> 0 < n ->
  literal_matches pattern content n
  = [Patterns.located content j (j + String.length pattern)].
Proof.
  intros Ho Hn. unfold literal_matches. rewrite Ho, firstn_single by assumption.
  reflexivity.
Qed.

Lemma single_occurrence_bound pattern content j :
  occurrences pattern content = [j] ->
  j + String.length pattern <= String.length content.
Proof.
  intro Ho. pose proof (occurrences_spaced pattern content 1) as Hs.
  rewrite Ho in Hs. cbn in Hs. lia.
Qed.

Lemma located_text_length content j len :
  j + len <= String.length content ->
  String.length (Patterns.text (Patterns.located content j (j + len))) = len.
Proof.
  intro H. unfold Patterns.located. cbn [Patterns.text]. unfold JS.substring.
  replace (j + len - j) with len by lia. now apply substring_length.
Qed.

(** X14.  An update that replaces a literal pattern occurring exactly
    once in a text file writes the content with that one occurrence
    replaced, with [replaceAll] set or not. *)
Theorem update_unique_occurrence
  (f : FS.fs) (absPath relativePath content pattern : string) (j : nat)
  (input : FsWrite.args) :
  FS.lookup f absPath = Some (FS.File true content) ->
  FileTypes.isTextFile absPath = true ->
  FsWrite.action input = Some "replace" ->
  truthy (FsWrite.lines input) = false ->
  FsWrite.pattern input = Some pattern ->
  pattern <> "" ->
  FsWrite.patternMode input = None \/ FsWrite.patternMode input = Some "literal" ->
  FsWrite.caseInsensitive input = false ->
  occurrences pattern content = [j] ->
  truthy (FsWrite.checksum input) = false
  \/ FsWrite.checksum input = Some (Checksum.generateChecksum content) ->
  FsWrite.dryRun input = false ->
  exists res hint f',
    FsWrite.updateFile absPath relativePath input f
    = (Returned (FsWrite.Success relativePath "update" true res hint), f')
    /\ FS.readFile_of f' absPath
       = Returned (JS.take j content ++ FileSearch.opt "" (FsWrite.content input)
                   ++ JS.drop (j + String.length pattern) content).
Proof.
  intros Hl Ht Ha Hn Hp Hne Hm Hci Ho Hc Hd.
  set (new := JS.take j content ++ FileSearch.opt "" (FsWrite.content input)
              ++ JS.drop (j + String.length pattern) content).
  destruct (writeFile_existing f absPath true content new Hl) as (f' & Hw & Hl').
  pose proof (single_occurrence_bound _ _ _ Ho) as Hb.
  assert (Hmode : FileSearch.opt "literal" (FsWrite.patternMode input) = "literal").
  { destruct Hm as [Hm|Hm]; now rewrite Hm. }
  assert (Hlit : literal_options (FsWrite.pattern_options input)).
  { split; [exact Hci|reflexivity]. }
  assert (Hk : (truthy (FsWrite.checksum input)
                && negb (String.eqb (FileSearch.opt "" (FsWrite.checksum input))
                           (Checksum.generateChecksum content)))%bool = false).
  { destruct Hc as [Hc|Hc]; rewrite Hc; [reflexivity|].
    cbn [FileSearch.opt]. rewrite String.eqb_refl. apply andb_false_r. }
  assert (Htp : truthy (Some pattern) = true).
  { cbn [truthy]. apply negb_true_iff. now apply String.eqb_neq. }
  destruct (FsWrite.replaceAll input) eqn:Hra;
    do 2 eexists; exists f'; (split; [|unfold FS.readFile_of; now rewrite Hl']);
    unfold FsWrite.updateFile;
    unfold FS.bind at 1; rewrite (fileExists_found f absPath _ Hl);
    cbn [negb]; rewrite Ht, Ha; cbn [negb truthy String.eqb Ascii.eqb Bool.eqb andb];
    unfold FS.bind at 1; rewrite (readFile_found f absPath content Hl);
    rewrite Hk, Hn, Hp, Hmode, Hra; cbn [FileSearch.opt]; rewrite Htp.
  - rewrite String.eqb_refl. cbn [andb].
    unfold Patterns.replaceAllMatches.
    rewrite (findMatches_literal_capped content pattern _ 10000 Hlit).
    rewrite (literal_matches_single _ _ _ _ Ho) by (vm_compute; lia).
    cbn [rev app fold_left fst snd List.length Patterns.count Patterns.newContent
         Patterns.affectedLines Nat.eqb].
    unfold Patterns.splice.
    rewrite located_text_length by assumption.
    change (Patterns.index (Patterns.located content j (j + String.length pattern)))
      with j.
    fold new.
    rewrite Hd. unfold FS.bind. rewrite Hw. unfold FS.ret. reflexivity.
  - cbn [andb]. unfold Patterns.findUniqueMatch.
    rewrite (findMatches_literal_capped content pattern _ 10 Hlit).
    rewrite (literal_matches_single _ _ _ _ Ho) by lia.
    unfold FsWrite.apply_action. rewrite Ha. cbn [FileSearch.opt].
    rewrite String.eqb_refl. cbn [FsWrite.patternMatch].
    rewrite located_text_length by assumption.
    change (Patterns.index (Patterns.located content j (j + String.length pattern)))
      with j.
    fold new.
    unfold FsWrite.finish_update. rewrite Hd.
    unfold FS.bind. rewrite Hw. unfold FS.ret. reflexivity.
Qed.

Lemma update_unique_occurrence_witness :
  exists res hint f',
    FsWrite.updateFile "/ws/x.md" "x.md" occurrence_args zero_fs
    = (Returned (FsWrite.Success "x.md" "update" true res hint), f')
    /\ FS.readFile_of f' "/ws/x.md"
       = Returned (JS.take 2 "a
b
c" ++ FileSearch.opt "" (FsWrite.content occurrence_args)
                   ++ JS.drop (2 + String.length "b") "a
b
c").
Proof.
  refine (update_unique_occurrence zero_fs "/ws/x.md" "x.md" "a
b
c" "b" 2 occurrence_args _ _ _ _ _ _ _ _ _ _ _);
    try (vm_compute; reflexivity).
  - discriminate.
  - left. reflexivity.
  - left. reflexivity.
Defined.

(** ** Fuzzy matching and the ranking of a name search *)

(** ** Fuzzy matching *)

Lemma ascending_weaken base base' l : base' <= base -> ascending base l -> ascending base' l.
Proof. destruct l; cbn; [trivial|]. intros H [H1 H2]. split; [lia|assumption]. Qed.

Lemma scan_indices_sound t : forall q pre ix,
  FileSearch.scan_indices q t (List.length pre) = (ix, []) ->
  subseq q t = true
  /\ ascending (List.length pre) ix
  /\ map (nth_error (pre ++ t)%list) ix = map Some q.
Proof.
  induction t as [|c t IH]; intros q pre ix H.
  - destruct q; cbn in H; inversion H. repeat split.
  - destruct q as [|a q].
    + cbn in H. inversion H. repeat split.
    + cbn [FileSearch.scan_indices] in H. cbn [subseq].
      replace (S (List.length pre)) with (List.length (pre ++ [c])%list) in H
        by (rewrite length_app; cbn; lia).
      replace (pre ++ c :: t)%list with ((pre ++ [c]) ++ t)%list
        by (now rewrite <- app_assoc).
      destruct (Ascii.eqb c a) eqn:E.
      * destruct (FileSearch.scan_indices q t _) as [ix' rest] eqn:Es.
        inversion H. subst ix rest.
        destruct (IH _ _ _ Es) as (H1 & H2 & H3).
        apply Ascii.eqb_eq in E. subst a. rewrite H1.
        split; [reflexivity|split].
        -- cbn [ascending]. split; [lia|].
           rewrite length_app in H2. cbn in H2.
           now replace (List.length pre + 1) with (S (List.length pre)) in H2 by lia.
        -- cbn [map]. rewrite H3. f_equal.
           rewrite <- app_assoc. cbn [app].
           rewrite nth_error_app2 by lia. now rewrite Nat.sub_diag.
      * destruct (IH _ _ _ H) as (H1 & H2 & H3). rewrite H1, orb_true_r.
        split; [reflexivity|split; [|exact H3]].
        eapply ascending_weaken; [|exact H2]. rewrite length_app. lia.
Qed.

Lemma scan_indices_rest t : forall q i,
  snd (FileSearch.scan_indices q t i) <> [] -> subseq q t = false.
Proof.
  intros q i H. destruct (subseq q t) eqn:E; [|reflexivity].
  now rewrite (scan_indices_complete t q i E) in H.
Qed.

(** X15.  [fuzzyMatch] succeeds exactly when the code units of the query
    can be read off the target from left to right, letter case aside;
    its indices then increase strictly and point at the code units of
    the query, in order. *)
Theorem fuzzyMatch_subsequence (query target : string) :
  let q := list_ascii_of_string (JS.toLowerCase query) in
  let t := list_ascii_of_string (JS.toLowerCase target) in
  match FileSearch.fuzzyMatch query target with
  | Some m =>
      subseq q t = true
      /\ ascending 0 (FileSearch.findices m)
      /\ map (nth_error t) (FileSearch.findices m) = map Some q
  | None => subseq q t = false
  end.
Proof.
  intros q t. unfold FileSearch.fuzzyMatch. fold q t.
  destruct (FileSearch.scan_indices q t 0) as [ix [|a rest]] eqn:Es.
  - cbn [FileSearch.findices]. exact (scan_indices_sound t q [] ix Es).
  - apply (scan_indices_rest t q 0). rewrite Es. discriminate.
Qed.

(** ** The results of a name search *)

Lemma insert_scored_sorted x l :
  StronglySorted not_worse l -> StronglySorted not_worse (FileSearch.insert_scored x l).
Proof.
  induction 1 as [|y r Hr IH Hy]; cbn [FileSearch.insert_scored].
  - constructor; constructor.
  - destruct (FileSearch.score y >=? FileSearch.score x)%Z eqn:E.
    + constructor; [exact IH|].
      apply (Permutation_Forall (x := x :: r)).
      * symmetry. apply insert_scored_perm.
      * constructor; [|exact Hy]. unfold not_worse.
        rewrite Z.geb_leb in E. now apply Z.leb_le in E.
    + rewrite Z.geb_leb in E. apply Z.leb_gt in E.
      constructor; [now constructor|].
      constructor; [unfold not_worse; lia|].
      eapply Forall_impl; [|exact Hy]. unfold not_worse. intros z Hz. lia.
Qed.

Lemma sort_scored_sorted l : StronglySorted not_worse (FileSearch.sort_scored l).
Proof.
  unfold FileSearch.sort_scored.
  assert (G : forall acc, StronglySorted not_worse acc ->
                          StronglySorted not_worse
                            (fold_left (fun acc x => FileSearch.insert_scored x acc) l acc)).
  { induction l as [|x r IH]; intros acc Ha; [exact Ha|].
    cbn [fold_left]. apply IH. now apply insert_scored_sorted. }
  apply G. constructor.
Qed.

Lemma firstn_sorted {A} (R : A -> A -> Prop) n l :
  StronglySorted R l -> StronglySorted R (firstn n l).
Proof.
  intro H. revert n. induction H as [|x l Hl IH Hx]; intros [|n]; cbn [firstn];
    try constructor.
  - apply IH.
  - now apply Forall_firstn.
Qed.

Lemma walk_listable f m excl inc levels : forall dir relDir entries,
  Forall (listable inc) entries ->
  Forall (listable inc) (fst (FileSearch.walk f m excl inc levels dir relDir entries)).
Proof.
  induction levels as [|n IH]; intros dir relDir entries He; [exact He|].
  cbn [FileSearch.walk].
  destruct (FS.readdir_of f dir) as [items|e]; [|exact He].
  revert entries He. induction items as [|item rest IHr]; intros entries He; [exact He|].
  destruct (JS.startsWith item ".") eqn:E1; [now apply IHr|].
  destruct (FileTypes.mem item FileSearch.ALWAYS_EXCLUDE) eqn:E2; [now apply IHr|].
  match goal with
  | |- context [match m with Some _ => _ | None => false end] =>
      destruct (match m with
                | Some m0 =>
                    Ignore.isIgnored m0
                      (if String.eqb relDir "" then item
                       else JS.replace_char "\" "/" (NodePath.join relDir item))
                | None => false
                end) eqn:E3
  end.
  - now apply IHr.
  - destruct (match excl with
              | [] => Returned false
              | _ :: _ =>
                  FileTypes.shouldExclude
                    (if String.eqb relDir "" then item
                     else JS.replace_char "\" "/" (NodePath.join relDir item)) excl
              end) as [[|]|e] eqn:E4.
    + now apply IHr.
    + destruct (FS.stat_of f (NodePath.join dir item)) as [[size|]|e].
      * apply IHr. apply Forall_app. split; [exact He|].
        constructor; [|constructor]. repeat split; cbn; try assumption. discriminate.
      * apply IHr. apply IH. destruct inc; [|exact He].
        apply Forall_app. split; [exact He|].
        constructor; [|constructor]. repeat split; cbn; assumption.
      * now apply IHr.
    + exact He.
Qed.

Lemma filter_map_sentry root q entries :
  Forall (fun sc => In (FileSearch.sentry sc) entries)
         (FileSearch.filter_map (FileSearch.score_entry root q) entries).
Proof.
  induction entries as [|e r IH]; [constructor|].
  cbn [FileSearch.filter_map].
  destruct (FileSearch.score_entry root q e) as [sc|] eqn:Es.
  - constructor.
    + left. symmetry. exact (score_entry_sentry _ _ _ _ Es).
    + eapply Forall_impl; [|exact IH]. intros a Ha. now right.
  - eapply Forall_impl; [|exact IH]. intros a Ha. now right.
Qed.

Lemma Forall_firstn_of {A} (P : A -> Prop) n l : Forall P l -> Forall P (firstn n l).
Proof. apply Forall_firstn. Qed.

(** X16.  A name search answers with at most [maxResults] entries (50 by
    default), best score first; none of them is a dot entry or one of
    the directories always left out, and directories are among them
    only when the caller asked for them. *)
Theorem searchFiles_ranked (f : FS.fs) (root query : string)
  (options : FileSearch.search_options) (results : list FileSearch.scored) :
  FileSearch.searchFiles f root query options = Returned results ->
  List.length results <= FileSearch.opt 50 (FileSearch.maxResults options)
  /\ StronglySorted not_worse results
  /\ Forall (fun r =>
               listable (FileSearch.opt false (FileSearch.includeDirectories options))
                        (FileSearch.sentry r))
            results.
Proof.
  unfold FileSearch.searchFiles.
  destruct (if FileSearch.opt true (FileSearch.respectIgnore options)
            then match Ignore.createIgnoreMatcherForDir f root with
                 | Returned m => Returned (Some m)
                 | Thrown e => Thrown e
                 end
            else Returned None) as [m|e]; [|discriminate].
  pose proof (walk_listable f m (FileSearch.opt [] (FileSearch.exclude options))
                (FileSearch.opt false (FileSearch.includeDirectories options))
                (Z.to_nat (FileSearch.opt 10%Z (FileSearch.maxDepth options) + 1))
                root "" [] (Forall_nil _)) as Hw.
  destruct (FileSearch.walk _ _ _ _ _ _ _ _) as [entries [e|]]; [discriminate|].
  cbn [fst] in Hw. intro H. inversion H. subst results. clear H.
  split; [|split].
  - rewrite length_firstn. lia.
  - apply firstn_sorted, sort_scored_sorted.
  - apply Forall_firstn.
    apply (Permutation_Forall (x := FileSearch.filter_map (FileSearch.score_entry root (JS.trim (JS.toLowerCase query))) entries)).
    + symmetry. apply sort_scored_perm.
    + eapply Forall_impl; [|apply filter_map_sentry].
      intros sc Hin. cbv beta in Hin. rewrite Forall_forall in Hw. now apply Hw.
Qed.

Lemma searchFiles_ranked_witness :
  List.length
    [FileSearch.mkScored (FileSearch.mkEntry "x.md" "x.md" false "md") "/ws/x.md" 9 [0]]
  <= FileSearch.opt 50 (FileSearch.maxResults FileSearch.no_search_options)
  /\ StronglySorted not_worse
       [FileSearch.mkScored (FileSearch.mkEntry "x.md" "x.md" false "md") "/ws/x.md" 9 [0]]
  /\ Forall (fun r =>
               listable
                 (FileSearch.opt false
                    (FileSearch.includeDirectories FileSearch.no_search_options))
                 (FileSearch.sentry r))
       [FileSearch.mkScored (FileSearch.mkEntry "x.md" "x.md" false "md") "/ws/x.md" 9 [0]].
Proof.
  apply (searchFiles_ranked zero_fs "/ws" "x" FileSearch.no_search_options).
  vm_compute. reflexivity.
Defined.

(** ** Bounds of the answers of a read *)

(** ** The diff of a text with itself *)

Lemma same_refl a : Diff.same a a = true.
Proof. destruct a; cbn; [apply String.eqb_refl|reflexivity]. Qed.

Lemma skip_equal_same (l : list string) : forall fuel (i : Z),
  (0 <= i <= Diff.len l)%Z -> (Diff.len l - i < Z.of_nat fuel)%Z ->
  Diff.skip_equal fuel l l i i = (Diff.len l, Diff.len l).
Proof.
  induction fuel as [|fuel IH]; intros i Hi Hf; [lia|].
  cbn [Diff.skip_equal]. rewrite same_refl, andb_true_r, andb_diag.
  destruct (i <? Diff.len l)%Z eqn:E.
  - apply Z.ltb_lt in E. apply IH; lia.
  - apply Z.ltb_ge in E. f_equal; lia.
Qed.

(** X17.  The diff of a content with itself is the text [(no changes)],
    for every content and file name. *)
Theorem generateDiff_identical (content filename : string) :
  Diff.generateDiff content content filename = "(no changes)".
Proof.
  unfold Diff.generateDiff, Diff.generateHunks.
  set (l := JS.split_lines content).
  assert (Hn : (1 <= Diff.len l)%Z).
  { unfold Diff.len, l, JS.split_lines.
    pose proof (split_by_nonempty JS.is_nl content).
    destruct (JS.split_by JS.is_nl content); [contradiction|]. cbn [List.length]. lia. }
  cbn [Diff.hunks_loop].
  assert (E : (0 <? Diff.len l)%Z = true) by (apply Z.ltb_lt; lia).
  rewrite E. cbn [orb].
  rewrite skip_equal_same by (unfold Diff.len in *; lia).
  assert (E2 : (Diff.len l >=? Diff.len l)%Z = true)
    by (rewrite Z.geb_leb; apply Z.leb_refl).
  rewrite E2. reflexivity.
Qed.

(** ** Bounds on what a read answers *)

Lemma scan_length rx content : forall n last,
  List.length (Patterns.scan rx content n last) <= n.
Proof.
  induction n as [|n IH]; intro last; cbn [Patterns.scan]; [cbn; lia|].
  destruct (RegExp.exec rx content last) as [[i e]|]; cbn [List.length]; [|lia].
  specialize (IH (if i =? (if RegExp.global (RegExp.rflags rx) then e else last)
                  then S (if RegExp.global (RegExp.rflags rx) then e else last)
                  else if RegExp.global (RegExp.rflags rx) then e else last)).
  lia.
Qed.

Lemma file_matches_bound content searchPattern options n ms :
  FsRead.file_matches content searchPattern options n = Returned ms ->
  List.length ms <= n.
Proof.
  unfold FsRead.file_matches.
  destruct (FsRead.so_isPreset options && Patterns.isPresetPattern searchPattern)%bool.
  - unfold Patterns.findPresetMatches.
    destruct (Patterns.buildPresetPattern searchPattern); [|discriminate].
    intro H. inversion H. apply scan_length.
  - unfold Patterns.findMatches.
    destruct (Patterns.buildPattern _ _ _); [|discriminate].
    intro H. inversion H. apply scan_length.
Qed.

Lemma search_walk_bound f m searchPattern options levels : forall dir relDir matches,
  List.length matches <= FsRead.dir_cap options ->
  List.length (FsRead.search_walk f m searchPattern options levels dir relDir matches)
  <= FsRead.dir_cap options.
Proof.
  induction levels as [|n IH]; intros dir relDir matches Hm; [exact Hm|].
  cbn [FsRead.search_walk].
  destruct (FsRead.dir_cap options <=? List.length matches); [exact Hm|].
  destruct (FS.readdir_of f dir) as [items|e]; [|exact Hm].
  revert matches Hm. induction items as [|item rest IHr]; intros matches Hm; [exact Hm|].
  destruct (FsRead.dir_cap options <=? List.length matches) eqn:Ec; [exact Hm|].
  apply Nat.leb_gt in Ec.
  match goal with
  | |- context [match m with Some _ => _ | None => false end] =>
      destruct (match m with
                | Some m0 =>
                    Ignore.isIgnored m0
                      (if String.eqb relDir "" then item else NodePath.join relDir item)
                | None => false
                end)
  end; [now apply IHr|].
  destruct (FS.stat_of f (NodePath.join dir item)) as [[size|]|e].
  - destruct (FileTypes.isTextFile (NodePath.join dir item)); [|now apply IHr].
    destruct (FS.readFile_of f (NodePath.join dir item)) as [content|e];
      [|now apply IHr].
    destruct (FsRead.file_matches content searchPattern options
                (FsRead.dir_cap options - List.length matches)) as [fm|e] eqn:Ef;
      [|now apply IHr].
    apply IHr. apply file_matches_bound in Ef.
    rewrite length_app, length_map. lia.
  - apply IHr. now apply IH.
  - now apply IHr.
Qed.

Lemma list_walk_bound f m options levels : forall dir relDir st,
  List.length (fst st) <= FsRead.cap options ->
  List.length (fst (fst (FsRead.list_walk f m options levels dir relDir st)))
  <= FsRead.cap options.
Proof.
  induction levels as [|n IH]; intros dir relDir [entries truncated] Hm;
    cbn [fst] in Hm; [exact Hm|].
  cbn [FsRead.list_walk].
  destruct (FsRead.cap options <=? List.length entries); [exact Hm|].
  destruct (FS.readdir_of f dir) as [items|e]; [|exact Hm].
  revert entries truncated Hm.
  induction items as [|item rest IHr]; intros entries truncated Hm; [exact Hm|].
  destruct (FsRead.cap options <=? List.length entries) eqn:Ec; [exact Hm|].
  apply Nat.leb_gt in Ec.
  match goal with
  | |- context [match m with Some _ => _ | None => false end] =>
      destruct (match m with
                | Some m0 => Ignore.isIgnored m0 (NodePath.join relDir item)
                | None => false
                end)
  end; [now apply IHr|].
  destruct (match FsRead.exclude options with
            | Some ex => FileTypes.shouldExclude (NodePath.join relDir item) ex
            | None => Returned false
            end) as [[|]|e]; [now apply IHr| |exact Hm].
  destruct (FS.stat_of f (NodePath.join dir item)) as [[size|]|e].
  - destruct (match FsRead.types options with
              | Some (t :: ts) => negb (FileTypes.matchesType item (t :: ts))
              | _ => false
              end); [now apply IHr|].
    apply IHr. rewrite length_app. cbn [List.length]. lia.
  - assert (H1 : List.length
                   (entries
                    ++ [FsRead.mkDirEntry (NodePath.join relDir item)
                          (FsRead.KDirectory
                             (Some match FS.readdir_of f (NodePath.join dir item) with
                                   | Returned l => List.length l
                                   | Thrown _ => 0
                                   end))])%list
                 <= FsRead.cap options)
      by (rewrite length_app; cbn [List.length]; lia).
    destruct n as [|n'].
    + now apply IHr.
    + match goal with
      | |- context [FsRead.list_walk f m options (S n') ?d ?r ?s] =>
          pose proof (IH d r s H1) as H2;
          destruct (FsRead.list_walk f m options (S n') d r s) as [[es tr] ex]
      end.
      cbn [fst] in *. now apply IHr.
  - now apply IHr.
Qed.

Lemma readFile_within_bounds f absPath relativePath lines :
  within_bounds (FsRead.readFile f absPath relativePath lines).
Proof.
  unfold FsRead.readFile.
  destruct (negb (FileTypes.isTextFile absPath)); [exact I|].
  destruct (FS.readFile_of f absPath) as [content|e].
  - destruct (truthy lines).
    + destruct (Lines.parseLineRange _) as [[s e]|]; exact I.
    + destruct (_ >? _)%Z; exact I.
  - destruct e as [|c]; [exact I|]. destruct (String.eqb c "ENOENT") eqn:E.
    + apply String.eqb_eq in E. subst c. exact I.
    + assert (G : forall T (a b : T), match c with
                                      | "ENOENT" => a
                                      | _ => b
                                      end = b).
      { intros T a b. clear - E.
        repeat (let x := fresh in
                destruct c as [|[[] [] [] [] [] [] [] []] c];
                try reflexivity; try discriminate E). }
      rewrite G. exact I.
Qed.

Lemma prefix_hint_within_bounds prefix r :
  within_bounds r -> within_bounds (FsRead.prefix_hint prefix r).
Proof. destruct r; exact (fun H => H). Qed.

Lemma searchInSingleFile_within_bounds f absPath relativePath searchPattern options r :
  FsRead.so_maxMatches options = None ->
  FsRead.searchInSingleFile f absPath relativePath searchPattern options = Returned r ->
  within_bounds r.
Proof.
  intro Hm. unfold FsRead.searchInSingleFile. rewrite Hm. cbn [FileSearch.opt].
  destruct (negb _); [intro H; injection H as <-; exact I|].
  destruct (FS.readFile_of _ _); [|discriminate].
  destruct (FsRead.file_matches _ _ _ _) as [fm|] eqn:Ef; [|discriminate].
  intro H. injection H as <-. apply file_matches_bound in Ef.
  cbn [within_bounds]. rewrite length_map. split; [reflexivity|exact Ef].
Qed.

Lemma searchInDirectory_within_bounds f absPath relativePath searchPattern options r :
  FsRead.so_maxMatches options = None ->
  FsRead.searchInDirectory f absPath relativePath searchPattern options = Returned r ->
  within_bounds r.
Proof.
  intro Hm. unfold FsRead.searchInDirectory.
  destruct (match FsRead.so_respectIgnore _ with Some false => _ | _ => _ end) as [m|];
    [|discriminate].
  intro H. injection H as <-. cbn [within_bounds]. split; [reflexivity|].
  pose proof (search_walk_bound f m searchPattern options
                (Z.to_nat (FileSearch.opt 5%Z (FsRead.so_depth options))) absPath
                (if String.eqb relativePath "." then "" else relativePath) []) as B.
  unfold FsRead.dir_cap in B. rewrite Hm in B. cbn [FileSearch.opt] in B.
  apply B. cbn. lia.
Qed.

Lemma listDirectory_within_bounds f absPath relativePath depth entries truncated :
  FsRead.listDirectory f absPath relativePath depth FsRead.no_list_options
  = Returned (entries, truncated) ->
  List.length entries <= 500.
Proof.
  unfold FsRead.listDirectory.
  destruct (match FsRead.respectIgnore _ with Some false => _ | _ => _ end) as [m|];
    [|discriminate].
  pose proof (list_walk_bound f m FsRead.no_list_options (Z.to_nat depth) absPath
                (if String.eqb relativePath "." then "" else relativePath)
                ([], false)) as B.
  destruct (FsRead.list_walk _ _ _ _ _ _ _) as [[es tr] [e|]]; [discriminate|].
  intro H. injection H as <- <-. apply B. cbn. lia.
Qed.

Lemma searchFiles_length f root query options results :
  FileSearch.searchFiles f root query options = Returned results ->
  List.length results <= FileSearch.opt 50 (FileSearch.maxResults options).
Proof.
  unfold FileSearch.searchFiles.
  destruct (if FileSearch.opt true (FileSearch.respectIgnore options) then _ else _)
    as [m|e]; [|discriminate].
  destruct (FileSearch.walk _ _ _ _ _ _ _ _) as [entries [e|]]; [discriminate|].
  intro H. injection H as <-. rewrite length_firstn. lia.
Qed.

(** X18.  Whatever is asked, a directory listing or a name search is
    answered with at most 500 entries, and a content search with at
    most 100 matches, [matchCount] being their number. *)
Theorem read_within_bounds (cwd root : string) (f : FS.fs) (a : FsRead.args)
  (r : FsRead.result) :
  FsRead.execute cwd root f a = Returned r ->
  match r with
  | FsRead.DirectoryResult _ entries _ _ => List.length entries <= 500
  | FsRead.SearchResult _ matches matchCount _ =>
      matchCount = List.length matches /\ List.length matches <= 100
  | _ => True
  end.
Proof.
  change (FsRead.execute cwd root f a = Returned r -> within_bounds r).
  unfold FsRead.execute.
  destruct (Paths.resolvePath cwd root (FsRead.path a)) as [rp|msg];
    [|intro H; injection H as <-; exact I].
  destruct (FS.stat_of f (Paths.absolutePath rp)) as [st|e].
  - destruct (truthy (FsRead.find a)).
    { destruct (FileSearch.searchFiles _ _ _ _) as [results|] eqn:Es; [|discriminate].
      intro H. injection H as <-. cbn [within_bounds]. rewrite length_map.
      apply searchFiles_length in Es. cbn [FileSearch.opt FileSearch.maxResults] in Es.
      lia. }
    destruct (truthy match FsRead.pattern a with
                     | Some p0 => Some p0
                     | None => FsRead.preset a
                     end).
    + destruct st.
      * now apply searchInSingleFile_within_bounds.
      * now apply searchInDirectory_within_bounds.
    + destruct st.
      * intro H. injection H as <-. apply readFile_within_bounds.
      * destruct (FsRead.listDirectory _ _ _ _ _) as [[es tr]|] eqn:El; [|discriminate].
        intro H. injection H as <-. cbn [within_bounds].
        now apply listDirectory_within_bounds in El.
  - destruct (FileSearch.tryAutoResolve _ _ _ _) as [ar|]; [|discriminate].
    destruct (FileSearch.resolved ar && _)%bool.
    + intro H. injection H as <-.
      apply prefix_hint_within_bounds, readFile_within_bounds.
    + destruct (FileSearch.ambiguous ar); intro H; injection H as <-; exact I.
Qed.

Lemma read_within_bounds_witness :
  match FsRead.DirectoryResult "." [FsRead.mkDirEntry "x.md" (FsRead.KFile (Some "5B"))]
          "1 items (1 files, 0 directories)" (Some false) with
  | FsRead.DirectoryResult _ entries _ _ => List.length entries <= 500
  | FsRead.SearchResult _ matches matchCount _ =>
      matchCount = List.length matches /\ List.length matches <= 100
  | _ => True
  end.
Proof.
  apply (read_within_bounds "/" "/ws" zero_fs (read_args "." None)).
  vm_compute. reflexivity.
Defined.

(** ** Reading a range of lines *)

Lemma parseLineRange_bounds range s e :
  Lines.parseLineRange range = Some (s, e) -> (0 <= s <= e)%Z.
Proof.
  assert (P : forall m, (0 <= Lines.parseInt m)%Z)
    by (intro m; apply to_double_nonneg, parse_digits_nonneg; lia).
  unfold Lines.parseLineRange.
  destruct (Lines.is_digits (JS.trim range)).
  - intro H. injection H as <- <-. pose proof (P (JS.trim range)). lia.
  - destruct (Lines.split_dash (JS.trim range)) as [[m1 m2]|]; [|discriminate].
    destruct (Lines.is_digits m1 && Lines.is_digits m2)%bool; [|discriminate].
    destruct (Lines.parseInt m1 <=? Lines.parseInt m2)%Z eqn:E; [|discriminate].
    intro H. injection H as <- <-. apply Z.leb_le in E. pose proof (P m1). lia.
Qed.


(** X19.  A read of the lines [s] to [e] of a text file, [s] being a line
    of the file, shows exactly these lines (up to the last line of the
    file), numbered from [s] on, and reports that range. *)
Theorem readFile_range
  (f : FS.fs) (absPath relativePath content range : string) (s e : Z) :
  FS.readFile_of f absPath = Returned content ->
  FileTypes.isTextFile absPath = true ->
  range <> "" ->
  Lines.parseLineRange range = Some (s, e) ->
  (1 <= s <= FsWrite.line_count content)%Z ->
  let lines := JS.split_lines content in
  let last := Z.min (FsWrite.line_count content) e in
  let shown := firstn (Z.to_nat (last - s + 1)) (skipn (Z.to_nat (s - 1)) lines) in
  exists hint,
    FsRead.readFile f absPath relativePath (Some range)
    = FsRead.FileResult relativePath
        (FsRead.mkContent
           (JS.join_lines
              (Lines.number_lines (String.length (JS.Z_to_string last)) s shown))
           (Checksum.generateChecksum content) (List.length lines)
           (Some (s, last)) false)
        hint.
Proof.
  intros Hr Ht Hne Hp Hs lines last shown.
  pose proof (parseLineRange_bounds _ _ _ Hp) as Hse.
  unfold FsWrite.line_count in *. fold lines in Hs, last.
  eexists. unfold FsRead.readFile. rewrite Ht, Hr. cbn [negb truthy].
  apply String.eqb_neq in Hne. rewrite Hne. cbn [negb FileSearch.opt]. rewrite Hp.
  unfold Lines.extractLines.
  cbn [Lines.text Lines.actualStart Lines.actualEnd]. fold lines.
  rewrite Z.max_r by lia. fold last.
  assert (Hlast : (s <= last <= Z.of_nat (List.length lines))%Z) by (unfold last; lia).
  rewrite slice_mid by lia.
  replace (Z.to_nat last - Z.to_nat (s - 1)) with (Z.to_nat (last - s + 1)) by lia.
  fold shown.
  assert (Hlen : List.length shown = Z.to_nat (last - s + 1)).
  { unfold shown. rewrite length_firstn, length_skipn. lia. }
  assert (Hshown : JS.split_lines (JS.join_lines shown) = shown).
  { apply split_lines_join_lines.
    - intro E. rewrite E in Hlen. cbn in Hlen. lia.
    - apply Forall_firstn, Forall_skipn, split_lines_free. }
  unfold Lines.addLineNumbers. rewrite Hshown, Hlen.
  replace (s + Z.of_nat (Z.to_nat (last - s + 1)) - 1)%Z with last by lia.
  reflexivity.
Qed.

Lemma readFile_range_witness :
  exists hint,
    FsRead.readFile zero_fs "/ws/x.md" "x.md" (Some "2-9")
    = FsRead.FileResult "x.md"
        (FsRead.mkContent
           (JS.join_lines
              (Lines.number_lines
                 (String.length (JS.Z_to_string (Z.min (FsWrite.line_count "a
b
c") 9)))
                 2
                 (firstn (Z.to_nat (Z.min (FsWrite.line_count "a
b
c") 9 - 2 + 1))
                    (skipn (Z.to_nat (2 - 1)) (JS.split_lines "a
b
c")))))
           (Checksum.generateChecksum "a
b
c") (List.length (JS.split_lines "a
b
c"))
           (Some (2, Z.min (FsWrite.line_count "a
b
c") 9)%Z) false)
        hint.
Proof.
  refine (readFile_range zero_fs "/ws/x.md" "x.md" "a
b
c" "2-9" 2 9 _ _ _ _ _);
    try (vm_compute; reflexivity).
  - discriminate.
  - vm_compute. split; discriminate.
Defined.



(** ** Virtual paths, ignore files and context lines *)

(** ** From an absolute path back to a virtual one *)

Lemma prefix_drop p : forall s,
  String.prefix p s = true -> s = p ++ JS.drop (String.length p) s.
Proof.
  induction p as [|a p IH]; intros s H; [reflexivity|].
  destruct s as [|b s]; [discriminate|]. cbn [String.prefix] in H.
  destruct (Ascii.ascii_dec a b) as [E|E]; [|discriminate].
  subst b. cbn [append String.length JS.drop]. f_equal. now apply IH.
Qed.

Lemma drop_append_sep root v s :
  s = (root ++ NodePath.sep) ++ v -> JS.drop (String.length root + 1) s = v.
Proof.
  intro H. subst s.
  replace (String.length root + 1) with (String.length (root ++ NodePath.sep))
    by (rewrite length_append; reflexivity).
  apply drop_app_length.
Qed.

(** X21.  An absolute path that [resolvePath] has returned is never
    outside the reach of [toVirtualPath]: the root gives [.], and any
    other path is the root, the separator and the virtual path that is
    given back. *)
Theorem toVirtualPath_of_resolved (cwd root raw : string) (r : Paths.resolved_path) :
  Paths.resolvePath cwd root raw = Paths.Ok r ->
  exists v,
    Paths.toVirtualPath root (Paths.absolutePath r) = Some v
    /\ (Paths.absolutePath r = root /\ v = "."
        \/ Paths.absolutePath r = root ++ NodePath.sep ++ v).
Proof.
  unfold Paths.resolvePath, Paths.getWorkspaceRoot, Paths.toVirtualPath.
  destruct (Paths.isAbsolutePath (JS.trim raw)); [discriminate|].
  destruct (Paths.hasEscapeAttempt (JS.trim raw)); [discriminate|].
  destruct (String.eqb (JS.trim raw) "." || String.eqb (JS.trim raw) ""
            || String.eqb (JS.trim raw) "/")%bool.
  - intro H. injection H as <-. cbn [Paths.absolutePath].
    rewrite String.eqb_refl. exists ".". auto.
  - set (abs := NodePath.resolve cwd root _).
    destruct (String.eqb abs root) eqn:He.
    + rewrite andb_false_r. intro H. injection H as <-. cbn [Paths.absolutePath].
      rewrite He. apply String.eqb_eq in He. exists ".". auto.
    + destruct (JS.startsWith abs (root ++ NodePath.sep)) eqn:Hp; [|discriminate].
      cbn [negb andb]. intro H. injection H as <-. cbn [Paths.absolutePath].
      rewrite He, Hp. eexists. split; [reflexivity|]. right.
      unfold JS.startsWith in Hp. apply prefix_drop in Hp.
      rewrite length_append in Hp. cbn [NodePath.sep String.length] in Hp.
      rewrite Hp at 1. now rewrite append_assoc.
Qed.

Lemma toVirtualPath_of_resolved_witness :
  exists v,
    Paths.toVirtualPath "/ws" "/ws/notes/a.md" = Some v
    /\ ("/ws/notes/a.md" = "/ws" /\ v = "."
        \/ "/ws/notes/a.md" = "/ws" ++ NodePath.sep ++ v).
Proof.
  apply (toVirtualPath_of_resolved "/" "/ws" " notes\a.md "
           (Paths.mkResolved "/ws/notes/a.md" "notes/a.md" "notes/a.md")).
  vm_compute. reflexivity.
Defined.

(** ** Ignore files *)

Lemma trimEnd_idempotent s : JS.trimEnd (JS.trimEnd s) = JS.trimEnd s.
Proof.
  induction s as [|c r IH]; [reflexivity|].
  cbn [JS.trimEnd]. destruct (JS.trimEnd r) as [|c' r'] eqn:E.
  - destruct (JS.is_ws c) eqn:Hw; [reflexivity|]. cbn [JS.trimEnd]. now rewrite Hw.
  - cbn [JS.trimEnd]. cbn [JS.trimEnd] in IH.
    destruct (JS.trimEnd r') as [|c'' r''] eqn:E'.
    + destruct (JS.is_ws c'); [discriminate IH|]. now rewrite IH.
    + now rewrite IH.
Qed.

Lemma trimStart_head s :
  match JS.trimStart s with
  | String c _ => JS.is_ws c = false
  | EmptyString => True
  end.
Proof.
  induction s as [|c r IH]; [exact I|].
  cbn [JS.trimStart]. destruct (JS.is_ws c) eqn:E; [exact IH|exact E].
Qed.

Lemma trim_idempotent s : JS.trim (JS.trim s) = JS.trim s.
Proof.
  unfold JS.trim. pose proof (trimStart_head s) as H.
  destruct (JS.trimStart s) as [|c r]; [reflexivity|].
  rewrite (trimEnd_keeps_head c r H). cbn [JS.trimStart]. rewrite H.
  rewrite <- (trimEnd_keeps_head c r H). apply trimEnd_idempotent.
Qed.

Lemma trimEnd_free sep s :
  free_of sep s = true -> free_of sep (JS.trimEnd s) = true.
Proof.
  unfold free_of. induction s as [|c r IH]; [reflexivity|].
  cbn [JS.all_chars JS.trimEnd]. intro H. apply andb_true_iff in H.
  destruct H as [Hc Hr]. specialize (IH Hr).
  destruct (JS.trimEnd r).
  - destruct (JS.is_ws c); [reflexivity|]. cbn [JS.all_chars]. now rewrite Hc.
  - cbn [JS.all_chars] in *. now rewrite Hc, IH.
Qed.

Lemma trimStart_free sep s :
  free_of sep s = true -> free_of sep (JS.trimStart s) = true.
Proof.
  unfold free_of. induction s as [|c r IH]; [reflexivity|].
  cbn [JS.all_chars JS.trimStart]. intro H. apply andb_true_iff in H.
  destruct H as [Hc Hr]. destruct (JS.is_ws c); [now apply IH|].
  cbn [JS.all_chars]. now rewrite Hc, Hr.
Qed.

(** X22.  The rules read from an ignore file: blank lines and comment
    lines give none; every rule is a line of the file without the white
    space around it, so it is not empty, does not start with [#] and
    spans one line. *)
Theorem parseIgnorePatterns_rules (content : string) :
  Forall (fun p => p <> ""
                   /\ JS.startsWith p "#" = false
                   /\ JS.trim p = p
                   /\ In p (map JS.trim (JS.split_lines content))
                   /\ free_of JS.is_nl p = true)
         (Ignore.parseIgnorePatterns content).
Proof.
  unfold Ignore.parseIgnorePatterns. apply Forall_forall. intros p Hp.
  apply filter_In in Hp. destruct Hp as [Hin Hk].
  apply andb_true_iff in Hk. destruct Hk as [H1 H2].
  apply negb_true_iff in H1, H2. apply String.eqb_neq in H1.
  apply in_map_iff in Hin. destruct Hin as (l & Hl & Hin).
  repeat split; try assumption.
  - subst p. apply trim_idempotent.
  - apply in_map_iff. eauto.
  - subst p. unfold JS.trim. apply trimEnd_free, trimStart_free.
    pose proof (split_lines_free content) as F. rewrite Forall_forall in F.
    now apply F.
Qed.

(** ** Context lines *)

Lemma nth_cons_firstn (l : list string) : forall i k,
  i < List.length l ->
  nth i l "" :: firstn k (skipn (S i) l) = firstn (S k) (skipn i l).
Proof.
  induction l as [|x l IH]; intros i k Hi; [cbn in Hi; lia|].
  destruct i as [|i]; [reflexivity|].
  cbn [nth]. rewrite (skipn_cons (S i)), (skipn_cons i). apply IH. cbn in Hi. lia.
Qed.

(** X23.  Around a line of the content, [getContextLines] gives the
    [contextBefore] lines before it and the [contextAfter] lines after
    it, fewer where the content begins or ends: with the line itself
    between them they are one window of consecutive lines. *)
Theorem getContextLines_window (content : string) (line contextBefore contextAfter : Z) :
  (1 <= line <= FsWrite.line_count content)%Z ->
  (0 <= contextBefore)%Z -> (0 <= contextAfter)%Z ->
  let lines := JS.split_lines content in
  let '(before, after) := Lines.getContextLines content line contextBefore contextAfter in
  Z.of_nat (List.length before) = Z.min contextBefore (line - 1)
  /\ Z.of_nat (List.length after) = Z.min contextAfter (FsWrite.line_count content - line)
  /\ (before ++ nth (Z.to_nat (line - 1)) lines "" :: after)%list
     = firstn (List.length before + 1 + List.length after)
         (skipn (Z.to_nat (line - 1) - List.length before) lines).
Proof.
  intros Hl Hb Ha lines. unfold Lines.getContextLines. fold lines.
  unfold FsWrite.line_count in *. fold lines in Hl |- *.
  set (n := List.length lines) in *.
  rewrite !slice_mid by lia. cbv beta iota.
  set (i := Z.to_nat (line - 1)).
  set (b := Z.to_nat (Z.max 0 (line - 1 - contextBefore))).
  set (a := Z.to_nat (Z.min (Z.of_nat n) (line - 1 + 1 + contextAfter))).
  replace (Z.to_nat (line - 1 + 1)) with (S i) by lia.
  assert (Hbi : b <= i) by lia.
  assert (Hia : S i <= a) by lia.
  assert (Han : a <= n) by lia.
  assert (L1 : List.length (firstn (i - b) (skipn b lines)) = i - b).
  { rewrite length_firstn, length_skipn. fold n. lia. }
  assert (L2 : List.length (firstn (a - S i) (skipn (S i) lines)) = a - S i).
  { rewrite length_firstn, length_skipn. fold n. lia. }
  rewrite L1, L2. split; [lia|]. split; [lia|].
  replace (i - (i - b)) with b by lia.
  replace (i - b + 1 + (a - S i)) with ((i - b) + S (a - S i)) by lia.
  rewrite <- (firstn_skipn (i - b) (skipn b lines)) at 2.
  rewrite firstn_app, L1.
  replace (firstn (i - b + S (a - S i)) (firstn (i - b) (skipn b lines)))
    with (firstn (i - b) (skipn b lines))
    by (symmetry; apply firstn_all2; rewrite L1; lia).
  replace (i - b + S (a - S i) - (i - b)) with (S (a - S i)) by lia.
  f_equal. rewrite skipn_skipn. replace (i - b + b) with i by lia.
  apply nth_cons_firstn. fold n. lia.
Qed.

Lemma getContextLines_window_witness :
  let lines := JS.split_lines "a
b
c
d" in
  let '(before, after) := Lines.getContextLines "a
b
c
d" 2 3 1 in
  Z.of_nat (List.length before) = Z.min 3 (2 - 1)
  /\ Z.of_nat (List.length after) = Z.min 1 (FsWrite.line_count "a
b
c
d" - 2)
  /\ (before ++ nth (Z.to_nat (2 - 1)) lines "" :: after)%list
     = firstn (List.length before + 1 + List.length after)
         (skipn (Z.to_nat (2 - 1) - List.length before) lines).
Proof.
  apply (getContextLines_window "a
b
c
d" 2 3 1); vm_compute; try split; discriminate.
Defined.

(** ** Lines around an index *)

(** ** The line around an index *)

Lemma split_lines_cons c r :
  JS.split_lines (String c r)
  = if JS.is_nl c then "" :: JS.split_lines r
    else String c (first_line r) :: tl (JS.split_lines r).
Proof.
  unfold JS.split_lines, first_line. cbn [JS.split_by].
  destruct (JS.is_nl c); [reflexivity|].
  pose proof (split_by_nonempty JS.is_nl r) as H.
  unfold JS.split_lines. destruct (JS.split_by JS.is_nl r); [contradiction|reflexivity].
Qed.

Lemma split_lines_shape s : JS.split_lines s = first_line s :: tl (JS.split_lines s).
Proof.
  unfold first_line. pose proof (split_by_nonempty JS.is_nl s) as H.
  unfold JS.split_lines in *. destruct (JS.split_by JS.is_nl s); [contradiction|reflexivity].
Qed.

Lemma first_line_cons c r :
  first_line (String c r) = if JS.is_nl c then "" else String c (first_line r).
Proof. unfold first_line at 1. rewrite split_lines_cons. now destruct (JS.is_nl c). Qed.

Lemma single_line_free r : tl (JS.split_lines r) = [] -> free_of JS.is_nl r = true.
Proof.
  intro E. pose proof (split_lines_free r) as F.
  pose proof (join_lines_split_lines r) as J.
  rewrite split_lines_shape, E in F, J. cbn in J.
  inversion F as [|? ? F1 _]; subst. now rewrite J in F1.
Qed.

Lemma last_line_cons c r :
  last_line (String c r)
  = if free_of JS.is_nl r
    then (if JS.is_nl c then r else String c r)
    else last_line r.
Proof.
  unfold last_line at 1. rewrite split_lines_cons.
  destruct (free_of JS.is_nl r) eqn:Hf.
  - assert (E : JS.split_lines r = [r]) by now apply split_by_of_free.
    unfold first_line. rewrite E. now destruct (JS.is_nl c).
  - assert (Hl : tl (JS.split_lines r) <> []).
    { intro E. apply single_line_free in E. congruence. }
    unfold last_line. rewrite (split_lines_shape r).
    destruct (tl (JS.split_lines r)) as [|y t]; [contradiction|].
    now destruct (JS.is_nl c).
Qed.

Lemma first_nl_spec s : forall i,
  Patterns.first_nl s i
  = if free_of JS.is_nl s then (-1)%Z
    else (i + Z.of_nat (String.length (first_line s)))%Z.
Proof.
  induction s as [|c r IH]; intro i; [reflexivity|].
  cbn [Patterns.first_nl]. rewrite first_line_cons.
  unfold free_of in *. cbn [JS.all_chars].
  destruct (JS.is_nl c); cbn [negb andb String.length]; [lia|].
  rewrite IH. destruct (JS.all_chars _ r); [reflexivity|]. lia.
Qed.

Lemma last_line_length s : String.length (last_line s) <= String.length s.
Proof.
  induction s as [|c r IH]; [cbn; lia|].
  rewrite last_line_cons. destruct (free_of JS.is_nl r).
  - destruct (JS.is_nl c); cbn [String.length]; lia.
  - cbn [String.length]. lia.
Qed.

Lemma last_line_free s : free_of JS.is_nl s = true -> last_line s = s.
Proof.
  intro H. unfold last_line, JS.split_lines. now rewrite split_by_of_free.
Qed.

Lemma last_nl_spec s : forall i found,
  Patterns.last_nl s i found
  = if free_of JS.is_nl s then found
    else (i + Z.of_nat (String.length s) - Z.of_nat (String.length (last_line s)) - 1)%Z.
Proof.
  induction s as [|c r IH]; intros i found; [reflexivity|].
  cbn [Patterns.last_nl]. rewrite IH, last_line_cons.
  pose proof (last_line_length r) as Hl.
  unfold free_of in *. cbn [JS.all_chars].
  destruct (JS.all_chars _ r) eqn:Hr.
  - destruct (JS.is_nl c); cbn [negb andb String.length]; [lia|reflexivity].
  - rewrite andb_false_r. cbn [String.length]. lia.
Qed.

Lemma split_lines_app (p r : string) :
  JS.split_lines (p ++ r)
  = (removelast (JS.split_lines p)
     ++ (last_line p ++ first_line r)%string :: tl (JS.split_lines r))%list.
Proof.
  induction p as [|c p IH].
  - cbn [append]. unfold last_line. cbn. apply split_lines_shape.
  - cbn [append]. rewrite !split_lines_cons, last_line_cons.
    destruct (JS.is_nl c) eqn:Hc.
    + rewrite IH.
      destruct (free_of JS.is_nl p) eqn:Hf.
      * assert (E : JS.split_lines p = [p]) by now apply split_by_of_free.
        rewrite E. cbn [removelast app]. now rewrite (last_line_free p Hf).
      * rewrite (split_lines_shape p).
        destruct (tl (JS.split_lines p)) as [|y t] eqn:E.
        -- apply single_line_free in E. congruence.
        -- reflexivity.
    + unfold first_line at 1. rewrite IH.
      destruct (free_of JS.is_nl p) eqn:Hf.
      * assert (E : JS.split_lines p = [p]) by now apply split_by_of_free.
        unfold first_line at 2. rewrite E. cbn [removelast app hd tl].
        now rewrite (last_line_free p Hf).
      * unfold first_line at 2. rewrite (split_lines_shape p).
        destruct (tl (JS.split_lines p)) as [|y t] eqn:E.
        -- apply single_line_free in E. congruence.
        -- reflexivity.
Qed.

Lemma nth_after_removelast (l : list string) (x : string) (t : list string) :
  l <> [] ->
  nth (List.length l - 1) (removelast l ++ x :: t)%list "" = x.
Proof.
  intro H.
  assert (E : List.length (removelast l) = List.length l - 1).
  { rewrite removelast_firstn_len, length_firstn. lia. }
  rewrite app_nth2 by lia. rewrite E. now rewrite Nat.sub_diag.
Qed.

Lemma first_line_prefix s : exists rest, s = first_line s ++ rest.
Proof.
  induction s as [|c r [rest IH]]; [now exists ""|].
  rewrite first_line_cons. destruct (JS.is_nl c).
  - now exists (String c r).
  - exists rest. cbn [append]. now rewrite <- IH.
Qed.

Lemma last_line_suffix s : exists front, s = front ++ last_line s.
Proof.
  induction s as [|c r [front IH]]; [now exists ""|].
  rewrite last_line_cons. destruct (free_of JS.is_nl r).
  - destruct (JS.is_nl c); [now exists (String c "")|now exists ""].
  - exists (String c front). cbn [append]. now rewrite <- IH.
Qed.

Lemma substring_take_drop b n s : String.substring b n s = JS.take n (JS.drop b s).
Proof.
  revert b n. induction s as [|c r IH]; intros b n.
  - destruct b, n; reflexivity.
  - destruct b as [|b].
    + destruct n as [|n]; [reflexivity|]. cbn. now rewrite IH.
    + cbn. apply IH.
Qed.

Lemma substring_middle front mid rest :
  JS.substring (front ++ mid ++ rest) (String.length front)
    (String.length front + String.length mid) = mid.
Proof.
  unfold JS.substring. rewrite substring_take_drop, drop_app_length.
  replace (String.length front + String.length mid - String.length front)
    with (String.length mid) by lia.
  apply take_app_length.
Qed.

Lemma take_length_le n s : n <= String.length s -> String.length (JS.take n s) = n.
Proof. apply take_length. Qed.

(** X24.  For an index into a content, [getLineBounds] gives the start
    and the end of the line the index is on, the line feed at the end
    left out, and [getLineNumber] the number of that line; the index 0
    of a content that begins with a line feed is the exception (see
    [getLineBounds_at_leading_line_feed]). *)
Theorem getLineBounds_line (content : string) (index : Z) :
  (0 <= index <= Z.of_nat (String.length content))%Z ->
  (index = 0%Z -> JS.startsWith content Patterns.lf = false) ->
  let '(s, e) := Patterns.getLineBounds content index in
  (0 <= s <= index)%Z
  /\ (index <= e <= Z.of_nat (String.length content))%Z
  /\ JS.substring content (Z.to_nat s) (Z.to_nat e)
     = nth (Patterns.getLineNumber content index - 1) (JS.split_lines content) "".
Proof.
  intros Hi H0.
  set (p := JS.take (Z.to_nat index) content).
  set (r := JS.drop (Z.to_nat index) content).
  assert (Hc : content = p ++ r) by (symmetry; apply take_drop).
  assert (Hp : String.length p = Z.to_nat index) by (apply take_length; lia).
  pose proof (last_line_length p) as Hll.
  assert (Hs : (Patterns.lastIndexOf_nl content (index - 1) + 1
                = index - Z.of_nat (String.length (last_line p)))%Z).
  { unfold Patterns.lastIndexOf_nl.
    destruct (Z.eq_dec index 0) as [E|E].
    - subst index. specialize (H0 eq_refl).
      assert (Ep : p = "") by (unfold p; now destruct content).
      rewrite Ep. cbn [last_line]. change (String.length (last_line "")) with 0.
      destruct content as [|c t]; [reflexivity|].
      cbn [String.length]. rewrite Z.max_r by lia. rewrite Z.min_l by lia.
      unfold JS.startsWith, Patterns.lf in H0. rewrite prefix_single in H0.
      change (Z.to_nat (0 + 1)) with 1.
      cbn [JS.take Patterns.last_nl].
      unfold JS.is_nl. rewrite Ascii.eqb_sym, H0.
      destruct t; reflexivity.
    - rewrite Z.max_l by lia. rewrite Z.min_l by lia.
      replace (index - 1 + 1)%Z with index by lia. fold p.
      rewrite last_nl_spec. destruct (free_of JS.is_nl p) eqn:Hf.
      + rewrite (last_line_free p Hf). lia.
      + lia. }
  assert (Hlen : String.length content = String.length p + String.length r)
    by (rewrite Hc at 1; apply length_append).
  assert (He : ((if (Patterns.indexOf_nl content index =? -1)%Z
                 then Z.of_nat (String.length content)
                 else Patterns.indexOf_nl content index)
                = index + Z.of_nat (String.length (first_line r)))%Z).
  { unfold Patterns.indexOf_nl. rewrite Z.max_l by lia. rewrite Z.min_l by lia.
    fold r. rewrite first_nl_spec. destruct (free_of JS.is_nl r) eqn:Hf.
    - change ((-1 =? -1)%Z) with true. cbv iota. unfold first_line, JS.split_lines.
      rewrite split_by_of_free by assumption. cbn [hd]. lia.
    - assert (E : (index + Z.of_nat (String.length (first_line r)) =? -1)%Z = false)
        by (apply Z.eqb_neq; lia).
      now rewrite E. }
  unfold Patterns.getLineBounds. rewrite Hs, He.
  destruct (first_line_prefix r) as [rest Hr].
  destruct (last_line_suffix p) as [front Hf].
  assert (Hfl : String.length (first_line r) <= String.length r).
  { rewrite Hr at 2. rewrite length_append. lia. }
  split; [lia|]. split; [lia|].
  assert (Hn : Patterns.getLineNumber content index = List.length (JS.split_lines p)).
  { unfold Patterns.getLineNumber, Patterns.slice_to, JS.slice_index.
    assert (E : (index <? 0)%Z = false) by (apply Z.ltb_ge; lia).
    rewrite E. rewrite Z.min_l by lia. reflexivity. }
  rewrite Hn. rewrite Hc at 2. rewrite split_lines_app.
  rewrite nth_after_removelast by apply split_by_nonempty.
  assert (Hfront : String.length front
                   = Z.to_nat (index - Z.of_nat (String.length (last_line p)))).
  { apply (f_equal String.length) in Hf. rewrite length_append in Hf. lia. }
  rewrite Hc, Hf at 1. rewrite Hr at 1. rewrite !append_assoc.
  rewrite <- Hfront.
  replace (Z.to_nat (index + Z.of_nat (String.length (first_line r))))
    with (String.length front + String.length (last_line p ++ first_line r))
    by (rewrite length_append; lia).
  rewrite <- (append_assoc (last_line p)). apply substring_middle.
Qed.

Lemma getLineBounds_line_witness :
  let '(s, e) := Patterns.getLineBounds "ab
cd" 4 in
  (0 <= s <= 4)%Z
  /\ (4 <= e <= Z.of_nat (String.length "ab
cd"))%Z
  /\ JS.substring "ab
cd" (Z.to_nat s) (Z.to_nat e)
     = nth (Patterns.getLineNumber "ab
cd" 4 - 1) (JS.split_lines "ab
cd") "".
Proof.
  apply (getLineBounds_line "ab
cd" 4); [vm_compute; split; discriminate|discriminate].
Defined.

(** At index 0 of a content that begins with a line feed, the start
    lies behind the end. *)
Example getLineBounds_at_leading_line_feed :
  Patterns.getLineBounds "
ab" 0 = (1, 0)%Z.
Proof. reflexivity. Qed.
